(** * Aggregation and caching engine of the network globe

    A shallow embedding of the data layer of the application: the provider
    clients under [src/services] (DefiLlama registry, CoinGecko, DexScreener,
    stablecoins, yields, fear-and-greed), the snapshot building code of
    [App.js] ([StatsCard], [preFetchNetworkData], [networkDataCache]) and the
    roster discovery of [Hero.js] ([loadAnalytics]).

    Conventions of the model.
    - A finite JavaScript number is an exact rational ([Q]); rounding and
      overflow of doubles are not modelled.  Where the source can produce
      [NaN] or an infinity the type [jsnum] is used.
    - A JavaScript string is a [string] of bytes; [toLowerCase] lowers the
      ASCII letters, which is what [String.prototype.toLowerCase] does to a
      string of ASCII characters ([ascii_only]); on other strings the two
      differ.
    - A plain object used as a dictionary is an association list in insertion
      order ([obj]), which is the order of [Object.keys] for keys that are not
      array indices.  [obj_get] reads the properties of the object itself;
      under the name of a property that every object inherits ([inherited],
      such as "constructor") and that the object does not have itself, the
      expression [o[k]] finds a function, which [js_get] tells apart.  The
      [Map] [networkDataCache] is a [gmap].
    - A field of a parsed response is absent or holds a value of the type
      that the client expects; [null] fields and fields of another type are
      not modelled, except for a [null] element of the history of a chain.
    - An [async] function is a computation in the monad [M]: it threads the
      module-level variables, reads the clock, issues HTTP requests that the
      [World] answers, and either returns or throws.  A call runs to
      completion before the next one starts, in the order in which the source
      creates the promises.  The source starts the calls of one refresh
      together; where two of them share a provider cache (the yield
      statistics and the top yields) the model lets the second one find
      what the first has stored, while in the source both find the cache as
      it was and both download.  The effect of [StatsCard] is split into its
      synchronous head [StatsCard_cached] and the refresh
      [StatsCard_refresh], so that two overlapping requests can be run.
    - Fields that only carry display text (formatted amounts, logos, slugs)
      are left out of the records. *)

From Stdlib Require Import QArith ZArith List String Ascii Lia Lqa.
From stdpp Require Import gmap strings list.
Import ListNotations.

Local Open Scope string_scope.
Local Open Scope list_scope.

(** ** JavaScript values *)

Definition lower_ascii (c : ascii) : ascii :=
  let n := nat_of_ascii c in
  if (Nat.leb 65 n && Nat.leb n 90)%bool then ascii_of_nat (n + 32) else c.

Fixpoint toLowerCase (s : string) : string :=
  match s with
  | EmptyString => EmptyString
  | String c s' => String (lower_ascii c) (toLowerCase s')
  end.

(** A plain object as a dictionary, in insertion order. *)
Definition obj (V : Type) := list (string * V).

Fixpoint obj_get {V} (k : string) (o : obj V) : option V :=
  match o with
  | [] => None
  | (k', v) :: o' => if String.eqb k k' then Some v else obj_get k o'
  end.

(** [o[k] = v]: an existing key keeps its place. *)
Fixpoint obj_set {V} (k : string) (v : V) (o : obj V) : obj V :=
  match o with
  | [] => [(k, v)]
  | (k', v') :: o' =>
      if String.eqb k k' then (k, v) :: o' else (k', v') :: obj_set k v o'
  end.

Definition obj_keys {V} (o : obj V) : list string := map fst o.
Definition obj_values {V} (o : obj V) : list V := map snd o.

(** The names of the properties of [Object.prototype]: the methods of every
    object and the accessor [__proto__]. *)
Definition OBJECT_PROTOTYPE : list string :=
  [ "constructor"; "hasOwnProperty"; "isPrototypeOf"; "propertyIsEnumerable";
    "toLocaleString"; "toString"; "valueOf"; "__proto__";
    "__defineGetter__"; "__defineSetter__"; "__lookupGetter__";
    "__lookupSetter__" ].

Definition inherited (k : string) : bool :=
  existsb (String.eqb k) OBJECT_PROTOTYPE.

(** [o[k]] on a plain object: a property of the object itself, else what
    the object inherits under that name (a function, or [Object.prototype]
    for "__proto__": a truthy value that is neither a string nor a number),
    else [undefined]. *)
Inductive property (V : Type) :=
| Own (v : V)
| Inherited
| Undefined.

Arguments Own {V} v.
Arguments Inherited {V}.
Arguments Undefined {V}.

Definition js_get {V} (k : string) (o : obj V) : property V :=
  match obj_get k o with
  | Some v => Own v
  | None => if inherited k then Inherited else Undefined
  end.

(** A string of ASCII characters. *)
Definition ascii_only (s : string) : bool :=
  forallb (fun c => Nat.ltb (nat_of_ascii c) 128) (list_ascii_of_string s).

(** [Array.prototype.find]. *)
Definition js_find {A} (p : A -> bool) (l : list A) : option A := List.find p l.

(** [arr.slice(0, n)] and [arr.slice(1)]. *)
Definition slice0 {A} (n : nat) (l : list A) : list A := firstn n l.

(** Truthiness of a number and of a string; [x || d]. *)
Definition truthyQ (q : Q) : bool := negb (Qeq_bool q 0).

Definition orQ (x : option Q) (d : Q) : Q :=
  match x with
  | Some q => if truthyQ q then q else d
  | None => d
  end.

Definition truthyS (s : string) : bool :=
  match s with EmptyString => false | _ => true end.

Definition orS (x : option string) (d : string) : string :=
  match x with
  | Some s => if truthyS s then s else d
  | None => d
  end.

(** [x || null] on an optional string. *)
Definition orNullS (x : option string) : option string :=
  match x with
  | Some s => if truthyS s then Some s else None
  | None => None
  end.

(** ** Provider identifier tables *)

Record chain_info := {
  defillamaName : string;
  geckoId : string;
  iconPath : string;
  altNames : list string
}.

(** [CHAIN_NAME_MAP] of [services/defillama.js]. *)
Definition CHAIN_NAME_MAP : obj chain_info :=
  [
    ("Ethereum", {| defillamaName := "Ethereum"; geckoId := "ethereum";
        iconPath := "chains/rsz_ethereum.jpg"; altNames := ["Ethereum"] |});
    ("Solana", {| defillamaName := "Solana"; geckoId := "solana";
        iconPath := "chains/rsz_solana.jpg"; altNames := ["Solana"] |});
    ("Bitcoin", {| defillamaName := "Bitcoin"; geckoId := "bitcoin";
        iconPath := "chains/rsz_bitcoin.jpg"; altNames := ["Bitcoin"] |});
    ("BSC", {| defillamaName := "BSC"; geckoId := "binancecoin";
        iconPath := "chains/rsz_bsc.jpg"; altNames := ["BSC"; "BNB Chain"; "Binance"] |});
    ("Avalanche", {| defillamaName := "Avalanche"; geckoId := "avalanche-2";
        iconPath := "chains/rsz_avalanche.jpg"; altNames := ["Avalanche"] |});
    ("Polygon", {| defillamaName := "Polygon"; geckoId := "matic-network";
        iconPath := "chains/rsz_polygon.jpg"; altNames := ["Polygon"; "Matic"] |});
    ("Arbitrum", {| defillamaName := "Arbitrum"; geckoId := "arbitrum";
        iconPath := "chains/rsz_arbitrum.jpg"; altNames := ["Arbitrum"; "Arbitrum One"] |});
    ("Optimism", {| defillamaName := "Optimism"; geckoId := "optimism";
        iconPath := "chains/rsz_optimism.jpg"; altNames := ["Optimism"; "OP Mainnet"] |});
    ("Base", {| defillamaName := "Base"; geckoId := "ethereum";
        iconPath := "chains/rsz_base.jpg"; altNames := ["Base"] |});
    ("Sui", {| defillamaName := "Sui"; geckoId := "sui";
        iconPath := "chains/rsz_sui.jpg"; altNames := ["Sui"] |});
    ("Cardano", {| defillamaName := "Cardano"; geckoId := "cardano";
        iconPath := "chains/rsz_cardano.jpg"; altNames := ["Cardano"] |});
    ("Tron", {| defillamaName := "Tron"; geckoId := "tron";
        iconPath := "chains/rsz_tron.jpg"; altNames := ["Tron"; "TRON"] |});
    ("TON", {| defillamaName := "TON"; geckoId := "the-open-network";
        iconPath := "chains/rsz_ton.jpg"; altNames := ["TON"; "The Open Network"] |});
    ("Polkadot", {| defillamaName := "Polkadot"; geckoId := "polkadot";
        iconPath := "chains/rsz_polkadot.jpg"; altNames := ["Polkadot"] |});
    ("Near", {| defillamaName := "Near"; geckoId := "near";
        iconPath := "chains/rsz_near.jpg"; altNames := ["Near"; "NEAR"; "Aurora"] |});
    ("Fantom", {| defillamaName := "Fantom"; geckoId := "fantom";
        iconPath := "chains/rsz_fantom.jpg"; altNames := ["Fantom"; "Sonic"] |});
    ("Cosmos", {| defillamaName := "CosmosHub"; geckoId := "cosmos";
        iconPath := "chains/rsz_cosmos.jpg"; altNames := ["Cosmos"; "CosmosHub"; "Cosmos Hub"] |});
    ("Aptos", {| defillamaName := "Aptos"; geckoId := "aptos";
        iconPath := "chains/rsz_aptos.jpg"; altNames := ["Aptos"] |});
    ("Cronos", {| defillamaName := "Cronos"; geckoId := "crypto-com-chain";
        iconPath := "chains/rsz_cronos.jpg"; altNames := ["Cronos"] |});
    ("Sei", {| defillamaName := "Sei"; geckoId := "sei-network";
        iconPath := "chains/rsz_sei.jpg"; altNames := ["Sei"] |})
  ].

(** [COINGECKO_IDS] of [services/coingecko.js]. *)
Definition COINGECKO_IDS : obj string :=
  [
    ("Ethereum", "ethereum");
    ("Solana", "solana");
    ("Bitcoin", "bitcoin");
    ("BSC", "binancecoin");
    ("BNB Chain", "binancecoin");
    ("Avalanche", "avalanche-2");
    ("Polygon", "matic-network");
    ("Arbitrum", "arbitrum");
    ("Optimism", "optimism");
    ("Base", "ethereum");
    ("Sui", "sui");
    ("Cardano", "cardano");
    ("Tron", "tron");
    ("TON", "the-open-network");
    ("Polkadot", "polkadot");
    ("Near", "near");
    ("Fantom", "fantom");
    ("Cosmos", "cosmos");
    ("Aptos", "aptos");
    ("Cronos", "crypto-com-chain");
    ("Sei", "sei-network")
  ].

(** [DEXSCREENER_CHAIN_MAP] of [services/dexscreener.js]. *)
Definition DEXSCREENER_CHAIN_MAP : obj string :=
  [
    ("Ethereum", "ethereum");
    ("Solana", "solana");
    ("Bitcoin", "bitcoin");
    ("BSC", "bsc");
    ("BNB Chain", "bsc");
    ("Avalanche", "avalanche");
    ("Polygon", "polygon");
    ("Arbitrum", "arbitrum");
    ("Optimism", "optimism");
    ("Base", "base");
    ("Sui", "sui");
    ("Tron", "tron");
    ("TON", "ton");
    ("Near", "near");
    ("Fantom", "fantom");
    ("Aptos", "aptos");
    ("Cronos", "cronos");
    ("Sei", "sei");
    ("Cardano", "cardano");
    ("Polkadot", "polkadot");
    ("Cosmos", "cosmoshub")
  ].

(** [getCoinGeckoId]: [COINGECKO_IDS[networkName] || null], as far as the
    result is an identifier or [null]; for a name that the table inherits
    the result is a function, which [coinIdOf] takes into account. *)
Definition getCoinGeckoId (networkName : string) : option string :=
  orNullS (obj_get networkName COINGECKO_IDS).

(** The chain id of the liquidity lookup in [App.js]:
    [chainIdMap[network.name] || network.name.toLowerCase()]. *)
Definition dexChainId (networkName : string) : string :=
  orS (obj_get networkName DEXSCREENER_CHAIN_MAP) (toLowerCase networkName).

(** [CHAIN_NAME_MAP[chainName]?.defillamaName || chainName], the first two
    lines of every per-chain function of [services/defillama.js]. *)
Definition defillamaChainNameOf (chainName : string) : string :=
  orS (option_map defillamaName (obj_get chainName CHAIN_NAME_MAP)) chainName.

(** ** Numbers that may be [NaN] or infinite *)

Inductive jsnum := Fin (q : Q) | NaN | PInf | NInf.

(** [ToNumber] of a numeric field that may be absent: [undefined] is [NaN]. *)
Definition num_of (x : option Q) : jsnum :=
  match x with Some q => Fin q | None => NaN end.

Definition js_sub (a b : jsnum) : jsnum :=
  match a, b with
  | NaN, _ | _, NaN => NaN
  | Fin x, Fin y => Fin (x - y)
  | PInf, PInf | NInf, NInf => NaN
  | PInf, _ => PInf
  | NInf, _ => NInf
  | Fin _, PInf => NInf
  | Fin _, NInf => PInf
  end.

Definition sign_inf (positive : bool) : jsnum := if positive then PInf else NInf.

(** Division of doubles; the sign of a zero is not modelled (a zero counts
    as [+0]). *)
Definition js_div (a b : jsnum) : jsnum :=
  match a, b with
  | NaN, _ | _, NaN => NaN
  | Fin x, Fin y =>
      if Qeq_bool y 0 then
        if Qeq_bool x 0 then NaN else sign_inf (Qle_bool 0 x)
      else Fin (x / y)
  | Fin _, _ => Fin 0
  | PInf, Fin y => sign_inf (Qle_bool 0 y)
  | NInf, Fin y => sign_inf (negb (Qle_bool 0 y))
  | _, _ => NaN
  end.

Definition js_mul (a b : jsnum) : jsnum :=
  match a, b with
  | NaN, _ | _, NaN => NaN
  | Fin x, Fin y => Fin (x * y)
  | Fin x, PInf | PInf, Fin x =>
      if Qeq_bool x 0 then NaN else sign_inf (Qle_bool 0 x)
  | Fin x, NInf | NInf, Fin x =>
      if Qeq_bool x 0 then NaN else sign_inf (negb (Qle_bool 0 x))
  | PInf, PInf | NInf, NInf => PInf
  | PInf, NInf | NInf, PInf => NInf
  end.

(** [x || 0] on a number: [NaN] and zero are falsy. *)
Definition or0 (x : jsnum) : jsnum :=
  match x with
  | Fin q => if truthyQ q then Fin q else Fin 0
  | NaN => Fin 0
  | _ => x
  end.

(** A defined, finite number: neither [NaN] nor an infinity. *)
Definition is_finite (x : jsnum) : bool :=
  match x with Fin _ => true | _ => false end.

(** *** [parseInt] *)

Definition is_ws (c : ascii) : bool :=
  let n := nat_of_ascii c in
  (Nat.eqb n 32 || (Nat.leb 9 n && Nat.leb n 13))%bool.

Fixpoint skip_ws (s : string) : string :=
  match s with
  | String c s' => if is_ws c then skip_ws s' else s
  | EmptyString => s
  end.

Definition digit_val (radix : Z) (c : ascii) : option Z :=
  let n := Z.of_nat (nat_of_ascii c) in
  let d := if (Z.leb 48 n && Z.leb n 57)%bool then (n - 48)%Z
           else if (Z.leb 97 n && Z.leb n 122)%bool then (n - 87)%Z
           else if (Z.leb 65 n && Z.leb n 90)%bool then (n - 55)%Z
           else radix in
  if Z.ltb d radix then Some d else None.

(** The value of the longest prefix of digits, [None] if there is none. *)
Fixpoint parse_digits (radix : Z) (s : string) (acc : option Z) : option Z :=
  match s with
  | String c s' =>
      match digit_val radix c with
      | Some d => parse_digits radix s' (Some (radix * default 0%Z acc + d)%Z)
      | None => acc
      end
  | EmptyString => acc
  end.

Definition parse_unsigned (s : string) : option Z :=
  match s with
  | String "0" (String "x" s') | String "0" (String "X" s') =>
      parse_digits 16 s' None
  | _ => parse_digits 10 s None
  end.

(** [parseInt(v)] without a radix, for a field that is a string or absent.
    [parseInt(undefined)] reads the text "undefined" and is [NaN]. *)
Definition parseInt (v : option string) : jsnum :=
  match v with
  | None => NaN
  | Some s =>
      let s := skip_ws s in
      let '(neg, s) :=
        match s with
        | String "-" s' => (true, s')
        | String "+" s' => (false, s')
        | _ => (false, s)
        end in
      match parse_unsigned s with
      | Some z => Fin (inject_Z (if neg then - z else z))
      | None => NaN
      end
  end.

(** ** What the providers answer *)

(** An element of [GET /v2/chains]. *)
Record chain_json := {
  c_name : option string;
  c_tvl : option Q;
  c_tokenSymbol : option string;
  c_gecko_id : option string;
  c_chainId : option Z
}.

(** An element of [GET /protocols]. *)
Record protocol_json := {
  p_name : option string;
  p_tvl : option Q;
  p_category : option string;
  p_chains : option (list string)
}.

(** [GET /overview/dexs/:chain]. *)
Record dexs_json := {
  totalVolume : option Q;
  totalVolume7d : option Q;
  dexs_change_1d : option Q;
  dexs_change_7d : option Q;
  dexs_protocols : option (list string)
}.

(** [GET /overview/fees/:chain]. *)
Record fees_json := {
  totalFees24h : option Q;
  totalFees7d : option Q;
  totalRevenue24h : option Q;
  totalRevenue7d : option Q;
  fees_change_1d : option Q;
  fees_change_7d : option Q
}.

(** [GET /bridges/:chain]. *)
Record bridge_json := {
  b_volume24h : option Q;
  b_volume7d : option Q;
  b_volume30d : option Q
}.

Record bridges_json := { bridges : option (list bridge_json) }.

(** An element of [GET /v2/historicalChainTvl/:chain]; an element of the
    array may be [null]. *)
Record hist_point := { h_tvl : option Q }.

(** [GET /coins/:id] and [GET /coins/:id/market_chart]. *)
Record market_json := {
  current_price_usd : option Q;
  market_cap_usd : option Q
}.

Record coin_json := { market_data : option market_json }.

Record chart_json := { prices : list (Q * Q) }.

(** [GET /pairs/:chainId] and [GET /search?q=] of DexScreener. *)
Record liquidity_json := { usd : option Q }.
Record pair_json := { liquidity : option liquidity_json }.
Record pairs_json := { pairs : option (list pair_json) }.

(** An element of [GET /stablecoinchains]. *)
Record circulating_json := { peggedUSD : option Q }.

Record sc_chain_json := {
  sc_name : option string;
  sc_totalCirculatingUSD : option circulating_json
}.

(** [GET /pools] of the yields API. *)
Record pool_json := {
  pl_pool : option string;
  pl_project : option string;
  pl_symbol : option string;
  pl_chain : option string;
  pl_tvlUsd : option Q;
  pl_apy : option Q;
  pl_apyBase : option Q;
  pl_apyReward : option Q;
  pl_stablecoin : option bool
}.

Record pools_json := { pools_data : option (list pool_json) }.

(** [GET /fng/?limit=7]. *)
Record fng_entry := {
  fg_value : option string;
  fg_value_classification : option string;
  fg_timestamp : option string
}.

Record fng_json := { fng_data : option (list fng_entry) }.

(** The outcome of one [fetch] followed by [response.json()]. *)
Inductive response (B : Type) :=
| NetworkError          (* [fetch] rejects *)
| NotOk                 (* [response.ok] is false *)
| BadJson               (* [response.json()] rejects *)
| Json (body : B).

Arguments NetworkError {B}.
Arguments NotOk {B}.
Arguments BadJson {B}.
Arguments Json {B} body.

Definition failed {B} (r : response B) : Prop :=
  match r with Json _ => False | _ => True end.

Inductive request :=
| GET_chains
| GET_protocols
| GET_dexs (chain : string)
| GET_fees (chain : string)
| GET_bridges (chain : string)
| GET_historicalChainTvl (chain : string)
| GET_coin (id : string)
| GET_market_chart (id : string) (days : Z)
| GET_pairs (chainId : string)
| GET_search (query : string)
| GET_stablecoinchains
| GET_pools
| GET_fng.

(** The environment of the engine: the clock and the providers.  [now k] is
    the k-th reading of [Date.now()]; every [http_] field gives the answer to
    a request by the number of requests issued before it. *)
Record World := {
  now : nat -> Z;
  http_chains : nat -> response (list chain_json);
  http_protocols : nat -> response (list protocol_json);
  http_dexs : string -> nat -> response dexs_json;
  http_fees : string -> nat -> response fees_json;
  http_bridges : string -> nat -> response bridges_json;
  http_historicalChainTvl : string -> nat -> response (list (option hist_point));
  http_coin : string -> nat -> response coin_json;
  http_market_chart : string -> Z -> nat -> response chart_json;
  http_pairs : string -> nat -> response pairs_json;
  http_search : string -> nat -> response pairs_json;
  http_stablecoinchains : nat -> response (list sc_chain_json);
  http_pools : nat -> response pools_json;
  http_fng : nat -> response fng_json
}.

(** ** What the provider clients return *)

(** A value of the map built by [fetchChainTVL]. *)
Record tvl_entry := {
  tvl : Q;
  tokenSymbol : option string;
  te_geckoId : option string;
  te_chainId : option Z
}.

(** [fetchProtocols]. *)
Record protocol_counts := {
  counts : obj nat;
  categories : obj (obj nat)
}.

(** An element of [fetchChainProtocols]. *)
Record protocol_out := {
  po_name : option string;
  po_tvl : Q;
  po_category : string
}.

(** [fetchChainDEXVolume], [fetchChainFees], [fetchChainBridgeVolume],
    [fetchChainHistoricalTVL]. *)
Record dex_volume := {
  volume24h : Q;
  volume7d : Q;
  change_1d : Q;
  change_7d : Q;
  protocolCount : nat;
  dv_protocols : list string
}.

Record chain_fees := {
  fees24h : Q;
  fees7d : Q;
  revenue24h : Q;
  revenue7d : Q;
  cf_change_1d : Q;
  cf_change_7d : Q
}.

Record bridge_volume := {
  bv_volume24h : Q;
  bv_volume7d : Q;
  bv_volume30d : Q;
  bridgeCount : nat
}.

Record historical_tvl := {
  currentTVL : Q;
  change1d : jsnum;
  change7d : jsnum;
  dataPoints : nat
}.

(** The object returned by the [try] block of [fetchNetworkDetails]. *)
Record details_full := {
  d_tvl : Q;
  d_dappCount : nat;
  d_categories : obj nat;
  d_topProtocols : list protocol_out;
  d_protocolsByCategory : obj (list protocol_out);
  d_dexVolume24h : Q;
  d_dexVolume7d : Q;
  d_dexChange1d : Q;
  d_dexChange7d : Q;
  d_fees24h : Q;
  d_fees7d : Q;
  d_revenue24h : Q;
  d_revenue7d : Q;
  d_bridgeVolume24h : Q;
  d_bridgeVolume7d : Q;
  d_bridgeCount : nat;
  d_tvlChange1d : jsnum;
  d_tvlChange7d : jsnum;
  d_geckoId : option string
}.

(** [fetchNetworkDetails]: the full object, or the minimal one of its
    [catch] block ([tvl: 0], [dappCount: 0], no protocols). *)
Inductive details :=
| Details (d : details_full)
| MinimalDetails.

Definition details_tvl (d : details) : Q :=
  match d with Details f => d_tvl f | MinimalDetails => 0 end.

(** The liquidity of a chain: [{ totalLiquidity, pairCount }]. *)
Record liquidity_total := {
  totalLiquidity : Q;
  pairCount : nat
}.

(** A value of the map built by [fetchStablecoinChains]. *)
Record sc_entry := {
  totalCirculatingUSD : Q;
  totalCirculating : option circulating_json
}.

(** [fetchChainYieldStats] and an element of [fetchChainTopYields]. *)
Record yield_stats := {
  poolCount : nat;
  totalYieldTvl : Q;
  avgApy : Q;
  weightedAvgApy : Q;
  medianApy : Q
}.

Record top_yield := {
  ty_pool : option string;
  ty_project : option string;
  ty_symbol : option string;
  ty_chain : option string;
  ty_apy : option Q;
  ty_apyBase : Q;
  ty_apyReward : Q;
  ty_tvlUsd : option Q;
  ty_stablecoin : bool
}.

(** [fetchFearGreedIndex]. *)
Record fng_result := {
  fr_value : jsnum;
  fr_classification : option string;
  fr_timestamp : option string;
  fr_previousValue : option jsnum;
  fr_previousClassification : option string;
  fr_weekAgoValue : option jsnum;
  fr_change24h : option jsnum;
  fr_change7d : option jsnum
}.

(** The object stored in [networkDataCache].  [oid] is the identity of the
    object literal: two snapshots are the same object ([===]) when they have
    the same [oid]. *)
Record snapshot := {
  oid : nat;
  detailedData : option details;
  priceData : option coin_json;
  historicalData : option chart_json;
  dexScreenerData : option liquidity_total;
  stablecoinData : Q;
  yieldData : option yield_stats;
  topYields : option (list top_yield);
  fearGreedData : option fng_result;
  fetchedAt : Z
}.

(** ** The roster of [Hero.js] *)

(** [new THREE.Color("#rrggbb")], or the colour that [loadAnalytics] derives
    from the hash of a name ([setHSL(hue / 360, 0.7, 0.5)]). *)
Inductive color_t := Hex (s : string) | HSL (hue : Z).

(** [new THREE.Vector3(x, y, z).normalize()], or a point of the Fibonacci
    sphere ([generatePosition(index, total)]). *)
Inductive pos_t := Vec3 (x y z : Q) | FibPos (index total : nat).

Record network := {
  name : string;
  symbol : string;
  est : string;
  color : color_t;
  pos : pos_t;
  net_geckoId : option string;
  rawTvl : option Q;
  marketShare : option Q
}.

(** ** The module-level state and the monad of [async] functions *)

Record State := {
  poolsCache : option (list pool_json);
  poolsCacheTime : Z;
  stablecoinChainsCache : option (obj sc_entry);
  stablecoinCacheTime : Z;
  fngCache : option fng_result;
  fngCacheTime : Z;
  networkDataCache : gmap string snapshot;
  NETWORKS : list network;
  requests : list request;      (* the requests issued, latest first *)
  ticks : nat;                  (* how often the clock was read *)
  next_oid : nat                (* how many snapshot objects were created *)
}.

Inductive outcome (A : Type) :=
| Returned (a : A)
| Thrown.

Arguments Returned {A} a.
Arguments Thrown {A}.

Definition M (A : Type) : Type := State -> outcome A * State.

Definition ret {A} (a : A) : M A := fun s => (Returned a, s).

Definition throw {A} : M A := fun s => (Thrown, s).

Definition bind {A B} (m : M A) (k : A -> M B) : M B :=
  fun s =>
    match m s with
    | (Returned a, s') => k a s'
    | (Thrown, s') => (Thrown, s')
    end.

(** [try { m } catch (e) { h }]. *)
Definition try_catch {A} (m : M A) (h : M A) : M A :=
  fun s =>
    match m s with
    | (Returned a, s') => (Returned a, s')
    | (Thrown, s') => h s'
    end.

(** [p.catch(() => d)] and the slot of a promise in [Promise.allSettled]. *)
Definition catch_default {A} (m : M A) (d : A) : M A := try_catch m (ret d).

Definition settle {A} (m : M A) : M (option A) :=
  fun s =>
    match m s with
    | (Returned a, s') => (Returned (Some a), s')
    | (Thrown, s') => (Returned None, s')
    end.

(** Reading and writing the module-level variables. *)
Definition get {A} (f : State -> A) : M A := fun s => (Returned (f s), s).

Definition modify (f : State -> State) : M unit := fun s => (Returned tt, f s).

Declare Scope M_scope.
Delimit Scope M_scope with M.
Bind Scope M_scope with M.

Notation "x <- c ;; k" := (bind c (fun x => k))
  (at level 100, c at next level, right associativity) : M_scope.

Local Open Scope M_scope.

Definition set_poolsCache (c : list pool_json) (t : Z) (s : State) : State :=
  {| poolsCache := Some c; poolsCacheTime := t;
     stablecoinChainsCache := stablecoinChainsCache s;
     stablecoinCacheTime := stablecoinCacheTime s;
     fngCache := fngCache s; fngCacheTime := fngCacheTime s;
     networkDataCache := networkDataCache s; NETWORKS := NETWORKS s;
     requests := requests s; ticks := ticks s; next_oid := next_oid s |}.

Definition set_stablecoinCache (c : obj sc_entry) (t : Z) (s : State) : State :=
  {| poolsCache := poolsCache s; poolsCacheTime := poolsCacheTime s;
     stablecoinChainsCache := Some c; stablecoinCacheTime := t;
     fngCache := fngCache s; fngCacheTime := fngCacheTime s;
     networkDataCache := networkDataCache s; NETWORKS := NETWORKS s;
     requests := requests s; ticks := ticks s; next_oid := next_oid s |}.

Definition set_fngCache (c : fng_result) (t : Z) (s : State) : State :=
  {| poolsCache := poolsCache s; poolsCacheTime := poolsCacheTime s;
     stablecoinChainsCache := stablecoinChainsCache s;
     stablecoinCacheTime := stablecoinCacheTime s;
     fngCache := Some c; fngCacheTime := t;
     networkDataCache := networkDataCache s; NETWORKS := NETWORKS s;
     requests := requests s; ticks := ticks s; next_oid := next_oid s |}.

Definition set_networkDataCache (c : gmap string snapshot) (s : State) : State :=
  {| poolsCache := poolsCache s; poolsCacheTime := poolsCacheTime s;
     stablecoinChainsCache := stablecoinChainsCache s;
     stablecoinCacheTime := stablecoinCacheTime s;
     fngCache := fngCache s; fngCacheTime := fngCacheTime s;
     networkDataCache := c; NETWORKS := NETWORKS s;
     requests := requests s; ticks := ticks s; next_oid := next_oid s |}.

Definition set_NETWORKS (n : list network) (s : State) : State :=
  {| poolsCache := poolsCache s; poolsCacheTime := poolsCacheTime s;
     stablecoinChainsCache := stablecoinChainsCache s;
     stablecoinCacheTime := stablecoinCacheTime s;
     fngCache := fngCache s; fngCacheTime := fngCacheTime s;
     networkDataCache := networkDataCache s; NETWORKS := n;
     requests := requests s; ticks := ticks s; next_oid := next_oid s |}.

Definition set_requests (r : list request) (s : State) : State :=
  {| poolsCache := poolsCache s; poolsCacheTime := poolsCacheTime s;
     stablecoinChainsCache := stablecoinChainsCache s;
     stablecoinCacheTime := stablecoinCacheTime s;
     fngCache := fngCache s; fngCacheTime := fngCacheTime s;
     networkDataCache := networkDataCache s; NETWORKS := NETWORKS s;
     requests := r; ticks := ticks s; next_oid := next_oid s |}.

Definition set_ticks (n : nat) (s : State) : State :=
  {| poolsCache := poolsCache s; poolsCacheTime := poolsCacheTime s;
     stablecoinChainsCache := stablecoinChainsCache s;
     stablecoinCacheTime := stablecoinCacheTime s;
     fngCache := fngCache s; fngCacheTime := fngCacheTime s;
     networkDataCache := networkDataCache s; NETWORKS := NETWORKS s;
     requests := requests s; ticks := n; next_oid := next_oid s |}.

Definition set_next_oid (n : nat) (s : State) : State :=
  {| poolsCache := poolsCache s; poolsCacheTime := poolsCacheTime s;
     stablecoinChainsCache := stablecoinChainsCache s;
     stablecoinCacheTime := stablecoinCacheTime s;
     fngCache := fngCache s; fngCacheTime := fngCacheTime s;
     networkDataCache := networkDataCache s; NETWORKS := NETWORKS s;
     requests := requests s; ticks := ticks s; next_oid := n |}.

(** A stable sort in the order of a comparator: [le a b] says that the
    comparator of [Array.prototype.sort] does not put [b] before [a]. *)
Section Sort.
Context {A : Type} (le : A -> A -> bool).

Fixpoint insert_sorted (x : A) (l : list A) : list A :=
  match l with
  | [] => [x]
  | y :: l' => if le x y then x :: l else y :: insert_sorted x l'
  end.

Fixpoint js_sort (l : list A) : list A :=
  match l with
  | [] => []
  | x :: l' => insert_sorted x (js_sort l')
  end.
End Sort.

Definition incr (k : string) (o : obj nat) : obj nat :=
  obj_set k (default 0%nat (obj_get k o) + 1)%nat o.

Definition orN (a : option nat) (d : nat) : nat :=
  match a with
  | Some (S n) => S n
  | _ => d
  end.

(** ** [services/defillama.js] *)

Definition tvlMap_add (tvlMap : obj tvl_entry) (chain : chain_json) : obj tvl_entry :=
  match c_name chain, c_tvl chain with
  | Some n, Some t =>
      if truthyS n then
        obj_set n {| tvl := orQ (Some t) 0;
                     tokenSymbol := c_tokenSymbol chain;
                     te_geckoId := c_gecko_id chain;
                     te_chainId := c_chainId chain |} tvlMap
      else tvlMap
  | _, _ => tvlMap
  end.

Definition tvlMap_of (data : list chain_json) : obj tvl_entry :=
  fold_left tvlMap_add data [].

(** The key of [CHAIN_NAME_MAP] whose [defillamaName] is [chain]. *)
Definition networkOfChain (chain : string) : option string :=
  js_find
    (fun key =>
       match obj_get key CHAIN_NAME_MAP with
       | Some c => String.eqb (defillamaName c) chain
       | None => false
       end)
    (obj_keys CHAIN_NAME_MAP).

Definition count_chain (protocol : protocol_json) (acc : protocol_counts)
    (chain : string) : protocol_counts :=
  match js_find (fun c => String.eqb (defillamaName c) chain)
          (obj_values CHAIN_NAME_MAP) with
  | Some _ =>
      match networkOfChain chain with
      | Some networkName =>
          if truthyS networkName then
            {| counts := incr networkName (counts acc);
               categories :=
                 match p_category protocol with
                 | Some category =>
                     if truthyS category then
                       obj_set networkName
                         (incr category
                            (default [] (obj_get networkName (categories acc))))
                         (categories acc)
                     else categories acc
                 | None => categories acc
                 end |}
          else acc
      | None => acc
      end
  | None =>
      {| counts := incr chain (counts acc); categories := categories acc |}
  end.

Definition count_protocol (acc : protocol_counts) (protocol : protocol_json)
    : protocol_counts :=
  match p_chains protocol with
  | Some chains => fold_left (count_chain protocol) chains acc
  | None => acc
  end.

Definition no_counts : protocol_counts := {| counts := []; categories := [] |}.

Definition protocol_out_of (protocol : protocol_json) : protocol_out :=
  {| po_name := p_name protocol;
     po_tvl := orQ (p_tvl protocol) 0;
     po_category := orS (p_category protocol) "Other" |}.

Definition by_tvl_desc (a b : protocol_out) : bool :=
  Qle_bool (orQ (Some (po_tvl b)) 0) (orQ (Some (po_tvl a)) 0).

Definition chainProtocols_of (defillamaChainName : string)
    (allProtocols : list protocol_json) : list protocol_out :=
  slice0 20
    (js_sort by_tvl_desc
       (map protocol_out_of
          (List.filter
             (fun protocol =>
                match p_chains protocol with
                | Some chains =>
                    existsb (String.eqb defillamaChainName) chains
                | None => false
                end)
             allProtocols))).

(** The case-insensitive search of a key: [Object.keys(o).find(...)]. *)
Definition find_key_ci {V} (names : list string) (o : obj V) : option string :=
  js_find
    (fun key =>
       existsb (fun n => String.eqb (toLowerCase key) (toLowerCase n)) names)
    (obj_keys o).

(** The name under which [fetchChainProtocols] filters the protocols, from
    the map built by [fetchChainTVL]. *)
Definition resolveChainName (chainName : string) (chainData : obj tvl_entry)
    : string :=
  match obj_get chainName chainData with
  | Some _ => chainName
  | None =>
      match find_key_ci [chainName] chainData with
      | Some key => key
      | None => chainName
      end
  end.

Definition dex_volume_of (data : dexs_json) : dex_volume :=
  {| volume24h := orQ (totalVolume data) 0;
     volume7d := orQ (totalVolume7d data) 0;
     change_1d := orQ (dexs_change_1d data) 0;
     change_7d := orQ (dexs_change_7d data) 0;
     protocolCount := orN (option_map (@List.length _) (dexs_protocols data)) 0;
     dv_protocols := default [] (dexs_protocols data) |}.

Definition chain_fees_of (data : fees_json) : chain_fees :=
  {| fees24h := orQ (totalFees24h data) 0;
     fees7d := orQ (totalFees7d data) 0;
     revenue24h := orQ (totalRevenue24h data) 0;
     revenue7d := orQ (totalRevenue7d data) 0;
     cf_change_1d := orQ (fees_change_1d data) 0;
     cf_change_7d := orQ (fees_change_7d data) 0 |}.

Definition bridge_volume_of (data : bridges_json) : bridge_volume :=
  let bs := default [] (bridges data) in
  {| bv_volume24h := fold_left (fun t b => t + orQ (b_volume24h b) 0)%Q bs 0%Q;
     bv_volume7d := fold_left (fun t b => t + orQ (b_volume7d b) 0)%Q bs 0%Q;
     bv_volume30d := fold_left (fun t b => t + orQ (b_volume30d b) 0)%Q bs 0%Q;
     bridgeCount := orN (option_map (@List.length _) (bridges data)) 0 |}.

(** [a && b ? ((b.tvl - a.tvl) / a.tvl) * 100 : 0], with [a] the earlier
    point and [b] the latest one. *)
Definition percent_change (earlier latest : option hist_point) : jsnum :=
  match earlier, latest with
  | Some a, Some b =>
      js_mul
        (js_div (js_sub (num_of (h_tvl b)) (num_of (h_tvl a))) (num_of (h_tvl a)))
        (Fin 100)
  | _, _ => Fin 0
  end.

(** The body of [fetchChainHistoricalTVL] after the response is parsed:
    [None] is [return null], [Thrown] the [TypeError] of reading [latest.tvl]
    on a [null] element. *)
Definition historical_of (data : list (option hist_point))
    : outcome (option historical_tvl) :=
  let n := List.length data in
  if Nat.ltb 0 n then
    let latest := default None (nth_error data (n - 1)) in
    let dayAgo :=
      if Nat.ltb 1 n then default None (nth_error data (n - 2)) else latest in
    let weekAgo :=
      if Nat.ltb 7 n then default None (nth_error data (n - 8)) else latest in
    let change1d := percent_change dayAgo latest in
    let change7d := percent_change weekAgo latest in
    match latest with
    | Some l =>
        Returned (Some {| currentTVL := orQ (h_tvl l) 0;
                          change1d := change1d;
                          change7d := change7d;
                          dataPoints := n |})
    | None => Thrown
    end
  else Returned None.

Definition lift {A} (o : outcome A) : M A := fun s => (o, s).

(** An element of [fetchAllChains]. *)
Record chain_out := {
  co_name : option string;
  co_tvl : Q;
  co_tokenSymbol : option string;
  co_geckoId : option string;
  co_chainId : option Z
}.

Definition significant (chain : chain_json) : bool :=
  match c_tvl chain with
  | Some t => (truthyQ t && negb (Qle_bool t 1000000))%bool
  | None => false
  end.

Definition chains_by_tvl_desc (a b : chain_json) : bool :=
  Qle_bool (orQ (c_tvl b) 0) (orQ (c_tvl a) 0).

Definition significantChains (data : list chain_json) : list chain_json :=
  slice0 20 (js_sort chains_by_tvl_desc (List.filter significant data)).

(** The callback of the final [map] of [fetchAllChains]: building the logo
    list reads [chain.name.toLowerCase()] when [gecko_id] is set, which
    throws on a chain without a name. *)
Definition chain_out_of (chain : chain_json) : outcome chain_out :=
  let out := {| co_name := c_name chain;
                co_tvl := orQ (c_tvl chain) 0;
                co_tokenSymbol := c_tokenSymbol chain;
                co_geckoId := c_gecko_id chain;
                co_chainId := c_chainId chain |} in
  match orNullS (c_gecko_id chain), c_name chain with
  | Some _, None => Thrown
  | _, _ => Returned out
  end.

Fixpoint map_outcome {A B} (f : A -> outcome B) (l : list A) : outcome (list B) :=
  match l with
  | [] => Returned []
  | x :: l' =>
      match f x with
      | Returned y =>
          match map_outcome f l' with
          | Returned ys => Returned (y :: ys)
          | Thrown => Thrown
          end
      | Thrown => Thrown
      end
  end.

(** The lookup of the chain's entry in [fetchNetworkDetails]: under the
    network name or the mapped name, then under an alternative name, then
    without regard to case.  The second component is the final value of
    [defillamaChainName]. *)
Fixpoint find_alt (tvlData : obj tvl_entry) (alts : list string)
    : option (string * tvl_entry) :=
  match alts with
  | [] => None
  | altName :: rest =>
      match obj_get altName tvlData with
      | Some d => Some (altName, d)
      | None => find_alt tvlData rest
      end
  end.

Definition locate_chain (networkName : string) (tvlData : obj tvl_entry)
    : option tvl_entry * string :=
  let chainInfo := obj_get networkName CHAIN_NAME_MAP in
  let defillamaChainName := defillamaChainNameOf networkName in
  let chainData :=
    match obj_get networkName tvlData with
    | Some d => Some d
    | None => obj_get defillamaChainName tvlData
    end in
  let '(chainData, defillamaChainName) :=
    match chainData, chainInfo with
    | None, Some info =>
        match find_alt tvlData (altNames info) with
        | Some (altName, d) => (Some d, altName)
        | None => (None, defillamaChainName)
        end
    | _, _ => (chainData, defillamaChainName)
    end in
  match chainData with
  | Some d => (Some d, defillamaChainName)
  | None =>
      match find_key_ci [networkName; defillamaChainName] tvlData with
      | Some key => (obj_get key tvlData, key)
      | None => (None, defillamaChainName)
      end
  end.

Definition categories_of (topProtocols : list protocol_out) : obj nat :=
  fold_left
    (fun cats protocol => incr (orS (Some (po_category protocol)) "Other") cats)
    topProtocols [].

Definition protocolsByCategory_of (topProtocols : list protocol_out)
    : obj (list protocol_out) :=
  fold_left
    (fun groups protocol =>
       let category := orS (Some (po_category protocol)) "Other" in
       obj_set category (default [] (obj_get category groups) ++ [protocol]) groups)
    topProtocols [].

(** The loop that fills [protocolsByCategory] throws on a protocol whose
    category is the name of an inherited property: [protocolsByCategory[category]]
    is then a function, so no array is created for the category, and
    [push] is not a method of a function.  [protocolsByCategory_of] is the
    object that the loop builds when it does not throw. *)
Definition push_throws (topProtocols : list protocol_out) : bool :=
  existsb (fun protocol => inherited (orS (Some (po_category protocol)) "Other"))
    topProtocols.

Definition details_of (networkName : string) (tvlData : obj tvl_entry)
    (protocolData : protocol_counts) (topProtocols : list protocol_out)
    (dexData : option dex_volume) (feesData : option chain_fees)
    (bridgeData : option bridge_volume) (historical : option historical_tvl)
    : details_full :=
  let '(chainData, defillamaChainName) := locate_chain networkName tvlData in
  let protocolCounts := counts protocolData in
  {| d_tvl := orQ (option_map tvl chainData) 0;
     d_dappCount :=
       orN (obj_get networkName protocolCounts)
         (orN (obj_get defillamaChainName protocolCounts)
            (orN (Some (List.length topProtocols)) 0));
     d_categories := categories_of topProtocols;
     d_topProtocols := topProtocols;
     d_protocolsByCategory := protocolsByCategory_of topProtocols;
     d_dexVolume24h := orQ (option_map volume24h dexData) 0;
     d_dexVolume7d := orQ (option_map volume7d dexData) 0;
     d_dexChange1d := orQ (option_map change_1d dexData) 0;
     d_dexChange7d := orQ (option_map change_7d dexData) 0;
     d_fees24h := orQ (option_map fees24h feesData) 0;
     d_fees7d := orQ (option_map fees7d feesData) 0;
     d_revenue24h := orQ (option_map revenue24h feesData) 0;
     d_revenue7d := orQ (option_map revenue7d feesData) 0;
     d_bridgeVolume24h := orQ (option_map bv_volume24h bridgeData) 0;
     d_bridgeVolume7d := orQ (option_map bv_volume7d bridgeData) 0;
     d_bridgeCount := orN (option_map bridgeCount bridgeData) 0;
     d_tvlChange1d :=
       match historical with Some h => or0 (change1d h) | None => Fin 0 end;
     d_tvlChange7d :=
       match historical with Some h => or0 (change7d h) | None => Fin 0 end;
     d_geckoId :=
       orNullS (option_map geckoId (obj_get networkName CHAIN_NAME_MAP)) |}.

(** *** [calculateMarketShare] *)

(** An element of the [networks] argument: a name or a network object. *)
Inductive net_arg := NetName (s : string) | NetObj (n : network).

Definition networkNameOf (n : net_arg) : string :=
  match n with NetName s => s | NetObj o => name o end.

Record share := {
  percentage : Q;
  share_tvl : Q;
  totalTVL : Q
}.

(** [tvlData[CHAIN_NAME_MAP[name]?.defillamaName || name]?.tvl || 0]. *)
Definition resolvedTvl (tvlData : obj tvl_entry) (n : net_arg) : Q :=
  orQ (option_map tvl (obj_get (defillamaChainNameOf (networkNameOf n)) tvlData)) 0.

Definition share_of (tvlData : obj tvl_entry) (total : Q) (n : net_arg) : share :=
  let t := resolvedTvl tvlData n in
  {| percentage := if Qlt_le_dec 0 total then (t / total) * 100 else 0;
     share_tvl := t;
     totalTVL := total |}%Q.

Definition calculateMarketShare (tvlData : obj tvl_entry)
    (networks : option (list net_arg)) : obj share :=
  let networksToProcess :=
    match networks with
    | Some l => l
    | None => map NetName (obj_keys CHAIN_NAME_MAP)
    end in
  let total :=
    fold_left (fun sum n => sum + resolvedTvl tvlData n)%Q networksToProcess 0%Q in
  fold_left
    (fun marketShare n => obj_set (networkNameOf n) (share_of tvlData total n) marketShare)
    networksToProcess [].

(** ** [services/coingecko.js], [services/dexscreener.js] *)

Definition rev_string (s : string) : string :=
  string_of_list_ascii (rev (list_ascii_of_string s)).

Definition js_trim (s : string) : string :=
  rev_string (skip_ws (rev_string (skip_ws s))).

(** [!coinId || coinId.trim() === ''] on an identifier that is a string. *)
Definition validCoinId (coinId : option string) : option string :=
  match coinId with
  | Some id => if truthyS (js_trim id) then Some id else None
  | None => None
  end.

(** The head of [fetchNetworkCoinData], before its [try]: the identifier
    that the function looks up, [None] when it returns [null] without a
    request.  Without a [geckoId] the identifier is
    [getCoinGeckoId(networkName)], which for a name that [COINGECKO_IDS]
    inherits is a function: it passes [!coinId], and the call of
    [coinId.trim], which is [undefined], throws a [TypeError]. *)
Definition coinIdOf (networkName : string) (geckoId : option string)
    : outcome (option string) :=
  match orNullS geckoId with
  | Some id => Returned (validCoinId (Some id))
  | None =>
      match js_get networkName COINGECKO_IDS with
      | Own id => Returned (validCoinId (orNullS (Some id)))
      | Inherited => Thrown
      | Undefined => Returned None
      end
  end.

(** The loop over the pairs in [fetchChainTotalLiquidity] and in the search
    fallback: [if (pair.liquidity?.usd) total += parseFloat(usd) || 0]. *)
Definition add_liquidity (total : Q) (pair : pair_json) : Q :=
  match liquidity pair with
  | Some l =>
      match usd l with
      | Some u => if truthyQ u then (total + orQ (Some u) 0)%Q else total
      | None => total
      end
  | None => total
  end.

Definition sum_liquidity (ps : list pair_json) : Q := fold_left add_liquidity ps 0%Q.

Definition positive (q : Q) : bool := negb (Qle_bool q 0).

(** The search fallback of the liquidity lookup, after the response. *)
Definition search_liquidity (searchResult : option pairs_json)
    : option liquidity_total :=
  match searchResult with
  | Some r =>
      match pairs r with
      | Some ps =>
          if Nat.ltb 0 (List.length ps) then
            let total := sum_liquidity (slice0 10 ps) in
            if positive total then
              Some {| totalLiquidity := total; pairCount := List.length ps |}
            else None
          else None
      | None => None
      end
  | None => None
  end.

(** ** [services/stablecoins.js], [services/yields.js], [services/feargreed.js] *)

Definition STABLECOIN_CACHE_TTL : Z := 5 * 60 * 1000.
Definition POOLS_CACHE_TTL : Z := 5 * 60 * 1000.
Definition FNG_CACHE_TTL : Z := 10 * 60 * 1000.
Definition CACHE_MAX_AGE : Z := 5 * 60 * 1000.

Definition chainMap_add (chainMap : obj sc_entry) (chain : sc_chain_json)
    : obj sc_entry :=
  match sc_name chain with
  | Some n =>
      if truthyS n then
        obj_set n
          {| totalCirculatingUSD :=
               orQ (match sc_totalCirculatingUSD chain with
                    | Some c => peggedUSD c
                    | None => None
                    end) 0;
             totalCirculating := sc_totalCirculatingUSD chain |}
          chainMap
      else chainMap
  | None => chainMap
  end.

Definition chainMap_of (data : list sc_chain_json) : obj sc_entry :=
  fold_left chainMap_add data [].

(** The entry that [fetchChainStablecoinTVL] reads: a direct match, then a
    match without regard to case. *)
Definition stablecoin_entry (chainName : string) (chains : obj sc_entry)
    : option sc_entry :=
  match obj_get chainName chains with
  | Some d => Some d
  | None =>
      match find_key_ci [chainName] chains with
      | Some key => obj_get key chains
      | None => None
      end
  end.

Definition gtQ (x : option Q) (c : Q) : bool :=
  match x with Some q => negb (Qle_bool q c) | None => false end.

Definition ltQ (x : option Q) (c : Q) : bool :=
  match x with Some q => negb (Qle_bool c q) | None => false end.

Definition on_chain (chainName : string) (pool : pool_json) : bool :=
  match pl_chain pool with
  | Some c => (truthyS c && String.eqb (toLowerCase c) (toLowerCase chainName))%bool
  | None => false
  end.

Definition realistic_apy (pool : pool_json) : bool :=
  (gtQ (pl_apy pool) 0 && ltQ (pl_apy pool) 1000)%bool.

Definition orB (x : option bool) (d : bool) : bool :=
  match x with Some true => true | _ => d end.

Definition topYields_of (chainName : string) (limit : nat)
    (pools : list pool_json) : list top_yield :=
  map
    (fun pool =>
       {| ty_pool := pl_pool pool; ty_project := pl_project pool;
          ty_symbol := pl_symbol pool; ty_chain := pl_chain pool;
          ty_apy := pl_apy pool;
          ty_apyBase := orQ (pl_apyBase pool) 0;
          ty_apyReward := orQ (pl_apyReward pool) 0;
          ty_tvlUsd := pl_tvlUsd pool;
          ty_stablecoin := orB (pl_stablecoin pool) false |})
    (slice0 limit
       (js_sort
          (fun a b => Qle_bool (default 0%Q (pl_tvlUsd b)) (default 0%Q (pl_tvlUsd a)))
          (List.filter
             (fun pool =>
                (on_chain chainName pool && gtQ (pl_tvlUsd pool) 1000000
                 && realistic_apy pool)%bool)
             pools))).

Definition sumQ (l : list Q) : Q := fold_left Qplus l 0%Q.

Definition yieldStats_of (chainName : string) (pools : list pool_json)
    : option yield_stats :=
  let chainPools :=
    List.filter (fun pool => (on_chain chainName pool && gtQ (pl_tvlUsd pool) 0)%bool)
      pools in
  if Nat.eqb (List.length chainPools) 0 then None
  else
    let totalTvl := sumQ (map (fun p => orQ (pl_tvlUsd p) 0) chainPools) in
    let rated := List.filter realistic_apy chainPools in
    let apys := map (fun p => default 0%Q (pl_apy p)) rated in
    let weightedSum :=
      sumQ (map (fun p => default 0 (pl_apy p) * orQ (pl_tvlUsd p) 0)%Q rated) in
    Some {| poolCount := List.length chainPools;
            totalYieldTvl := totalTvl;
            avgApy :=
              if Nat.ltb 0 (List.length apys)
              then (sumQ apys / inject_Z (Z.of_nat (List.length apys)))%Q else 0%Q;
            weightedAvgApy :=
              if positive totalTvl then (weightedSum / totalTvl)%Q else 0%Q;
            medianApy :=
              if Nat.ltb 0 (List.length apys)
              then nth (List.length apys / 2) (js_sort Qle_bool apys) 0%Q
              else 0%Q |}.

(** The result of [fetchFearGreedIndex] from a parsed response, [None] when
    the function returns [null]. *)
Definition fng_of (data : fng_json) : option fng_result :=
  match fng_data data with
  | Some ((current :: _) as entries) =>
      let previous :=
        if Nat.ltb 1 (List.length entries) then nth_error entries 1 else None in
      let weekAgo :=
        if Nat.leb 7 (List.length entries) then nth_error entries 6 else None in
      let value := parseInt (fg_value current) in
      Some {| fr_value := value;
              fr_classification := fg_value_classification current;
              fr_timestamp := fg_timestamp current;
              fr_previousValue := option_map (fun p => parseInt (fg_value p)) previous;
              fr_previousClassification :=
                match previous with
                | Some p => fg_value_classification p
                | None => None
                end;
              fr_weekAgoValue := option_map (fun w => parseInt (fg_value w)) weekAgo;
              fr_change24h :=
                option_map (fun p => js_sub value (parseInt (fg_value p))) previous;
              fr_change7d :=
                option_map (fun w => js_sub value (parseInt (fg_value w))) weekAgo |}
  | _ => None
  end.

(** [value <= c] on a number that may be [NaN]: every comparison with [NaN]
    is false. *)
Definition js_le (x : jsnum) (c : Q) : bool :=
  match x with
  | Fin q => Qle_bool q c
  | NInf => true
  | NaN | PInf => false
  end.

(** [getFearGreedColor]. *)
Definition getFearGreedColor (value : jsnum) : string :=
  if js_le value 25 then "#ea3943"
  else if js_le value 45 then "#ea8c00"
  else if js_le value 55 then "#f5d100"
  else if js_le value 75 then "#16c784"
  else "#16c784".

(** A module-level cache is served while it holds a payload younger than
    its time to live: [cache && (now - cacheTime) < CACHE_TTL]. *)
Definition fresh {A} (cache : option A) (cacheTime ttl now : Z) : bool :=
  match cache with
  | Some _ => Z.ltb (now - cacheTime) ttl
  | None => false
  end.

Definition served {A} (cache : option A) (cacheTime ttl now : Z) : option A :=
  if fresh cache cacheTime ttl now then cache else None.

(** ** [Hero.js]: the roster *)

(** [BASE_NETWORKS]; a base network has no [rawTvl] and no [marketShare]
    before [loadAnalytics] fills them in. *)
Definition BASE_NETWORKS : list network :=
  [
    {| name := "Ethereum"; symbol := "ETH"; est := "2015"; color := Hex "#00f2ff";
       pos := Vec3 (1 # 1) (1 # 1) (1 # 1); net_geckoId := None; rawTvl := None;
       marketShare := None |};
    {| name := "Solana"; symbol := "SOL"; est := "2020"; color := Hex "#9945FF";
       pos := Vec3 (-1 # 1) (1 # 2) (1 # 2); net_geckoId := None; rawTvl := None;
       marketShare := None |};
    {| name := "Bitcoin"; symbol := "BTC"; est := "2009"; color := Hex "#F7931A";
       pos := Vec3 (0 # 1) (-1 # 1) (1 # 1); net_geckoId := None; rawTvl := None;
       marketShare := None |};
    {| name := "BSC"; symbol := "BNB"; est := "2020"; color := Hex "#F3BA2F";
       pos := Vec3 (1 # 1) (-1 # 2) (-1 # 1); net_geckoId := None; rawTvl := None;
       marketShare := None |};
    {| name := "Avalanche"; symbol := "AVAX"; est := "2020"; color := Hex "#E84142";
       pos := Vec3 (-1 # 1) (-1 # 1) (-1 # 1); net_geckoId := None; rawTvl := None;
       marketShare := None |};
    {| name := "Polygon"; symbol := "POL"; est := "2020"; color := Hex "#8247E5";
       pos := Vec3 (4 # 5) (3 # 10) (-1 # 1); net_geckoId := Some "matic-network"; rawTvl := None;
       marketShare := None |};
    {| name := "Arbitrum"; symbol := "ARB"; est := "2021"; color := Hex "#28A0F0";
       pos := Vec3 (-1 # 2) (1 # 1) (-4 # 5); net_geckoId := Some "arbitrum"; rawTvl := None;
       marketShare := None |};
    {| name := "Optimism"; symbol := "OP"; est := "2021"; color := Hex "#FF0420";
       pos := Vec3 (3 # 10) (-7 # 10) (1 # 1); net_geckoId := Some "optimism"; rawTvl := None;
       marketShare := None |};
    {| name := "Base"; symbol := "ETH"; est := "2023"; color := Hex "#0052FF";
       pos := Vec3 (-9 # 10) (-3 # 10) (7 # 10); net_geckoId := Some "ethereum"; rawTvl := None;
       marketShare := None |};
    {| name := "Sui"; symbol := "SUI"; est := "2023"; color := Hex "#4DA2FF";
       pos := Vec3 (1 # 1) (7 # 10) (3 # 10); net_geckoId := Some "sui"; rawTvl := None;
       marketShare := None |};
    {| name := "Cardano"; symbol := "ADA"; est := "2017"; color := Hex "#0033AD";
       pos := Vec3 (-3 # 5) (4 # 5) (-1 # 2); net_geckoId := Some "cardano"; rawTvl := None;
       marketShare := None |};
    {| name := "Tron"; symbol := "TRX"; est := "2017"; color := Hex "#FF060A";
       pos := Vec3 (1 # 2) (-1 # 1) (-1 # 2); net_geckoId := Some "tron"; rawTvl := None;
       marketShare := None |};
    {| name := "TON"; symbol := "TON"; est := "2018"; color := Hex "#0098EA";
       pos := Vec3 (-3 # 10) (-1 # 2) (-1 # 1); net_geckoId := Some "the-open-network"; rawTvl := None;
       marketShare := None |};
    {| name := "Polkadot"; symbol := "DOT"; est := "2020"; color := Hex "#E6007A";
       pos := Vec3 (7 # 10) (1 # 2) (-7 # 10); net_geckoId := Some "polkadot"; rawTvl := None;
       marketShare := None |};
    {| name := "Near"; symbol := "NEAR"; est := "2020"; color := Hex "#00C1DE";
       pos := Vec3 (-1 # 1) (1 # 5) (-3 # 10); net_geckoId := Some "near"; rawTvl := None;
       marketShare := None |};
    {| name := "Fantom"; symbol := "FTM"; est := "2019"; color := Hex "#1969FF";
       pos := Vec3 (2 # 5) (9 # 10) (3 # 5); net_geckoId := Some "fantom"; rawTvl := None;
       marketShare := None |};
    {| name := "Cosmos"; symbol := "ATOM"; est := "2019"; color := Hex "#6F7390";
       pos := Vec3 (-4 # 5) (-4 # 5) (3 # 10); net_geckoId := Some "cosmos"; rawTvl := None;
       marketShare := None |};
    {| name := "Aptos"; symbol := "APT"; est := "2022"; color := Hex "#2DD8A3";
       pos := Vec3 (3 # 5) (-2 # 5) (4 # 5); net_geckoId := Some "aptos"; rawTvl := None;
       marketShare := None |};
    {| name := "Cronos"; symbol := "CRO"; est := "2021"; color := Hex "#002D74";
       pos := Vec3 (1 # 5) (3 # 5) (-1 # 1); net_geckoId := Some "crypto-com-chain"; rawTvl := None;
       marketShare := None |};
    {| name := "Sei"; symbol := "SEI"; est := "2023"; color := Hex "#9B1B30";
       pos := Vec3 (-2 # 5) (2 # 5) (1 # 1); net_geckoId := Some "sei-network"; rawTvl := None;
       marketShare := None |}
  ].

(** [ToInt32] and [acc << 5]. *)
Definition ToInt32 (z : Z) : Z := ((z + 2 ^ 31) mod 2 ^ 32 - 2 ^ 31)%Z.

Definition shl5 (acc : Z) : Z := ToInt32 (Z.shiftl (ToInt32 acc) 5).

(** The hash of a chain name and the hue of its colour:
    [char.charCodeAt(0) + ((acc << 5) - acc)], [Math.abs(hash % 360)]. *)
Definition nameHash (s : string) : Z :=
  fold_left
    (fun acc char => (Z.of_nat (nat_of_ascii char) + (shl5 acc - acc))%Z)
    (list_ascii_of_string s) 0%Z.

Definition nameHue (s : string) : Z := Z.abs (Z.rem (nameHash s) 360).

Definition upper_ascii (c : ascii) : ascii :=
  let n := nat_of_ascii c in
  if (Nat.leb 97 n && Nat.leb n 122)%bool then ascii_of_nat (n - 32) else c.

Fixpoint toUpperCase (s : string) : string :=
  match s with
  | EmptyString => EmptyString
  | String c s' => String (upper_ascii c) (toUpperCase s')
  end.

(** An entry of [fetchAllNetworkAnalytics]. *)
Record analytics_entry := {
  a_tvl : Q;
  a_dappCount : nat;
  a_marketShare : Q;
  a_geckoId : string
}.

Definition analytics_add (tvlData : obj tvl_entry) (protocolCounts : obj nat)
    (marketShare : obj share) (analytics : obj analytics_entry)
    (entry : string * chain_info) : obj analytics_entry :=
  let '(networkName, chainInfo) := entry in
  let defillamaChainName := defillamaName chainInfo in
  let chainData :=
    match obj_get networkName tvlData with
    | Some d => Some d
    | None =>
        match obj_get defillamaChainName tvlData with
        | Some d => Some d
        | None => option_map snd (find_alt tvlData (altNames chainInfo))
        end
    end in
  obj_set networkName
    {| a_tvl := orQ (option_map tvl chainData) 0;
       a_dappCount :=
         orN (obj_get networkName protocolCounts)
           (orN (obj_get defillamaChainName protocolCounts) 0);
       a_marketShare :=
         match obj_get networkName marketShare with
         | Some sh => percentage sh
         | None => 0%Q
         end;
       a_geckoId := geckoId chainInfo |}
    analytics.

Definition analytics_of (tvlData : obj tvl_entry) (protocolData : protocol_counts)
    : obj analytics_entry :=
  fold_left
    (analytics_add tvlData (counts protocolData) (calculateMarketShare tvlData None))
    CHAIN_NAME_MAP [].

(** The callback of [BASE_NETWORKS.map] in [loadAnalytics]: every property
    of the network is kept, [color] and [pos] as clones. *)
Definition updateBase (analytics : obj analytics_entry) (tvlData : obj tvl_entry)
    (net : network) : network :=
  let analyticsData := obj_get (name net) analytics in
  let chainInfo := obj_get (name net) CHAIN_NAME_MAP in
  let defillamaName := defillamaChainNameOf (name net) in
  let chainTvlData :=
    match obj_get (name net) tvlData with
    | Some d => Some d
    | None => obj_get defillamaName tvlData
    end in
  {| name := name net;
     symbol := symbol net;
     est := est net;
     color := color net;
     pos := pos net;
     net_geckoId :=
       match orNullS (option_map geckoId chainInfo) with
       | Some g => Some g
       | None =>
           match orNullS (option_map a_geckoId analyticsData) with
           | Some g => Some g
           | None => net_geckoId net
           end
       end;
     rawTvl :=
       Some (orQ (option_map tvl chainTvlData) (orQ (option_map a_tvl analyticsData) 0));
     marketShare := Some (orQ (option_map a_marketShare analyticsData) 0) |}.

Definition MIN_DISCOVERY_TVL : Q := 100000000.

(** One round of [allChains.forEach]: a chain that is not a base network and
    holds more than the threshold is appended; [chain.name.split('')] throws
    on a chain without a name. *)
Definition discover_step (base : list network) (acc : outcome (list network))
    (chain : chain_out) : outcome (list network) :=
  match acc with
  | Thrown => Thrown
  | Returned additionalNetworks =>
      let in_base :=
        match co_name chain with
        | Some n => existsb (String.eqb n) (map name base)
        | None => false
        end in
      if (negb in_base && negb (Qle_bool (co_tvl chain) MIN_DISCOVERY_TVL))%bool then
        match co_name chain with
        | None => Thrown
        | Some n =>
            Returned
              (additionalNetworks ++
               [{| name := n;
                   symbol := orS (co_tokenSymbol chain) (toUpperCase (substring 0 3 n));
                   est := "N/A";
                   color := HSL (nameHue n);
                   pos := FibPos (List.length base + List.length additionalNetworks) 20;
                   net_geckoId := co_geckoId chain;
                   rawTvl := Some (co_tvl chain);
                   marketShare := Some 0%Q |}])
        end
      else Returned additionalNetworks
  end.

Definition additionalNetworks_of (base : list network) (allChains : list chain_out)
    : outcome (list network) :=
  fold_left (discover_step base) allChains (Returned []).

Definition allChainTvl (tvlData : obj tvl_entry) : Q :=
  fold_left (fun sum chain => sum + orQ (Some (tvl chain)) 0)%Q (obj_values tvlData) 0%Q.

(** The final [allNetworks.forEach]: the share of all the value locked. *)
Definition with_share (total : Q) (net : network) : network :=
  let raw := orQ (rawTvl net) 0 in
  {| name := name net; symbol := symbol net; est := est net;
     color := color net; pos := pos net; net_geckoId := net_geckoId net;
     rawTvl := rawTvl net;
     marketShare :=
       Some (if (positive total && positive raw)%bool
             then (raw / total) * 100 else 0)%Q |}.

(** ** [App.js]: the snapshot of a network *)

(** What the effect of [StatsCard] shows: the cached snapshot, the one it
    has just stored, or nothing when the joined promise rejected. *)
Inductive served_by :=
| FromCache (s : snapshot)
| Refreshed (s : snapshot)
| LoadError.

Fixpoint forEachM {A} (f : A -> M unit) (l : list A) : M unit :=
  match l with
  | [] => ret tt
  | x :: l' => _ <- f x ;; forEachM f l'
  end.

(** The creation of an object literal. *)
Definition new_object : M nat :=
  fun s => (Returned (next_oid s), set_next_oid (S (next_oid s)) s).

(** [networkDataCache.set(key, snap)]. *)
Definition cache_set (key : string) (snap : snapshot) : M unit :=
  modify (fun s => set_networkDataCache (<[key := snap]> (networkDataCache s)) s).

(** ** The provider clients *)

Section Engine.

Variable W : World.

(** [Date.now()]. *)
Definition Date_now : M Z :=
  fun s => (Returned (now W (ticks s)), set_ticks (S (ticks s)) s).

(** [await fetch(url)] followed by [await response.json()]: the request is
    recorded and answered by the world. *)
Definition fetch {B} (r : request) (answer : nat -> response B) : M (response B) :=
  fun s =>
    (Returned (answer (List.length (requests s))), set_requests (r :: requests s) s).

(** The common shape of a client: a rejected [fetch] or [json()] throws,
    [not_ok] is what the client does when [response.ok] is false. *)
Definition fetch_json {A B} (r : request) (answer : nat -> response B)
    (not_ok : M A) (k : B -> M A) : M A :=
  resp <- fetch r answer ;;
  match resp with
  | NetworkError => throw
  | NotOk => not_ok
  | BadJson => throw
  | Json data => k data
  end.

(** *** DefiLlama *)

Definition fetchChainTVL : M (obj tvl_entry) :=
  try_catch
    (fetch_json GET_chains (http_chains W) throw
       (fun data => ret (tvlMap_of data)))
    (ret []).

Definition fetchProtocols : M protocol_counts :=
  try_catch
    (fetch_json GET_protocols (http_protocols W) throw
       (fun protocols => ret (fold_left count_protocol protocols no_counts)))
    (ret no_counts).

Definition fetchChainDEXVolume (chainName : string) : M (option dex_volume) :=
  try_catch
    (let defillamaChainName := defillamaChainNameOf chainName in
     fetch_json (GET_dexs defillamaChainName) (http_dexs W defillamaChainName)
       (ret None)
       (fun data => ret (Some (dex_volume_of data))))
    (ret None).

Definition fetchChainFees (chainName : string) : M (option chain_fees) :=
  try_catch
    (let defillamaChainName := defillamaChainNameOf chainName in
     fetch_json (GET_fees defillamaChainName) (http_fees W defillamaChainName)
       (ret None)
       (fun data => ret (Some (chain_fees_of data))))
    (ret None).

Definition fetchChainBridgeVolume (chainName : string) : M (option bridge_volume) :=
  try_catch
    (let defillamaChainName := defillamaChainNameOf chainName in
     fetch_json (GET_bridges defillamaChainName) (http_bridges W defillamaChainName)
       (ret None)
       (fun data => ret (Some (bridge_volume_of data))))
    (ret None).

Definition fetchChainHistoricalTVL (chainName : string)
    : M (option historical_tvl) :=
  try_catch
    (let defillamaChainName := defillamaChainNameOf chainName in
     fetch_json (GET_historicalChainTvl defillamaChainName)
       (http_historicalChainTvl W defillamaChainName)
       (ret None)
       (fun data => lift (historical_of data)))
    (ret None).

Definition fetchAllChains : M (list chain_out) :=
  try_catch
    (fetch_json GET_chains (http_chains W) throw
       (fun data => lift (map_outcome chain_out_of (significantChains data))))
    (ret []).

Definition fetchChainProtocols (chainName : string) : M (list protocol_out) :=
  try_catch
    (defillamaChainName <-
       match obj_get chainName CHAIN_NAME_MAP with
       | Some _ => ret (defillamaChainNameOf chainName)
       | None =>
           chainData <- fetchChainTVL ;;
           ret (resolveChainName chainName chainData)
       end ;;
     fetch_json GET_protocols (http_protocols W)
       (ret [])
       (fun allProtocols => ret (chainProtocols_of defillamaChainName allProtocols)))
    (ret []).

Definition fetchNetworkDetails (networkName : string) : M details :=
  try_catch
    (tvlData <- fetchChainTVL ;;
     protocolData <- fetchProtocols ;;
     topProtocols <- fetchChainProtocols networkName ;;
     dexData <- catch_default (fetchChainDEXVolume networkName) None ;;
     feesData <- catch_default (fetchChainFees networkName) None ;;
     bridgeData <- catch_default (fetchChainBridgeVolume networkName) None ;;
     historical <- catch_default (fetchChainHistoricalTVL networkName) None ;;
     if push_throws topProtocols then throw
     else
       ret (Details (details_of networkName tvlData protocolData topProtocols
                       dexData feesData bridgeData historical)))
    (ret MinimalDetails).

(** *** CoinGecko *)

Definition fetchCoinData (coinId : string) : M (option coin_json) :=
  try_catch
    (fetch_json (GET_coin coinId) (http_coin W coinId) throw
       (fun data => ret (Some data)))
    (ret None).

Definition fetchHistoricalPrice (coinId : string) (days : Z) : M (option chart_json) :=
  try_catch
    (fetch_json (GET_market_chart coinId days) (http_market_chart W coinId days) throw
       (fun data => ret (Some data)))
    (ret None).

Definition fetchNetworkCoinData (networkName : string) (geckoId : option string)
    : M (option coin_json) :=
  coinId <- lift (coinIdOf networkName geckoId) ;;
  match coinId with
  | None => ret None
  | Some coinId => try_catch (fetchCoinData coinId) (ret None)
  end.

(** *** DexScreener *)

Definition searchTokens (query : string) : M (option pairs_json) :=
  try_catch
    (fetch_json (GET_search query) (http_search W query) throw
       (fun data => ret (Some data)))
    (ret None).

Definition fetchChainTotalLiquidity (chainId : string) : M (option liquidity_total) :=
  try_catch
    (fetch_json (GET_pairs chainId) (http_pairs W chainId)
       (ret None)
       (fun data =>
          match pairs data with
          | Some ps =>
              ret (Some {| totalLiquidity := sum_liquidity ps;
                           pairCount := List.length ps |})
          | None => ret None
          end))
    (ret None).

(** The liquidity lookup of [App.js]: [dexscreenerPromise] in [StatsCard],
    written out again as the fourth promise of [preFetchNetworkData]. *)
Definition dexscreenerPromise (net : network) : M (option liquidity_total) :=
  catch_default
    (let chainId := dexChainId (name net) in
     liquidityData <- catch_default (fetchChainTotalLiquidity chainId) None ;;
     match liquidityData with
     | Some l =>
         if positive (totalLiquidity l) then ret (Some l)
         else
           searchResult <-
             catch_default (searchTokens (orS (Some (symbol net)) (name net))) None ;;
           ret (search_liquidity searchResult)
     | None =>
         searchResult <-
           catch_default (searchTokens (orS (Some (symbol net)) (name net))) None ;;
         ret (search_liquidity searchResult)
     end)
    None.

(** *** Stablecoins *)

Definition fetchStablecoinChains : M (obj sc_entry) :=
  t <- Date_now ;;
  cache <- get stablecoinChainsCache ;;
  cacheTime <- get stablecoinCacheTime ;;
  match served cache cacheTime STABLECOIN_CACHE_TTL t with
  | Some cached => ret cached
  | None =>
      try_catch
        (fetch_json GET_stablecoinchains (http_stablecoinchains W) throw
           (fun data =>
              let chainMap := chainMap_of data in
              _ <- modify (set_stablecoinCache chainMap t) ;;
              ret chainMap))
        (ret [])
  end.

Definition fetchChainStablecoinTVL (chainName : string) : M Q :=
  try_catch
    (chains <- fetchStablecoinChains ;;
     ret (match stablecoin_entry chainName chains with
          | Some data => totalCirculatingUSD data
          | None => 0%Q
          end))
    (ret 0%Q).

(** *** Yields *)

Definition fetchAllPools : M (list pool_json) :=
  t <- Date_now ;;
  cache <- get poolsCache ;;
  cacheTime <- get poolsCacheTime ;;
  match served cache cacheTime POOLS_CACHE_TTL t with
  | Some cached => ret cached
  | None =>
      try_catch
        (fetch_json GET_pools (http_pools W) throw
           (fun data =>
              let pools := default [] (pools_data data) in
              _ <- modify (set_poolsCache pools t) ;;
              ret pools))
        (ret [])
  end.

Definition fetchChainTopYields (chainName : string) (limit : nat)
    : M (list top_yield) :=
  try_catch
    (pools <- fetchAllPools ;;
     ret (topYields_of chainName limit pools))
    (ret []).

Definition fetchChainYieldStats (chainName : string) : M (option yield_stats) :=
  try_catch
    (pools <- fetchAllPools ;;
     ret (yieldStats_of chainName pools))
    (ret None).

(** *** Fear and greed *)

Definition fetchFearGreedIndex : M (option fng_result) :=
  t <- Date_now ;;
  cache <- get fngCache ;;
  cacheTime <- get fngCacheTime ;;
  match served cache cacheTime FNG_CACHE_TTL t with
  | Some cached => ret (Some cached)
  | None =>
      try_catch
        (fetch_json GET_fng (http_fng W) throw
           (fun data =>
              match fng_of data with
              | Some result =>
                  _ <- modify (set_fngCache result t) ;;
                  ret (Some result)
              | None => ret None
              end))
        (ret None)
  end.

(** *** [fetchAllNetworkAnalytics] and [loadAnalytics] *)

Definition fetchAllNetworkAnalytics : M (obj analytics_entry) :=
  try_catch
    (tvlData <- fetchChainTVL ;;
     protocolData <- fetchProtocols ;;
     ret (analytics_of tvlData protocolData))
    (ret []).

(** [loadAnalytics] of [Hero.js]; on an exception [NETWORKS] is left as
    it is. *)
Definition loadAnalytics : M unit :=
  try_catch
    (analytics <- fetchAllNetworkAnalytics ;;
     allChains <- fetchAllChains ;;
     tvlData <- fetchChainTVL ;;
     let updatedBaseNetworks := map (updateBase analytics tvlData) BASE_NETWORKS in
     additionalNetworks <- lift (additionalNetworks_of BASE_NETWORKS allChains) ;;
     let allNetworks :=
       map (with_share (allChainTvl tvlData))
         (updatedBaseNetworks ++ additionalNetworks) in
     modify (set_NETWORKS allNetworks))
    (ret tt).

(** *** [preFetchNetworkData] *)

(** [historicalPromise]: the price history is asked for when the network
    has a [geckoId]. *)
Definition historicalPromise (net : network) : M (option chart_json) :=
  match orNullS (net_geckoId net) with
  | Some id => fetchHistoricalPrice id 7
  | None => ret None
  end.

(** The callback of [networksToFetch.map] for one network: the eight calls
    are joined by [Promise.allSettled] and a rejected one is replaced by
    its default. *)
Definition preFetchOne (net : network) : M unit :=
  try_catch
    (let cacheKey := name net in
     defillamaData <- settle (fetchNetworkDetails (name net)) ;;
     coingeckoData <- settle (fetchNetworkCoinData (name net) (net_geckoId net)) ;;
     historical <- settle (historicalPromise net) ;;
     dexscreenerData <- settle (dexscreenerPromise net) ;;
     stablecoin <- settle (fetchChainStablecoinTVL (name net)) ;;
     yieldStats <- settle (fetchChainYieldStats (name net)) ;;
     topYieldsData <- settle (fetchChainTopYields (name net) 3) ;;
     fearGreed <- settle fetchFearGreedIndex ;;
     o <- new_object ;;
     t <- Date_now ;;
     cache_set cacheKey
       {| oid := o;
          detailedData := defillamaData;
          priceData := default None coingeckoData;
          historicalData := default None historical;
          dexScreenerData := default None dexscreenerData;
          stablecoinData := default 0%Q stablecoin;
          yieldData := default None yieldStats;
          topYields := topYieldsData;
          fearGreedData := default None fearGreed;
          fetchedAt := t |})
    (ret tt).

Definition preFetchNetworkData : M unit :=
  networksToFetch <- get NETWORKS ;;
  forEachM (fun net => catch_default (preFetchOne net) tt) networksToFetch.

(** *** The effect of [StatsCard] *)

(** The synchronous head of the effect: the cached snapshot when there is
    one younger than [CACHE_MAX_AGE]. *)
Definition StatsCard_cached (net : network) : M (option snapshot) :=
  cached <- get (fun s => networkDataCache s !! name net) ;;
  match cached with
  | Some c =>
      t <- Date_now ;;
      if Z.ltb (t - fetchedAt c) CACHE_MAX_AGE then ret (Some c) else ret None
  | None => ret None
  end.

(** The refresh: eight promises joined by [Promise.all], each but the
    first with its own [catch]; the result is stored under the name. *)
Definition StatsCard_refresh (net : network) : M served_by :=
  try_catch
    (defillamaData <- fetchNetworkDetails (name net) ;;
     coingeckoData <-
       catch_default (fetchNetworkCoinData (name net) (net_geckoId net)) None ;;
     historicalPriceData <- catch_default (historicalPromise net) None ;;
     dexscreenerResult <- dexscreenerPromise net ;;
     stablecoinTvl <- catch_default (fetchChainStablecoinTVL (name net)) 0%Q ;;
     yieldStats <- catch_default (fetchChainYieldStats (name net)) None ;;
     topYieldsData <-
       catch_default
         (l <- fetchChainTopYields (name net) 3 ;; ret (Some l)) None ;;
     fearGreed <- catch_default fetchFearGreedIndex None ;;
     o <- new_object ;;
     t <- Date_now ;;
     let snap :=
       {| oid := o;
          detailedData := Some defillamaData;
          priceData := coingeckoData;
          historicalData := historicalPriceData;
          dexScreenerData := dexscreenerResult;
          stablecoinData := stablecoinTvl;
          yieldData := yieldStats;
          topYields := topYieldsData;
          fearGreedData := fearGreed;
          fetchedAt := t |} in
     _ <- cache_set (name net) snap ;;
     ret (Refreshed snap))
    (ret LoadError).

Definition StatsCard_effect (net : network) : M served_by :=
  cached <- StatsCard_cached net ;;
  match cached with
  | Some c => ret (FromCache c)
  | None => StatsCard_refresh net
  end.

End Engine.

(** ** Initial state and sample worlds *)

(** The state when the modules are loaded: empty caches with time 0,
    [NETWORKS = [...BASE_NETWORKS]], [networkDataCache = new Map()]. *)
Definition initial_state : State :=
  {| poolsCache := None; poolsCacheTime := 0;
     stablecoinChainsCache := None; stablecoinCacheTime := 0;
     fngCache := None; fngCacheTime := 0;
     networkDataCache := ∅; NETWORKS := BASE_NETWORKS;
     requests := []; ticks := 0; next_oid := 0 |}.

(** A clock that advances by one millisecond at every reading. *)
Definition sample_clock (k : nat) : Z := 1700000000000 + Z.of_nat k.

Definition ethereum : network :=
  {| name := "Ethereum"; symbol := "ETH"; est := "2015"; color := Hex "#00f2ff";
     pos := Vec3 1 1 1; net_geckoId := None; rawTvl := None; marketShare := None |}.

(** A world in which no provider can be reached. *)
Definition down_world : World :=
  {| now := sample_clock;
     http_chains := fun _ => NetworkError;
     http_protocols := fun _ => NetworkError;
     http_dexs := fun _ _ => NetworkError;
     http_fees := fun _ _ => NetworkError;
     http_bridges := fun _ _ => NetworkError;
     http_historicalChainTvl := fun _ _ => NetworkError;
     http_coin := fun _ _ => NetworkError;
     http_market_chart := fun _ _ _ => NetworkError;
     http_pairs := fun _ _ => NetworkError;
     http_search := fun _ _ => NetworkError;
     http_stablecoinchains := fun _ => NetworkError;
     http_pools := fun _ => NetworkError;
     http_fng := fun _ => NetworkError |}.

(** A world that gives the same answer to every request of a kind; the
    endpoints that are not listed cannot be reached. *)
Definition constant_world
    (chains : response (list chain_json))
    (historical : response (list (option hist_point)))
    (pairs_r search_r : response pairs_json)
    (pools_r : response pools_json)
    (fng_r : response fng_json) : World :=
  {| now := sample_clock;
     http_chains := fun _ => chains;
     http_protocols := fun _ => NetworkError;
     http_dexs := fun _ _ => NetworkError;
     http_fees := fun _ _ => NetworkError;
     http_bridges := fun _ _ => NetworkError;
     http_historicalChainTvl := fun _ _ => historical;
     http_coin := fun _ _ => NetworkError;
     http_market_chart := fun _ _ _ => NetworkError;
     http_pairs := fun _ _ => pairs_r;
     http_search := fun _ _ => search_r;
     http_stablecoinchains := fun _ => NetworkError;
     http_pools := fun _ => pools_r;
     http_fng := fun _ => fng_r |}.

Definition pair_of (q : Q) : pair_json :=
  {| liquidity := Some {| usd := Some q |} |}.

(** Eleven pairs, the richest one last. *)
Definition eleven_pairs : list pair_json :=
  repeat (pair_of 1) 10 ++ [pair_of 100].

(** The direct lookup fails and the search finds [eleven_pairs]. *)
Definition search_only_world : World :=
  constant_world NetworkError NetworkError NotOk
    (Json {| pairs := Some eleven_pairs |}) NetworkError NetworkError.

(** A chain whose history is a single point with nothing locked, and a
    chain that went from nothing locked to 5. *)
Definition flat_history_world : World :=
  constant_world NetworkError (Json [Some {| h_tvl := Some 0%Q |}])
    NetworkError NetworkError NetworkError NetworkError.

Definition from_zero_world : World :=
  constant_world NetworkError
    (Json [Some {| h_tvl := Some 0%Q |}; Some {| h_tvl := Some 5%Q |}])
    NetworkError NetworkError NetworkError NetworkError.

(** A point of the history without [tvl]. *)
Definition missing_tvl_world : World :=
  constant_world NetworkError
    (Json [Some {| h_tvl := Some 4%Q |}; Some {| h_tvl := None |}])
    NetworkError NetworkError NetworkError NetworkError.

(** A sentiment entry without [value]. *)
Definition missing_value_world : World :=
  constant_world NetworkError NetworkError NetworkError NetworkError NetworkError
    (Json {| fng_data :=
               Some [{| fg_value := None;
                        fg_value_classification := Some "Fear";
                        fg_timestamp := Some "1700000000" |}] |}).

(** A registry with one large chain outside the base roster, one small
    chain, and Ethereum. *)
Definition discovery_listing : list chain_json :=
  [ {| c_name := Some "Ethereum"; c_tvl := Some 52000000000%Q;
       c_tokenSymbol := Some "ETH"; c_gecko_id := Some "ethereum";
       c_chainId := Some 1%Z |};
    {| c_name := Some "Linea"; c_tvl := Some 450000000%Q;
       c_tokenSymbol := None; c_gecko_id := Some "linea";
       c_chainId := Some 59144%Z |};
    {| c_name := Some "Tiny"; c_tvl := Some 2000000%Q;
       c_tokenSymbol := None; c_gecko_id := None; c_chainId := None |} ].

Definition discovery_world : World :=
  constant_world (Json discovery_listing) NetworkError NetworkError NetworkError
    NetworkError NetworkError.

(** The scenario of the specification: the registry lists Ethereum with
    52 billion locked, the market data give a price of 3000 and a
    capitalisation of 360 billion, every other provider fails. *)
Definition scenario_world : World :=
  {| now := sample_clock;
     http_chains :=
       fun _ => Json [{| c_name := Some "Ethereum"; c_tvl := Some 52000000000%Q;
                         c_tokenSymbol := None; c_gecko_id := None;
                         c_chainId := None |}];
     http_protocols := fun _ => NetworkError;
     http_dexs := fun _ _ => NetworkError;
     http_fees := fun _ _ => NetworkError;
     http_bridges := fun _ _ => NetworkError;
     http_historicalChainTvl := fun _ _ => NetworkError;
     http_coin :=
       fun _ _ => Json {| market_data :=
                            Some {| current_price_usd := Some 3000%Q;
                                    market_cap_usd := Some 360000000000%Q |} |};
     http_market_chart := fun _ _ _ => NetworkError;
     http_pairs := fun _ _ => NetworkError;
     http_search := fun _ _ => NetworkError;
     http_stablecoinchains := fun _ => NetworkError;
     http_pools := fun _ => NetworkError;
     http_fng := fun _ => NetworkError |}.

(** ** Predicates on worlds, states and results *)

(** Every request of the world fails: the transport fails, the status is
    not 2xx, or the body does not parse. *)
Definition all_down (W : World) : Prop :=
  (forall k, failed (http_chains W k)) /\
  (forall k, failed (http_protocols W k)) /\
  (forall c k, failed (http_dexs W c k)) /\
  (forall c k, failed (http_fees W c k)) /\
  (forall c k, failed (http_bridges W c k)) /\
  (forall c k, failed (http_historicalChainTvl W c k)) /\
  (forall c k, failed (http_coin W c k)) /\
  (forall c d k, failed (http_market_chart W c d k)) /\
  (forall c k, failed (http_pairs W c k)) /\
  (forall q k, failed (http_search W q k)) /\
  (forall k, failed (http_stablecoinchains W k)) /\
  (forall k, failed (http_pools W k)) /\
  (forall k, failed (http_fng W k)).

(** The clock never runs backwards. *)
Definition monotone_clock (W : World) : Prop :=
  forall i j, (i <= j)%nat -> (now W i <= now W j)%Z.

(** No provider cache holds a payload that is still fresh at time [t]:
    its client will issue a request. *)
Definition provider_caches_expired (s : State) (t : Z) : Prop :=
  fresh (poolsCache s) (poolsCacheTime s) POOLS_CACHE_TTL t = false /\
  fresh (stablecoinChainsCache s) (stablecoinCacheTime s) STABLECOIN_CACHE_TTL t = false /\
  fresh (fngCache s) (fngCacheTime s) FNG_CACHE_TTL t = false.

(** The defaults of a snapshot for which no provider delivered. *)
Definition documented_defaults (snap : snapshot) : Prop :=
  option_map details_tvl (detailedData snap) = Some 0%Q /\
  priceData snap = None /\
  dexScreenerData snap = None /\
  stablecoinData snap = 0%Q /\
  yieldData snap = None /\
  fearGreedData snap = None.

(** The body of a response, and what [fetchChainTotalLiquidity] makes of
    the response to its request. *)
Definition body_of {B} (r : response B) : option B :=
  match r with Json b => Some b | _ => None end.

Definition direct_liquidity (r : response pairs_json) : option liquidity_total :=
  match body_of r with
  | Some data =>
      match pairs data with
      | Some ps =>
          Some {| totalLiquidity := sum_liquidity ps; pairCount := List.length ps |}
      | None => None
      end
  | None => None
  end.

(** What [loadAnalytics] keeps of a base network. *)
Definition same_identity (b u : network) : Prop :=
  name u = name b /\ symbol u = symbol b /\ color u = color b /\ pos u = pos b.

(** An appended network comes from a listing of the registry in which it
    holds more than the threshold, and is not a base network. *)
Definition discovered (W : World) (n : network) : Prop :=
  ~ In (name n) (map name BASE_NETWORKS) /\
  exists k listing chain t,
    http_chains W k = Json listing /\ In chain listing /\
    c_name chain = Some (name n) /\ c_tvl chain = Some t /\
    rawTvl n = Some t /\ (MIN_DISCOVERY_TVL < t)%Q.

(** ** Predicates on computations *)

(** [m] returns in every state. *)
Definition returns {A} (m : M A) : Prop :=
  forall s, exists a, fst (m s) = Returned a.

(** The clock readings, the log of requests and the object counter never go
    back. *)
Definition grows (s s' : State) : Prop :=
  (ticks s <= ticks s')%nat /\
  (exists l, requests s' = l ++ requests s) /\
  (next_oid s <= next_oid s')%nat.

Definition growing {A} (m : M A) : Prop := forall s, grows s (snd (m s)).

(** Only the clock readings and the log of requests differ between the two
    states. *)
Definition quiet (s s' : State) : Prop :=
  poolsCache s' = poolsCache s /\ poolsCacheTime s' = poolsCacheTime s /\
  stablecoinChainsCache s' = stablecoinChainsCache s /\
  stablecoinCacheTime s' = stablecoinCacheTime s /\
  fngCache s' = fngCache s /\ fngCacheTime s' = fngCacheTime s /\
  networkDataCache s' = networkDataCache s /\ NETWORKS s' = NETWORKS s /\
  next_oid s' = next_oid s /\ (ticks s <= ticks s')%nat.

(** [m] returns [v] from every state and stores nothing. *)
Definition quietly {A} (m : M A) (v : A) : Prop :=
  forall s, exists s', m s = (Returned v, s') /\ quiet s s'.

(** ** Two overlapping requests *)

(** Two requests for the same network of which the second arrives while the
    refresh of the first is in flight: both effects run their synchronous
    head before either joined promise is fulfilled. *)
Definition two_overlapping_requests (W : World) (net : network)
    : M (served_by * served_by) :=
  c1 <- StatsCard_cached W net ;;
  c2 <- StatsCard_cached W net ;;
  r1 <- match c1 with
        | Some c => ret (FromCache c)
        | None => StatsCard_refresh W net
        end ;;
  r2 <- match c2 with
        | Some c => ret (FromCache c)
        | None => StatsCard_refresh W net
        end ;;
  ret (r1, r2).

Definition is_chains_request (r : request) : bool :=
  match r with GET_chains => true | _ => false end.

(** ** The wording of the specification, for comparison *)

(** The order of resolution that the specification gives for every
    provider: the explicit mapping, then a match without regard to case in
    the known keys of the provider, then the name itself. *)
Definition resolve_by_order (explicit : obj string) (known : list string)
    (networkName : string) : string :=
  match obj_get networkName explicit with
  | Some id => id
  | None =>
      match js_find
              (fun key => String.eqb (toLowerCase key) (toLowerCase networkName))
              known with
      | Some key => key
      | None => networkName
      end
  end.

(** The liquidity that the loops of the liquidity lookup add for one pair. *)
Definition pair_liquidity (pair : pair_json) : Q := add_liquidity 0 pair.

(** The specification's fallback: the ten pairs of highest liquidity. *)
Definition ten_highest (ps : list pair_json) : list pair_json :=
  slice0 10
    (js_sort (fun a b => Qle_bool (pair_liquidity b) (pair_liquidity a)) ps).

(** ** [App.js]: the dApp nodes of a network and their groups *)

(** [DAPP_PALETTE_HEX] of [dappPalette.js]; [DAPP_PALETTE_THREE] is its
    image under [new THREE.Color] and has the same length. *)
Definition DAPP_PALETTE_HEX : list string :=
  [ "#FF6B6B"; "#4ECDC4"; "#FFE66D"; "#A78BFA"; "#F97316";
    "#22D3EE"; "#FB7185"; "#34D399"; "#FBBF24"; "#818CF8";
    "#F472B6"; "#2DD4BF"; "#E879F9"; "#38BDF8"; "#A3E635";
    "#FB923C"; "#C084FC"; "#67E8F9"; "#FCA5A5"; "#86EFAC" ].

(** A node of [computeDappNodes]; the position on the spherical cap, which
    is computed with square roots and trigonometric functions, and the
    fields that carry links are left out. *)
Record dapp_node := {
  dn_name : option string;
  dn_category : string;
  dn_tvl : Q;
  dn_tvlShare : Q;
  dn_colorHex : option string
}.

(** [arr.map((x, i) => f(x, i))]. *)
Fixpoint map_indexed {A B} (f : A -> nat -> B) (i : nat) (l : list A) : list B :=
  match l with
  | [] => []
  | x :: l' => f x i :: map_indexed f (S i) l'
  end.

Definition computeDappNodes (net : option network)
    (protocols : option (list protocol_out)) : list dapp_node :=
  match net, protocols with
  | Some _, Some ((_ :: _) as protocols) =>
      let sorted := slice0 20 (js_sort by_tvl_desc protocols) in
      let totalTvl :=
        fold_left (fun sum p => sum + orQ (Some (po_tvl p)) 0)%Q sorted 0%Q in
      map_indexed
        (fun protocol i =>
           let tvlShare :=
             if positive totalTvl
             then (orQ (Some (po_tvl protocol)) 0 / totalTvl)%Q
             else (1 / inject_Z (Z.of_nat (List.length sorted)))%Q in
           let colorIdx := (i mod List.length DAPP_PALETTE_HEX)%nat in
           {| dn_name := po_name protocol;
              dn_category := orS (Some (po_category protocol)) "DeFi";
              dn_tvl := orQ (Some (po_tvl protocol)) 0;
              dn_tvlShare := tvlShare;
              dn_colorHex := nth_error DAPP_PALETTE_HEX colorIdx |})
        0%nat sorted
  | _, _ => []
  end.

(** [CATEGORY_GROUP_MAP], [CATEGORY_ORDER], [getCategoryGroup]. *)
Definition CATEGORY_GROUP_MAP : obj string :=
  [ ("CEX", "CEXs");
    ("Dexes", "DEXs");
    ("Dexs", "DEXs");
    ("DEX", "DEXs");
    ("Lending", "Lending");
    ("CDP", "Lending");
    ("NFT Marketplace", "NFTs");
    ("NFT Lending", "NFTs");
    ("NFT", "NFTs");
    ("Gaming", "GameFi");
    ("GameFi", "GameFi");
    ("Prediction Market", "GameFi");
    ("Wallet", "Wallets");
    ("Liquid Staking", "Staking");
    ("Restaking", "Staking");
    ("Staking", "Staking");
    ("Bridge", "Bridges");
    ("Cross Chain", "Bridges") ].

Definition CATEGORY_ORDER : list string :=
  [ "DEXs"; "Lending"; "Staking"; "Bridges"; "CEXs"; "NFTs"; "GameFi";
    "Wallets"; "Other" ].

Definition getCategoryGroup (rawCategory : string) : string :=
  orS (obj_get rawCategory CATEGORY_GROUP_MAP) "Other".

(** The object [groups] after the [forEach] of [groupDappsByCategory]. *)
Definition dappGroups (dapps : list dapp_node) : obj (list dapp_node) :=
  fold_left
    (fun groups dapp =>
       let group := getCategoryGroup (dn_category dapp) in
       obj_set group (default [] (obj_get group groups) ++ [dapp]) groups)
    dapps [].

Definition groupDappsByCategory (dapps : list dapp_node)
    : list (string * list dapp_node) :=
  let groups := dappGroups dapps in
  map (fun cat => (cat, default [] (obj_get cat groups)))
    (List.filter
       (fun cat =>
          match obj_get cat groups with
          | Some g => Nat.ltb 0 (List.length g)
          | None => false
          end)
       CATEGORY_ORDER).

(** ** [services/dexscreener.js]: the top pairs of a chain *)

(** [fetchTopPairs]: [data.pairs?.slice(0, 10) || []], [null] when the
    status is not 2xx or the request fails. *)
Definition fetchTopPairs (W : World) (chainId : string)
    : M (option (list pair_json)) :=
  try_catch
    (fetch_json (GET_pairs chainId) (http_pairs W chainId)
       (ret None)
       (fun data =>
          ret (Some (match pairs data with
                     | Some ps => slice0 10 ps
                     | None => []
                     end))))
    (ret None).

(** ** [App.js]: the gauge, the sparkline and the filters of the search *)

(** [value > c] on a number that may be [NaN]. *)
Definition js_gt (x : jsnum) (c : Q) : bool :=
  match x with
  | Fin q => negb (Qle_bool q c)
  | PInf => true
  | NaN | NInf => false
  end.

(** The colour of [FearGreedGauge]; the component renders nothing for a
    value that is [null] or [undefined]. *)
Definition FearGreedGauge_color (value : option jsnum) : option string :=
  match value with
  | None => None
  | Some value =>
      let color := "#ea3943" in
      let color := if js_gt value 25 then "#ea8c00" else color in
      let color := if js_gt value 45 then "#f5d100" else color in
      let color := if js_gt value 55 then "#16c784" else color in
      let color := if js_gt value 75 then "#16c784" else color in
      Some color
  end.

(** [Math.min(...data)] and [Math.max(...data)] of an array that is not
    empty. *)
Definition Math_min (x : Q) (l : list Q) : Q :=
  fold_left (fun m v => if Qle_bool m v then m else v) l x.

Definition Math_max (x : Q) (l : list Q) : Q :=
  fold_left (fun m v => if Qle_bool v m then m else v) l x.

(** The points of the polyline of [Sparkline], [None] when the component
    renders nothing. *)
Definition Sparkline_points (data : option (list Q)) (width height : Q)
    : option (list (Q * Q)) :=
  match data with
  | Some ((d0 :: _ :: _) as data) =>
      let min := Math_min d0 data in
      let max := Math_max d0 data in
      let range := orQ (Some (max - min)%Q) 1 in
      Some
        (map_indexed
           (fun v i =>
              let x :=
                (inject_Z (Z.of_nat i)
                 / (inject_Z (Z.of_nat (List.length data)) - 1) * width)%Q in
              let y := (height - ((v - min) / range) * (height - 4) - 2)%Q in
              (x, y))
           0%nat data)
  | _ => None
  end.

(** The callback of the filter on [filters.tvlRange] in the effect of
    [SearchBar]. *)
Definition tvlRange_filter (tvlRange : string) (net : network) : bool :=
  let tvl := orQ (rawTvl net) 0 in
  if String.eqb tvlRange "high" then Qle_bool 1000000000 tvl
  else if String.eqb tvlRange "medium" then
    (Qle_bool 100000000 tvl && negb (Qle_bool 1000000000 tvl))%bool
  else if String.eqb tvlRange "low" then negb (Qle_bool 100000000 tvl)
  else true.

(** The callback of the filter on [filters.establishment], which is applied
    when the filter is not "all"; [currentYear] is
    [new Date().getFullYear()]. *)
Definition establishment_filter (currentYear : Z) (establishment : string)
    (net : network) : bool :=
  match parseInt (Some (est net)) with
  | Fin year =>
      let age := (inject_Z currentYear - year)%Q in
      if String.eqb establishment "recent" then Qle_bool age 5
      else if String.eqb establishment "established" then negb (Qle_bool age 5)
      else true
  | _ => String.eqb establishment "all"
  end.

(** ** [Hero.js]: the position of a discovered network *)

(** [generatePosition(index, total)]: the height [y] of the point and the
    number [1 - y * y] of which [radius] is the square root. *)
Definition generatePosition_y (index total : nat) : Q :=
  (1 - (inject_Z (Z.of_nat index) / (inject_Z (Z.of_nat total) - 1)) * 2)%Q.

Definition generatePosition_radicand (index total : nat) : Q :=
  let y := generatePosition_y index total in
  (1 - y * y)%Q.

(** ** Orders and sums, for the statements *)

(** [l] is in the order of [le]: no element is followed at once by one
    that [le] puts strictly before it. *)
Fixpoint ordered {A} (le : A -> A -> bool) (l : list A) : Prop :=
  match l with
  | [] => True
  | x :: l' =>
      match l' with
      | [] => True
      | y :: _ => le x y = true /\ ordered le l'
      end
  end.

Definition sum_counts (o : obj nat) : nat := list_sum (obj_values o).

(** The number of chains that the protocols of a listing name. *)
Definition memberships (protocols : list protocol_json) : nat :=
  list_sum (map (fun p => List.length (default [] (p_chains p))) protocols).

(** A point of a history that carries a value locked other than zero. *)
Definition nonzero_point (p : option hist_point) : Prop :=
  exists pt t, p = Some pt /\ h_tvl pt = Some t /\ ~ (t == 0)%Q.

(** [key] equals [n] without regard to case. *)
Definition same_ci (key n : string) : Prop := toLowerCase key = toLowerCase n.

(** The cache holds a snapshot under every name of the roster. *)
Definition warmed (s : State) : Prop :=
  forall net, In net (NETWORKS s) ->
    exists snap, networkDataCache s !! name net = Some snap.

(** ** A world in which the yields provider answers *)

Definition pool_on (chain : string) (tvlUsd apy : Q) : pool_json :=
  {| pl_pool := None; pl_project := None; pl_symbol := None;
     pl_chain := Some chain; pl_tvlUsd := Some tvlUsd; pl_apy := Some apy;
     pl_apyBase := None; pl_apyReward := None; pl_stablecoin := None |}.

Definition sample_pools : list pool_json :=
  [ pool_on "Ethereum" 5000000 4; pool_on "ethereum" 3000000 2000;
    pool_on "Solana" 2000000 7; pool_on "Ethereum" 9000000 6 ].

Definition yields_world : World :=
  constant_world NetworkError NetworkError NetworkError NetworkError
    (Json {| pools_data := Some sample_pools |}) NetworkError.

(** ** Four dApps of three groups *)

Definition dapp_in (category : string) (tvl : Q) : dapp_node :=
  {| dn_name := None; dn_category := category; dn_tvl := tvl;
     dn_tvlShare := 0; dn_colorHex := None |}.

Definition sample_dapps : list dapp_node :=
  [ dapp_in "Lending" 5; dapp_in "Dexes" 3; dapp_in "Yield" 2; dapp_in "CDP" 1 ].

(** ** A world in which the registry answers *)

Definition sample_protocols : list protocol_json :=
  [ {| p_name := Some "Lido"; p_tvl := Some 30%Q;
       p_category := Some "Liquid Staking";
       p_chains := Some ["Ethereum"; "Solana"] |};
    {| p_name := Some "Aave"; p_tvl := Some 20%Q; p_category := Some "Lending";
       p_chains := Some ["Ethereum"; "Linea"] |};
    {| p_name := Some "Anon"; p_tvl := None; p_category := None;
       p_chains := Some ["Linea"] |} ].

Definition registry_world : World :=
  {| now := sample_clock;
     http_chains := fun _ => Json discovery_listing;
     http_protocols := fun _ => Json sample_protocols;
     http_dexs := fun _ _ => NetworkError;
     http_fees := fun _ _ => NetworkError;
     http_bridges := fun _ _ => NetworkError;
     http_historicalChainTvl := fun _ _ => NetworkError;
     http_coin := fun _ _ => NetworkError;
     http_market_chart := fun _ _ _ => NetworkError;
     http_pairs := fun _ _ => NetworkError;
     http_search := fun _ _ => NetworkError;
     http_stablecoinchains := fun _ => NetworkError;
     http_pools := fun _ => NetworkError;
     http_fng := fun _ => NetworkError |}.

(** No chain that a protocol of the listing names, and no category of a
    protocol of a listing of the world, is the name of an inherited
    property. *)
Definition plain_chains (listing : list protocol_json) : Prop :=
  forall p chain,
    In p listing -> In chain (default [] (p_chains p)) -> inherited chain = false.

Definition plain_categories (W : World) : Prop :=
  forall k listing p,
    http_protocols W k = Json listing -> In p listing ->
    inherited (orS (p_category p) "Other") = false.

(** ** Computations that leave the snapshot cache and the roster alone *)

Definition framed (s s' : State) : Prop :=
  networkDataCache s' = networkDataCache s /\ NETWORKS s' = NETWORKS s.

Definition frames {A} (m : M A) : Prop := forall s, framed s (snd (m s)).

(** * Properties *)

(** Running a computation symbolically: the combinators of the monad are
    unfolded and the projections of the updated states are computed. *)
Ltac run :=
  cbv beta iota zeta delta
    [bind ret throw lift get modify try_catch catch_default settle
     fetch fetch_json Date_now new_object cache_set
     fetchChainTVL fetchProtocols fetchChainDEXVolume fetchChainFees
     fetchChainBridgeVolume fetchChainHistoricalTVL fetchAllChains
     fetchCoinData fetchHistoricalPrice searchTokens fetchChainTotalLiquidity
     fetchStablecoinChains fetchAllPools fetchFearGreedIndex];
  simpl.

(** ** The model at work *)

Example toLowerCase_BNB : toLowerCase "BNB Chain" = "bnb chain".
Proof. reflexivity. Qed.

Example parseInt_samples :
  parseInt (Some "45") = Fin 45 /\ parseInt (Some " -7px") = Fin (-7) /\
  parseInt (Some "0x1f") = Fin 31 /\ parseInt (Some "n/a") = NaN /\
  parseInt None = NaN.
Proof. repeat split. Qed.

Example nameHue_Linea : nameHash "Linea" = 73424589%Z /\ nameHue "Linea" = 69%Z.
Proof. split; reflexivity. Qed.

(** The sentiment of a week: the previous value is that of the second entry
    and the value of a week ago that of the seventh; with six entries there
    is no value of a week ago. *)
Example fng_of_week :
  let entry := fun v : string =>
    {| fg_value := Some v; fg_value_classification := None;
       fg_timestamp := None |} in
  let week := map entry ["10"; "20"; "30"; "40"; "50"; "60"; "70"] in
  (exists r,
     fng_of {| fng_data := Some week |} = Some r /\
     fr_value r = Fin 10 /\ fr_previousValue r = Some (Fin 20) /\
     fr_weekAgoValue r = Some (Fin 70) /\
     fr_change24h r = Some (Fin (-10)) /\ fr_change7d r = Some (Fin (-60))) /\
  (exists r,
     fng_of {| fng_data := Some (firstn 6 week) |} = Some r /\
     fr_previousValue r = Some (Fin 20) /\ fr_weekAgoValue r = None).
Proof.
  split; eexists; (split; [reflexivity|]); repeat split.
Qed.

Example inherited_names :
  inherited "constructor" = true /\ inherited "__proto__" = true /\
  inherited "Ethereum" = false /\
  js_get "toString" COINGECKO_IDS = Inherited /\
  js_get "Linea" COINGECKO_IDS = Undefined /\
  js_get "BSC" COINGECKO_IDS = Own "binancecoin".
Proof. repeat split. Qed.

Example js_sort_is_stable :
  js_sort (fun a b : nat * string => Nat.leb (fst b) (fst a))
    [(1, "a"); (3, "b"); (1, "c"); (3, "d")]%nat
  = [(3, "b"); (3, "d"); (1, "a"); (1, "c")]%nat.
Proof. reflexivity. Qed.

(** The end-to-end scenario of the specification: the snapshot carries the
    value locked and the price that were delivered and the defaults for the
    providers that failed. *)
Example scenario_snapshot :
  exists snap s',
    StatsCard_effect scenario_world ethereum initial_state
    = (Returned (Refreshed snap), s') /\
    option_map details_tvl (detailedData snap) = Some 52000000000%Q /\
    option_map market_data (priceData snap)
    = Some (Some {| current_price_usd := Some 3000%Q;
                    market_cap_usd := Some 360000000000%Q |}) /\
    dexScreenerData snap = None /\ stablecoinData snap = 0%Q /\
    yieldData snap = None /\ fearGreedData snap = None /\
    fetchedAt snap = sample_clock 4.
Proof.
  eexists. eexists. split; [vm_compute; reflexivity|]. repeat split.
Qed.

(** ** Clients never throw *)

Lemma returns_ret {A} (a : A) : returns (ret a).
Proof. intros s. exists a. reflexivity. Qed.

Lemma returns_bind {A B} (m : M A) (k : A -> M B) :
  returns m -> (forall a, returns (k a)) -> returns (bind m k).
Proof.
  intros Hm Hk s. unfold bind.
  destruct (Hm s) as [a Ha]. destruct (m s) as [o s']. simpl in Ha. subst o.
  apply Hk.
Qed.

Lemma returns_try_catch {A} (m h : M A) : returns h -> returns (try_catch m h).
Proof.
  intros Hh s. unfold try_catch.
  destruct (m s) as [[a|] s']; [exists a; reflexivity | apply Hh].
Qed.

Lemma returns_catch_default {A} (m : M A) (d : A) : returns (catch_default m d).
Proof. apply returns_try_catch, returns_ret. Qed.

Lemma returns_settle {A} (m : M A) : returns (settle m).
Proof.
  intros s. unfold settle. destruct (m s) as [[a|] s']; eexists; reflexivity.
Qed.

Lemma returns_get {A} (f : State -> A) : returns (get f).
Proof. intros s. eexists. reflexivity. Qed.

Lemma returns_modify (f : State -> State) : returns (modify f).
Proof. intros s. eexists. reflexivity. Qed.

Lemma returns_Date_now W : returns (Date_now W).
Proof. intros s. eexists. reflexivity. Qed.

Lemma returns_new_object : returns new_object.
Proof. intros s. eexists. reflexivity. Qed.

Lemma returns_cache_set key snap : returns (cache_set key snap).
Proof. apply returns_modify. Qed.

Lemma returns_inv {A} (m : M A) s :
  returns m -> exists a s', m s = (Returned a, s').
Proof.
  intros H. destruct (H s) as [a Ha]. destruct (m s) as [o s'].
  simpl in Ha. subst o. eauto.
Qed.

Create HintDb returns discriminated.

#[local] Hint Resolve returns_ret returns_try_catch returns_catch_default
  returns_settle returns_get returns_modify returns_Date_now
  returns_new_object returns_cache_set : returns.

Lemma returns_fetchChainTVL W : returns (fetchChainTVL W).
Proof. unfold fetchChainTVL. auto with returns. Qed.

Lemma returns_fetchProtocols W : returns (fetchProtocols W).
Proof. unfold fetchProtocols. auto with returns. Qed.

Lemma returns_fetchChainProtocols W n : returns (fetchChainProtocols W n).
Proof. unfold fetchChainProtocols. auto with returns. Qed.

Lemma returns_fetchNetworkDetails W n : returns (fetchNetworkDetails W n).
Proof. unfold fetchNetworkDetails. auto with returns. Qed.

Lemma returns_fetchAllChains W : returns (fetchAllChains W).
Proof. unfold fetchAllChains. auto with returns. Qed.

Lemma js_get_not_inherited {V} (k : string) (o : obj V) :
  inherited k = false ->
  js_get k o = match obj_get k o with Some v => Own v | None => Undefined end.
Proof. intros H. unfold js_get. rewrite H. reflexivity. Qed.

Lemma coinIdOf_returns (n : string) (g : option string) :
  inherited n = false \/ orNullS g <> None ->
  exists id, coinIdOf n g = Returned id.
Proof.
  intros H. unfold coinIdOf. destruct (orNullS g) as [id|]; [eauto|].
  destruct H as [H|H]; [|contradiction].
  rewrite (js_get_not_inherited _ _ H). destruct (obj_get n COINGECKO_IDS); eauto.
Qed.

(** [fetchNetworkCoinData] returns when it is given a [geckoId] or a name
    that is not inherited. *)
Lemma returns_fetchNetworkCoinData W n g :
  inherited n = false \/ orNullS g <> None -> returns (fetchNetworkCoinData W n g).
Proof.
  intros H. unfold fetchNetworkCoinData.
  destruct (coinIdOf_returns n g H) as [id ->].
  apply returns_bind; [intros s; eexists; reflexivity|].
  intros [coinId|]; auto with returns.
Qed.

Lemma returns_fetchHistoricalPrice W id d : returns (fetchHistoricalPrice W id d).
Proof. unfold fetchHistoricalPrice. auto with returns. Qed.

Lemma returns_dexscreenerPromise W net : returns (dexscreenerPromise W net).
Proof. unfold dexscreenerPromise. auto with returns. Qed.

Lemma returns_fetchChainStablecoinTVL W n : returns (fetchChainStablecoinTVL W n).
Proof. unfold fetchChainStablecoinTVL. auto with returns. Qed.

Lemma returns_fetchChainYieldStats W n : returns (fetchChainYieldStats W n).
Proof. unfold fetchChainYieldStats. auto with returns. Qed.

Lemma returns_fetchChainTopYields W n l : returns (fetchChainTopYields W n l).
Proof. unfold fetchChainTopYields. auto with returns. Qed.

Lemma returns_fetchFearGreedIndex W : returns (fetchFearGreedIndex W).
Proof.
  unfold fetchFearGreedIndex.
  repeat (apply returns_bind; [auto with returns | intros]).
  destruct (served _ _ _ _); auto with returns.
Qed.

#[local] Hint Resolve returns_fetchChainTVL returns_fetchProtocols
  returns_fetchChainProtocols returns_fetchNetworkDetails returns_fetchAllChains
  returns_fetchHistoricalPrice returns_dexscreenerPromise
  returns_fetchChainStablecoinTVL returns_fetchChainYieldStats
  returns_fetchChainTopYields returns_fetchFearGreedIndex : returns.

(** Neither [preFetchNetworkData] nor the effect of [StatsCard] lets an
    exception escape, whatever the providers answer. *)
Lemma returns_forEachM {A} (f : A -> M unit) (l : list A) :
  (forall x, returns (f x)) -> returns (forEachM f l).
Proof.
  intros Hf. induction l as [|x l IH]; simpl; [apply returns_ret|].
  apply returns_bind; [apply Hf | intros _; exact IH].
Qed.

Lemma returns_preFetchNetworkData W : returns (preFetchNetworkData W).
Proof.
  unfold preFetchNetworkData. apply returns_bind; [auto with returns|].
  intros nets. apply returns_forEachM. auto with returns.
Qed.

Lemma returns_StatsCard_effect W net : returns (StatsCard_effect W net).
Proof.
  unfold StatsCard_effect, StatsCard_cached, StatsCard_refresh.
  repeat (apply returns_bind; [auto with returns | intros]).
  - destruct a as [c|]; [|auto with returns].
    apply returns_bind; [auto with returns | intros t].
    destruct (Z.ltb _ _); auto with returns.
  - destruct a as [c|]; auto with returns.
Qed.

(** ** The state only grows *)

Lemma grows_refl s : grows s s.
Proof. repeat split; auto. exists []. reflexivity. Qed.

Lemma grows_trans a b c : grows a b -> grows b c -> grows a c.
Proof.
  intros (H1 & [l1 H2] & H3) (H4 & [l2 H5] & H6).
  repeat split; [lia | | lia].
  exists (l2 ++ l1). rewrite H5, H2. apply app_assoc.
Qed.

Lemma growing_ret {A} (a : A) : growing (ret a).
Proof. intros s. apply grows_refl. Qed.

Lemma growing_throw {A} : growing (@throw A).
Proof. intros s. apply grows_refl. Qed.

Lemma growing_lift {A} (o : outcome A) : growing (lift o).
Proof. intros s. apply grows_refl. Qed.

Lemma growing_get {A} (f : State -> A) : growing (get f).
Proof. intros s. apply grows_refl. Qed.

Lemma growing_bind {A B} (m : M A) (k : A -> M B) :
  growing m -> (forall a, growing (k a)) -> growing (bind m k).
Proof.
  intros Hm Hk s. unfold bind. specialize (Hm s).
  destruct (m s) as [[a|] s']; simpl in *; [|assumption].
  eapply grows_trans; [eassumption | apply Hk].
Qed.

Lemma growing_try_catch {A} (m h : M A) :
  growing m -> growing h -> growing (try_catch m h).
Proof.
  intros Hm Hh s. unfold try_catch. specialize (Hm s).
  destruct (m s) as [[a|] s']; simpl in *; [assumption|].
  eapply grows_trans; [eassumption | apply Hh].
Qed.

Lemma growing_settle {A} (m : M A) : growing m -> growing (settle m).
Proof.
  intros Hm s. unfold settle. specialize (Hm s).
  destruct (m s) as [[a|] s']; assumption.
Qed.

Lemma growing_modify (f : State -> State) :
  (forall s, grows s (f s)) -> growing (modify f).
Proof. intros H s. apply H. Qed.

Lemma growing_Date_now W : growing (Date_now W).
Proof.
  intros s. repeat split; simpl; [lia | exists []; reflexivity | lia].
Qed.

Lemma growing_fetch {B} r (answer : nat -> response B) : growing (fetch r answer).
Proof.
  intros s. repeat split; simpl; [lia | exists [r]; reflexivity | lia].
Qed.

Lemma growing_new_object : growing new_object.
Proof.
  intros s. repeat split; simpl; [lia | exists []; reflexivity | lia].
Qed.

Lemma growing_cache_set key snap : growing (cache_set key snap).
Proof.
  intros s. repeat split; simpl; [lia | exists []; reflexivity | lia].
Qed.

Lemma grows_set_poolsCache c t s : grows s (set_poolsCache c t s).
Proof. repeat split; simpl; [lia | exists []; reflexivity | lia]. Qed.

Lemma grows_set_stablecoinCache c t s : grows s (set_stablecoinCache c t s).
Proof. repeat split; simpl; [lia | exists []; reflexivity | lia]. Qed.

Lemma grows_set_fngCache c t s : grows s (set_fngCache c t s).
Proof. repeat split; simpl; [lia | exists []; reflexivity | lia]. Qed.

Lemma grows_set_NETWORKS n s : grows s (set_NETWORKS n s).
Proof. repeat split; simpl; [lia | exists []; reflexivity | lia]. Qed.

(** Every branch of a client is made of growing steps. *)
Ltac growing :=
  repeat first
    [ apply growing_ret | apply growing_throw | apply growing_lift
    | apply growing_get | apply growing_Date_now | apply growing_fetch
    | apply growing_new_object | apply growing_cache_set
    | assumption
    | match goal with H : forall _, growing _ |- _ => apply H end
    | apply growing_modify; intros;
      first [ apply grows_set_poolsCache | apply grows_set_stablecoinCache
            | apply grows_set_fngCache | apply grows_set_NETWORKS ]
    | apply growing_settle
    | apply growing_try_catch
    | apply growing_bind; [| intros]
    | match goal with
      | |- growing (match ?x with _ => _ end) => destruct x
      | |- growing (if ?x then _ else _) => destruct x
      | |- growing (let '(_, _) := ?x in _) => destruct x
      end ].

Lemma growing_fetch_json {A B} r (answer : nat -> response B)
    (not_ok : M A) (k : B -> M A) :
  growing not_ok -> (forall b, growing (k b)) -> growing (fetch_json r answer not_ok k).
Proof. intros H1 H2. unfold fetch_json. growing. Qed.

Lemma growing_fetchChainTVL W : growing (fetchChainTVL W).
Proof.
  unfold fetchChainTVL. growing.
Qed.

Lemma growing_fetchProtocols W : growing (fetchProtocols W).
Proof.
  unfold fetchProtocols. growing.
Qed.

Lemma growing_fetchChainProtocols W n : growing (fetchChainProtocols W n).
Proof.
  unfold fetchChainProtocols. pose proof (growing_fetchChainTVL W). growing.
Qed.

Lemma growing_fetchChainDEXVolume W n : growing (fetchChainDEXVolume W n).
Proof.
  unfold fetchChainDEXVolume. growing.
Qed.

Lemma growing_fetchChainFees W n : growing (fetchChainFees W n).
Proof.
  unfold fetchChainFees. growing.
Qed.

Lemma growing_fetchChainBridgeVolume W n : growing (fetchChainBridgeVolume W n).
Proof.
  unfold fetchChainBridgeVolume. growing.
Qed.

Lemma growing_fetchChainHistoricalTVL W n : growing (fetchChainHistoricalTVL W n).
Proof.
  unfold fetchChainHistoricalTVL. growing.
Qed.

Lemma growing_fetchNetworkDetails W n : growing (fetchNetworkDetails W n).
Proof.
  unfold fetchNetworkDetails, catch_default.
  pose proof (growing_fetchChainTVL W). pose proof (growing_fetchProtocols W).
  pose proof (growing_fetchChainProtocols W n).
  pose proof (growing_fetchChainDEXVolume W n).
  pose proof (growing_fetchChainFees W n).
  pose proof (growing_fetchChainBridgeVolume W n).
  pose proof (growing_fetchChainHistoricalTVL W n).
  growing.
Qed.

Lemma growing_fetchAllChains W : growing (fetchAllChains W).
Proof.
  unfold fetchAllChains. growing.
Qed.

Lemma growing_fetchCoinData W id : growing (fetchCoinData W id).
Proof.
  unfold fetchCoinData. growing.
Qed.

Lemma growing_fetchNetworkCoinData W n g : growing (fetchNetworkCoinData W n g).
Proof.
  unfold fetchNetworkCoinData. pose proof (growing_fetchCoinData W). growing.
Qed.

Lemma growing_fetchHistoricalPrice W id d : growing (fetchHistoricalPrice W id d).
Proof.
  unfold fetchHistoricalPrice. growing.
Qed.

Lemma growing_historicalPromise W net : growing (historicalPromise W net).
Proof.
  unfold historicalPromise. growing; apply growing_fetchHistoricalPrice.
Qed.

Lemma growing_searchTokens W q : growing (searchTokens W q).
Proof.
  unfold searchTokens. growing.
Qed.

Lemma growing_fetchChainTotalLiquidity W c : growing (fetchChainTotalLiquidity W c).
Proof.
  unfold fetchChainTotalLiquidity. growing.
Qed.

Lemma growing_dexscreenerPromise W net : growing (dexscreenerPromise W net).
Proof.
  unfold dexscreenerPromise, catch_default.
  pose proof (growing_fetchChainTotalLiquidity W (dexChainId (name net))).
  pose proof (growing_searchTokens W (orS (Some (symbol net)) (name net))).
  growing.
Qed.

Lemma growing_fetchStablecoinChains W : growing (fetchStablecoinChains W).
Proof.
  unfold fetchStablecoinChains. growing.
Qed.

Lemma growing_fetchChainStablecoinTVL W n : growing (fetchChainStablecoinTVL W n).
Proof.
  unfold fetchChainStablecoinTVL. pose proof (growing_fetchStablecoinChains W).
  growing.
Qed.

Lemma growing_fetchAllPools W : growing (fetchAllPools W).
Proof.
  unfold fetchAllPools. growing.
Qed.

Lemma growing_fetchChainYieldStats W n : growing (fetchChainYieldStats W n).
Proof.
  unfold fetchChainYieldStats. pose proof (growing_fetchAllPools W). growing.
Qed.

Lemma growing_fetchChainTopYields W n l : growing (fetchChainTopYields W n l).
Proof.
  unfold fetchChainTopYields. pose proof (growing_fetchAllPools W). growing.
Qed.

Lemma growing_fetchFearGreedIndex W : growing (fetchFearGreedIndex W).
Proof.
  unfold fetchFearGreedIndex. growing.
Qed.

(** ** Identity resolution *)

Lemma obj_get_In {V} (k : string) (v : V) (o : obj V) :
  obj_get k o = Some v -> In (k, v) o.
Proof.
  induction o as [|[k' v'] o IH]; simpl; [discriminate|].
  destruct (String.eqb_spec k k') as [->|Hne].
  - intros [= ->]. left. reflexivity.
  - intros H. right. apply IH, H.
Qed.

Lemma CHAIN_NAME_MAP_names_truthy (k : string) (info : chain_info) :
  obj_get k CHAIN_NAME_MAP = Some info -> truthyS (defillamaName info) = true.
Proof.
  intros H. apply obj_get_In in H.
  assert (HF : Forall (fun kv => truthyS (defillamaName (snd kv)) = true)
                 CHAIN_NAME_MAP)
    by (unfold CHAIN_NAME_MAP; repeat constructor).
  exact (proj1 (List.Forall_forall _ _) HF _ H).
Qed.

Lemma DEXSCREENER_ids_truthy (k id : string) :
  obj_get k DEXSCREENER_CHAIN_MAP = Some id -> truthyS id = true.
Proof.
  intros H. apply obj_get_In in H.
  assert (HF : Forall (fun kv => truthyS (snd kv) = true) DEXSCREENER_CHAIN_MAP)
    by (unfold DEXSCREENER_CHAIN_MAP; repeat constructor).
  exact (proj1 (List.Forall_forall _ _) HF _ H).
Qed.

Lemma COINGECKO_ids_truthy (k id : string) :
  obj_get k COINGECKO_IDS = Some id ->
  truthyS id = true /\ truthyS (js_trim id) = true.
Proof.
  intros H. apply obj_get_In in H.
  assert (HF : Forall (fun kv => truthyS (snd kv) = true /\
                                 truthyS (js_trim (snd kv)) = true) COINGECKO_IDS)
    by (unfold COINGECKO_IDS; repeat constructor).
  exact (proj1 (List.Forall_forall _ _) HF _ H).
Qed.

Lemma js_find_some {A} (p : A -> bool) (l : list A) (x : A) :
  js_find p l = Some x -> In x l /\ p x = true.
Proof. apply find_some. Qed.

Lemma find_key_ci_one {V} (n key : string) (o : obj V) :
  find_key_ci [n] o = Some key ->
  In key (obj_keys o) /\ toLowerCase key = toLowerCase n.
Proof.
  unfold find_key_ci. intros H. apply js_find_some in H as [Hin Hp].
  split; [assumption|]. simpl in Hp. rewrite orb_false_r in Hp.
  apply String.eqb_eq, Hp.
Qed.

(** C8, as stated, fails on the registry table: [CHAIN_NAME_MAP] lists
    "BSC" and "BNB Chain" as names of one entity (both are [altNames] of the
    entry "BSC"), yet the two names resolve to different registry names, and
    with a registry that lists the chain as "BSC" only the first one finds
    its value locked. *)
Lemma C8_alt_name_resolves_to_itself :
  (exists info, obj_get "BSC" CHAIN_NAME_MAP = Some info /\
                In "BSC" (altNames info) /\ In "BNB Chain" (altNames info)) /\
  defillamaChainNameOf "BSC" = "BSC" /\
  defillamaChainNameOf "BNB Chain" = "BNB Chain" /\
  defillamaChainNameOf "BSC" <> defillamaChainNameOf "BNB Chain" /\
  let tvlData :=
    tvlMap_of [{| c_name := Some "BSC"; c_tvl := Some 5%Q; c_tokenSymbol := None;
                  c_gecko_id := None; c_chainId := None |}] in
  option_map tvl (fst (locate_chain "BSC" tvlData)) = Some 5%Q /\
  fst (locate_chain "BNB Chain" tvlData) = None.
Proof.
  split; [|split; [|split; [|split]]].
  - eexists. split; [reflexivity|]. simpl. auto.
  - reflexivity.
  - reflexivity.
  - discriminate.
  - split; reflexivity.
Qed.

(** C8, amended: in the tables of DexScreener and CoinGecko, where "BSC"
    and "BNB Chain" are both keys, the two names resolve to the same
    identifier ("bsc", "binancecoin"); in [CHAIN_NAME_MAP] "BNB Chain" is
    not a key but an alternative name of "BSC", which is only tried when the
    value locked of "BSC" is looked up, so that "BSC" finds a registry entry
    filed under "BNB Chain". *)
Theorem C8_bsc_and_bnb_chain :
  dexChainId "BSC" = "bsc" /\ dexChainId "BNB Chain" = "bsc" /\
  getCoinGeckoId "BSC" = Some "binancecoin" /\
  getCoinGeckoId "BNB Chain" = Some "binancecoin" /\
  obj_get "BNB Chain" CHAIN_NAME_MAP = None /\
  forall entry : tvl_entry,
    locate_chain "BSC" [("BNB Chain", entry)] = (Some entry, "BNB Chain").
Proof.
  repeat split.
Qed.




(** ** Market share *)

Lemma obj_set_fresh {V} (k : string) (v : V) (o : obj V) :
  ~ In k (obj_keys o) -> obj_set k v o = o ++ [(k, v)].
Proof.
  induction o as [|[k' v'] o IH]; simpl; intros Hk; [reflexivity|].
  destruct (String.eqb_spec k k') as [->|Hne]; [tauto|].
  rewrite IH by tauto. reflexivity.
Qed.

Lemma fold_obj_set_nodup {A V} (key : A -> string) (val : A -> V)
    (l : list A) (acc : obj V) :
  List.NoDup (obj_keys acc ++ map key l) ->
  fold_left (fun o x => obj_set (key x) (val x) o) l acc
  = acc ++ map (fun x => (key x, val x)) l.
Proof.
  revert acc. induction l as [|x l IH]; intros acc Hnd; simpl.
  - symmetry. apply app_nil_r.
  - assert (Hx : ~ In (key x) (obj_keys acc)).
    { intros Hin. apply List.NoDup_remove_2 in Hnd. apply Hnd.
      apply in_or_app. left. assumption. }
    rewrite (obj_set_fresh _ _ _ Hx), IH.
    + rewrite <- app_assoc. reflexivity.
    + unfold obj_keys in *. rewrite map_app. simpl.
      rewrite <- app_assoc. simpl. assumption.
Qed.

Lemma fold_left_Qplus_acc (l : list Q) (a : Q) :
  (fold_left Qplus l a == a + fold_left Qplus l 0)%Q.
Proof.
  revert a. induction l as [|x l IH]; intros a; simpl.
  - ring.
  - rewrite IH, (IH (0 + x)%Q). ring.
Qed.

Lemma sumQ_cons (x : Q) (l : list Q) : (sumQ (x :: l) == x + sumQ l)%Q.
Proof.
  unfold sumQ. simpl. rewrite fold_left_Qplus_acc. ring.
Qed.

Lemma fold_left_sum_map {A} (f : A -> Q) (l : list A) (a : Q) :
  fold_left (fun sum x => sum + f x)%Q l a = fold_left Qplus (map f l) a.
Proof.
  revert a. induction l as [|x l IH]; intros a; simpl; [reflexivity | apply IH].
Qed.

Lemma sumQ_scaled {A} (f : A -> Q) (c : Q) (l : list A) :
  (sumQ (map (fun x => f x / c * 100) l) == sumQ (map f l) / c * 100)%Q.
Proof.
  induction l as [|x l IH].
  - unfold sumQ. simpl. unfold Qdiv. ring.
  - simpl. rewrite !sumQ_cons, IH. unfold Qdiv. ring.
Qed.



(** ** Liquidity *)

(** C5, as stated, fails: the fallback adds the first ten pairs of the
    search response, in the order of the response, and not the ten pairs of
    highest liquidity.  With eleven pairs of which the last is the richest
    the lookup returns 10 where the ten highest sum to 109. *)
Lemma C5_first_ten_not_ten_highest :
  exists r s',
    dexscreenerPromise search_only_world ethereum initial_state = (Returned (Some r), s') /\
    (totalLiquidity r == 10)%Q /\ pairCount r = 11%nat /\
    (sum_liquidity (ten_highest eleven_pairs) == 109)%Q /\
    ~ (totalLiquidity r == sum_liquidity (ten_highest eleven_pairs))%Q.
Proof.
  eexists. eexists. split; [vm_compute; reflexivity|].
  split; [reflexivity|]. split; [reflexivity|]. split; [reflexivity|].
  vm_compute. discriminate.
Qed.

(** C5, amended: the lookup first asks for the pairs of the chain; exactly
    when that call yields nothing (it failed, or the body has no array of
    pairs) or a total that is not positive, it searches for the symbol (the
    name when the symbol is empty) and adds [liquidity.usd] over the first
    ten pairs of the response, in the order of the response; the result
    carries that sum with the number of all pairs of the response, and is
    [null] when the sum is not positive or the search failed.  Nothing is
    thrown. *)
Theorem C5_liquidity_two_tiers (W : World) (net : network) (s : State) :
  let chainId := dexChainId (name net) in
  let query := orS (Some (symbol net)) (name net) in
  let n := List.length (requests s) in
  let direct := direct_liquidity (http_pairs W chainId n) in
  let searched := body_of (http_search W query (S n)) in
  (forall l, direct = Some l -> positive (totalLiquidity l) = true ->
     dexscreenerPromise W net s
     = (Returned (Some l), set_requests (GET_pairs chainId :: requests s) s)) /\
  ((direct = None \/
    exists l, direct = Some l /\ positive (totalLiquidity l) = false) ->
     dexscreenerPromise W net s
     = (Returned (search_liquidity searched),
        set_requests (GET_search query :: GET_pairs chainId :: requests s) s)) /\
  (forall ps, option_map pairs searched = Some (Some ps) ->
     search_liquidity searched
     = if positive (sum_liquidity (slice0 10 ps))
       then Some {| totalLiquidity := sum_liquidity (slice0 10 ps);
                    pairCount := List.length ps |}
       else None) /\
  (option_map pairs searched = None \/ option_map pairs searched = Some None ->
     search_liquidity searched = None).
Proof.
  intros chainId query n direct searched.
  assert (Hsearch : forall s1 : State,
            List.length (requests s1) = S n ->
            (searchResult <- catch_default (searchTokens W query) None ;;
             ret (search_liquidity searchResult)) s1
            = (Returned (search_liquidity searched),
               set_requests (GET_search query :: requests s1) s1)).
  { intros s1 Hs1. run. rewrite Hs1. unfold searched, body_of.
    destruct (http_search W query (S n)); reflexivity. }
  assert (Hfirst : catch_default (fetchChainTotalLiquidity W chainId) None s
                   = (Returned direct,
                      set_requests (GET_pairs chainId :: requests s) s)).
  { run. unfold direct, direct_liquidity, body_of. fold n.
    destruct (http_pairs W chainId n) as [| | |data]; try reflexivity.
    destruct (pairs data); reflexivity. }
  split; [|split; [|split]].
  - intros l Hd Hp. unfold dexscreenerPromise. fold chainId.
    unfold catch_default at 1. unfold try_catch at 1. unfold bind at 1.
    rewrite Hfirst, Hd, Hp. reflexivity.
  - intros Hd. unfold dexscreenerPromise. fold chainId. fold query.
    unfold catch_default at 1. unfold try_catch at 1. unfold bind at 1.
    rewrite Hfirst.
    destruct Hd as [-> | (l & -> & Hp)]; [|rewrite Hp];
      rewrite Hsearch by reflexivity; reflexivity.
  - intros ps Hps. destruct searched as [r|]; [|discriminate].
    simpl in Hps. injection Hps as Hps. unfold search_liquidity. rewrite Hps.
    destruct ps as [|p ps']; reflexivity.
  - intros [H|H]; destruct searched as [r|]; try discriminate; try reflexivity.
    simpl in H. injection H as H. unfold search_liquidity. rewrite H. reflexivity.
Qed.

(** C5 on the world in which only the search answers. *)
Lemma C5_liquidity_two_tiers_witness :
  exists r,
    dexscreenerPromise search_only_world ethereum initial_state
    = (Returned r,
       set_requests [GET_search "ETH"; GET_pairs "ethereum"] initial_state) /\
    r = search_liquidity (Some {| pairs := Some eleven_pairs |}).
Proof.
  eexists. split; [|reflexivity].
  destruct (C5_liquidity_two_tiers search_only_world ethereum initial_state)
    as (_ & Hfallback & _).
  apply Hfallback. left. reflexivity.
Defined.

(** ** The caches of the provider clients *)

Lemma served_hit {A} (cached : A) (cacheTime ttl t : Z) :
  (t - cacheTime < ttl)%Z -> served (Some cached) cacheTime ttl t = Some cached.
Proof.
  intros H. unfold served, fresh.
  destruct (Z.ltb_spec (t - cacheTime) ttl); [reflexivity | lia].
Qed.

Lemma served_miss {A} (cache : option A) (cacheTime ttl t : Z) :
  cache = None \/ (ttl <= t - cacheTime)%Z -> served cache cacheTime ttl t = None.
Proof.
  intros H. unfold served, fresh. destruct cache as [c|]; [|reflexivity].
  destruct (Z.ltb_spec (t - cacheTime) ttl); [|reflexivity].
  destruct H as [H|H]; [discriminate | lia].
Qed.

(** C3, as stated, fails: a failed fetch is not stored.  With every provider
    down, each of the three clients returns its default and leaves its cache
    empty with the time stamp 0, and the next call, a millisecond later,
    issues the request again. *)
Lemma C3_failed_fetch_not_cached :
  (let s1 := snd (fetchAllPools down_world initial_state) in
   fst (fetchAllPools down_world initial_state) = Returned [] /\
   poolsCache s1 = None /\ poolsCacheTime s1 = 0%Z /\
   requests (snd (fetchAllPools down_world s1)) = [GET_pools; GET_pools]) /\
  (let s1 := snd (fetchStablecoinChains down_world initial_state) in
   fst (fetchStablecoinChains down_world initial_state) = Returned [] /\
   stablecoinChainsCache s1 = None /\ stablecoinCacheTime s1 = 0%Z /\
   requests (snd (fetchStablecoinChains down_world s1))
   = [GET_stablecoinchains; GET_stablecoinchains]) /\
  (let s1 := snd (fetchFearGreedIndex down_world initial_state) in
   fst (fetchFearGreedIndex down_world initial_state) = Returned None /\
   fngCache s1 = None /\ fngCacheTime s1 = 0%Z /\
   requests (snd (fetchFearGreedIndex down_world s1)) = [GET_fng; GET_fng]).
Proof. repeat split. Qed.

(** C3, amended: a call is served from the cache exactly when a payload
    exists and [now - fetchedAt < TTL]; then no request is issued.
    Otherwise the client issues one request.  When the request succeeds the
    result is stored with the time read at the start of the call: always for
    the yield pools and the stablecoin chains (an empty payload included),
    and for the fear-and-greed index when the response holds at least one
    entry.  When the request fails the default payload is returned and the
    cache and its time stamp are left as they were, so that the next call
    issues the request again. *)
Theorem C3_provider_caches (W : World) (s : State) :
  let t := now W (ticks s) in
  let s0 := set_ticks (S (ticks s)) s in
  let k := List.length (requests s) in
  ((forall cached, poolsCache s = Some cached ->
      (t - poolsCacheTime s < POOLS_CACHE_TTL)%Z ->
      fetchAllPools W s = (Returned cached, s0)) /\
   (poolsCache s = None \/ (POOLS_CACHE_TTL <= t - poolsCacheTime s)%Z ->
      fetchAllPools W s
      = match http_pools W k with
        | Json data =>
            let pools := default [] (pools_data data) in
            (Returned pools,
             set_poolsCache pools t (set_requests (GET_pools :: requests s) s0))
        | _ => (Returned [], set_requests (GET_pools :: requests s) s0)
        end)) /\
  ((forall cached, stablecoinChainsCache s = Some cached ->
      (t - stablecoinCacheTime s < STABLECOIN_CACHE_TTL)%Z ->
      fetchStablecoinChains W s = (Returned cached, s0)) /\
   (stablecoinChainsCache s = None \/
    (STABLECOIN_CACHE_TTL <= t - stablecoinCacheTime s)%Z ->
      fetchStablecoinChains W s
      = match http_stablecoinchains W k with
        | Json data =>
            (Returned (chainMap_of data),
             set_stablecoinCache (chainMap_of data) t
               (set_requests (GET_stablecoinchains :: requests s) s0))
        | _ => (Returned [], set_requests (GET_stablecoinchains :: requests s) s0)
        end)) /\
  ((forall cached, fngCache s = Some cached ->
      (t - fngCacheTime s < FNG_CACHE_TTL)%Z ->
      fetchFearGreedIndex W s = (Returned (Some cached), s0)) /\
   (fngCache s = None \/ (FNG_CACHE_TTL <= t - fngCacheTime s)%Z ->
      fetchFearGreedIndex W s
      = match option_map fng_of (body_of (http_fng W k)) with
        | Some (Some result) =>
            (Returned (Some result),
             set_fngCache result t (set_requests (GET_fng :: requests s) s0))
        | _ => (Returned None, set_requests (GET_fng :: requests s) s0)
        end)).
Proof.
  intros t s0 k. subst t s0 k. repeat split.
  - intros cached Hc Ht. run. rewrite Hc, (served_hit _ _ _ _ Ht). reflexivity.
  - intros Hm. run. rewrite (served_miss _ _ _ _ Hm). destruct (http_pools W _); reflexivity.
  - intros cached Hc Ht. run. rewrite Hc, (served_hit _ _ _ _ Ht). reflexivity.
  - intros Hm. run. rewrite (served_miss _ _ _ _ Hm). destruct (http_stablecoinchains W _); reflexivity.
  - intros cached Hc Ht. run. rewrite Hc, (served_hit _ _ _ _ Ht). reflexivity.
  - intros Hm. run. rewrite (served_miss _ _ _ _ Hm). destruct (http_fng W _) as [| | |data]; try reflexivity.
    simpl. destruct (fng_of data); reflexivity.
Qed.

(** C3 with the yields provider down and a cache that has never been
    filled: the default is returned and nothing is stored. *)
Lemma C3_provider_caches_witness :
  fetchAllPools down_world initial_state
  = (Returned [],
     set_requests [GET_pools] (set_ticks 1 initial_state)).
Proof.
  destruct (C3_provider_caches down_world initial_state) as ((_ & Hmiss) & _).
  apply Hmiss. left. reflexivity.
Defined.

(** ** Numeric fields *)

(** Where the clients write [value || 0], an absent field is 0. *)
Lemma absent_fields_default_to_zero :
  dex_volume_of {| totalVolume := None; totalVolume7d := None;
                   dexs_change_1d := None; dexs_change_7d := None;
                   dexs_protocols := None |}
  = {| volume24h := 0; volume7d := 0; change_1d := 0; change_7d := 0;
       protocolCount := 0; dv_protocols := [] |} /\
  chain_fees_of {| totalFees24h := None; totalFees7d := None;
                   totalRevenue24h := None; totalRevenue7d := None;
                   fees_change_1d := None; fees_change_7d := None |}
  = {| fees24h := 0; fees7d := 0; revenue24h := 0; revenue7d := 0;
       cf_change_1d := 0; cf_change_7d := 0 |} /\
  bridge_volume_of {| bridges := None |}
  = {| bv_volume24h := 0; bv_volume7d := 0; bv_volume30d := 0; bridgeCount := 0 |}.
Proof. repeat split. Qed.

(** C6 does not hold of the code.  [fetchChainHistoricalTVL] divides by the
    earlier value without a guard: a history of one point with nothing
    locked gives [NaN] for both changes, a rise from 0 gives [Infinity],
    which [fetchNetworkDetails] passes on as [tvlChange1d], and a point
    without [tvl] gives [NaN].  [fetchFearGreedIndex] returns
    [parseInt(undefined)], which is [NaN], for an entry without [value], and
    stores it in its cache; [getFearGreedColor] then paints it as greed. *)
Theorem C6_unguarded_division_and_parseInt :
  (exists h,
     fst (fetchChainHistoricalTVL flat_history_world "Ethereum" initial_state)
     = Returned (Some h) /\
     change1d h = NaN /\ change7d h = NaN) /\
  (exists h,
     fst (fetchChainHistoricalTVL from_zero_world "Ethereum" initial_state)
     = Returned (Some h) /\
     change1d h = PInf /\ is_finite (change1d h) = false) /\
  (exists d,
     fst (fetchNetworkDetails from_zero_world "Ethereum" initial_state)
     = Returned (Details d) /\
     d_tvlChange1d d = PInf) /\
  (exists h,
     fst (fetchChainHistoricalTVL missing_tvl_world "Ethereum" initial_state)
     = Returned (Some h) /\
     change1d h = NaN) /\
  (exists r s',
     fetchFearGreedIndex missing_value_world initial_state
     = (Returned (Some r), s') /\
     fr_value r = NaN /\ is_finite (fr_value r) = false /\
     fngCache s' = Some r /\
     getFearGreedColor (fr_value r) = "#16c784").
Proof.
  split; [|split; [|split; [|split]]].
  - eexists. split; [vm_compute; reflexivity|]. split; reflexivity.
  - eexists. split; [vm_compute; reflexivity|]. split; reflexivity.
  - eexists. split; [vm_compute; reflexivity|]. reflexivity.
  - eexists. split; [vm_compute; reflexivity|]. reflexivity.
  - eexists. eexists. split; [vm_compute; reflexivity|]. repeat split.
Qed.

(** ** The snapshot when every provider fails *)

Lemma quiet_refl s : quiet s s.
Proof. unfold quiet. repeat split; auto. Qed.

Lemma quiet_trans a b c : quiet a b -> quiet b c -> quiet a c.
Proof.
  unfold quiet. intros (?&?&?&?&?&?&?&?&?&?) (?&?&?&?&?&?&?&?&?&?).
  repeat split; try congruence. lia.
Qed.

Lemma quiet_set_requests r s : quiet s (set_requests r s).
Proof. unfold quiet. repeat split; auto. Qed.

Lemma quiet_set_ticks s : quiet s (set_ticks (S (ticks s)) s).
Proof. unfold quiet. simpl. repeat split; auto with arith. Qed.

Lemma quietly_ret {A} (v : A) : quietly (ret v) v.
Proof. intros s. exists s. split; [reflexivity | apply quiet_refl]. Qed.

Lemma quietly_bind {A B} (m : M A) (k : A -> M B) (v : A) (w : B) :
  quietly m v -> quietly (k v) w -> quietly (bind m k) w.
Proof.
  intros Hm Hk s. destruct (Hm s) as (s1 & E1 & Q1).
  destruct (Hk s1) as (s2 & E2 & Q2). exists s2. unfold bind. rewrite E1.
  split; [assumption | eapply quiet_trans; eassumption].
Qed.

Lemma quietly_try_catch {A} (m h : M A) (v : A) :
  quietly m v -> quietly (try_catch m h) v.
Proof.
  intros Hm s. destruct (Hm s) as (s1 & E1 & Q1). exists s1.
  unfold try_catch. rewrite E1. split; [reflexivity | assumption].
Qed.

Lemma quietly_settle {A} (m : M A) (v : A) :
  quietly m v -> quietly (settle m) (Some v).
Proof.
  intros Hm s. destruct (Hm s) as (s1 & E1 & Q1). exists s1.
  unfold settle. rewrite E1. split; [reflexivity | assumption].
Qed.

(** A client that throws when the response is not usable and whose [catch]
    block returns [v]. *)
Lemma quietly_failed_fetch {A B} (r : request) (answer : nat -> response B)
    (not_ok : M A) (k : B -> M A) (v : A) :
  (forall i, failed (answer i)) ->
  not_ok = throw \/ not_ok = ret v ->
  quietly (try_catch (fetch_json r answer not_ok k) (ret v)) v.
Proof.
  intros Hf Hn s. exists (set_requests (r :: requests s) s).
  split; [|apply quiet_set_requests].
  specialize (Hf (List.length (requests s))).
  unfold try_catch, fetch_json, bind, fetch.
  destruct (answer (List.length (requests s))); simpl in Hf; try contradiction;
    try reflexivity.
  destruct Hn as [-> | ->]; reflexivity.
Qed.

Section AllDown.

Variable W : World.
Hypothesis Hdown : all_down W.

Lemma fetchChainTVL_down : quietly (fetchChainTVL W) [].
Proof.
  apply quietly_failed_fetch; [apply Hdown | left; reflexivity].
Qed.

Lemma fetchProtocols_down : quietly (fetchProtocols W) no_counts.
Proof.
  apply quietly_failed_fetch; [apply Hdown | left; reflexivity].
Qed.

Lemma fetchChainProtocols_down n : quietly (fetchChainProtocols W n) [].
Proof.
  unfold fetchChainProtocols. intros s.
  assert (Hp : forall name : string,
             quietly (try_catch
                        (fetch_json GET_protocols (http_protocols W) (ret [])
                           (fun allProtocols =>
                              ret (chainProtocols_of name allProtocols)))
                        (ret [])) []).
  { intros name. apply quietly_failed_fetch; [apply Hdown | right; reflexivity]. }
  destruct (obj_get n CHAIN_NAME_MAP).
  - destruct (Hp (defillamaChainNameOf n) s) as (s1 & E1 & Q1).
    exists s1. split; [|assumption].
    unfold try_catch, bind, ret in *. simpl in *. exact E1.
  - destruct (fetchChainTVL_down s) as (s1 & E1 & Q1).
    destruct (Hp (resolveChainName n []) s1) as (s2 & E2 & Q2).
    exists s2. split; [|eapply quiet_trans; eassumption].
    unfold try_catch, bind, ret in *. rewrite E1. simpl in *. exact E2.
Qed.

Lemma fetchChainDEXVolume_down n : quietly (fetchChainDEXVolume W n) None.
Proof.
  apply quietly_failed_fetch; [apply Hdown | right; reflexivity].
Qed.

Lemma fetchChainFees_down n : quietly (fetchChainFees W n) None.
Proof.
  apply quietly_failed_fetch; [apply Hdown | right; reflexivity].
Qed.

Lemma fetchChainBridgeVolume_down n : quietly (fetchChainBridgeVolume W n) None.
Proof.
  apply quietly_failed_fetch; [apply Hdown | right; reflexivity].
Qed.

Lemma fetchChainHistoricalTVL_down n : quietly (fetchChainHistoricalTVL W n) None.
Proof.
  apply quietly_failed_fetch; [apply Hdown | right; reflexivity].
Qed.

Lemma fetchNetworkDetails_down n :
  quietly (fetchNetworkDetails W n)
    (Details (details_of n [] no_counts [] None None None None)).
Proof.
  unfold fetchNetworkDetails. apply quietly_try_catch.
  eapply quietly_bind; [apply fetchChainTVL_down|].
  eapply quietly_bind; [apply fetchProtocols_down|].
  eapply quietly_bind; [apply fetchChainProtocols_down|].
  eapply quietly_bind; [apply quietly_try_catch, fetchChainDEXVolume_down|].
  eapply quietly_bind; [apply quietly_try_catch, fetchChainFees_down|].
  eapply quietly_bind; [apply quietly_try_catch, fetchChainBridgeVolume_down|].
  eapply quietly_bind; [apply quietly_try_catch, fetchChainHistoricalTVL_down|].
  apply quietly_ret.
Qed.

Lemma fetchCoinData_down id : quietly (fetchCoinData W id) None.
Proof.
  apply quietly_failed_fetch; [apply Hdown | left; reflexivity].
Qed.

(** [fetchNetworkCoinData] delivers nothing: it returns [null] or throws;
    either way neither caller has a price to show. *)
Lemma fetchNetworkCoinData_down n g s :
  exists o s',
    fetchNetworkCoinData W n g s = (o, s') /\
    (o = Returned None \/ o = Thrown) /\ quiet s s'.
Proof.
  unfold fetchNetworkCoinData, bind, lift.
  destruct (coinIdOf n g) as [[id|]|].
  - destruct (quietly_try_catch _ (ret None) _ (fetchCoinData_down id) s)
      as (s' & E & Q).
    exists (Returned None), s'. split; [exact E|]. split; [left; reflexivity | exact Q].
  - exists (Returned None), s. split; [reflexivity|].
    split; [left; reflexivity | apply quiet_refl].
  - exists Thrown, s. split; [reflexivity|].
    split; [right; reflexivity | apply quiet_refl].
Qed.

Lemma coingeckoPromise_down n g s :
  exists s',
    catch_default (fetchNetworkCoinData W n g) None s = (Returned None, s') /\
    (exists v, settle (fetchNetworkCoinData W n g) s = (Returned v, s') /\
               default None v = None) /\
    quiet s s'.
Proof.
  destruct (fetchNetworkCoinData_down n g s) as (o & s' & E & [-> | ->] & Q);
    exists s'; unfold catch_default, try_catch, settle; rewrite E;
    (split; [reflexivity|]); (split; [|exact Q]); eexists;
    (split; [reflexivity|]); reflexivity.
Qed.

Lemma historicalPromise_down net : quietly (historicalPromise W net) None.
Proof.
  unfold historicalPromise. destruct (orNullS (net_geckoId net)).
  - apply quietly_failed_fetch; [apply Hdown | left; reflexivity].
  - apply quietly_ret.
Qed.

Lemma searchTokens_down q : quietly (searchTokens W q) None.
Proof.
  apply quietly_failed_fetch; [apply Hdown | left; reflexivity].
Qed.

Lemma fetchChainTotalLiquidity_down c : quietly (fetchChainTotalLiquidity W c) None.
Proof.
  apply quietly_failed_fetch; [apply Hdown | right; reflexivity].
Qed.

Lemma dexscreenerPromise_down net : quietly (dexscreenerPromise W net) None.
Proof.
  unfold dexscreenerPromise. apply quietly_try_catch.
  eapply quietly_bind; [apply quietly_try_catch, fetchChainTotalLiquidity_down|].
  eapply quietly_bind; [apply quietly_try_catch, searchTokens_down|].
  apply quietly_ret.
Qed.

End AllDown.

Lemma fresh_later {A} (cache : option A) (cacheTime ttl t t' : Z) :
  fresh cache cacheTime ttl t = false -> (t <= t')%Z ->
  fresh cache cacheTime ttl t' = false.
Proof.
  unfold fresh. destruct cache; [|reflexivity].
  intros H Ht. apply Z.ltb_ge in H. apply Z.ltb_ge. lia.
Qed.

Lemma expired_later (W : World) (s s' : State) :
  monotone_clock W -> quiet s s' ->
  provider_caches_expired s (now W (ticks s)) ->
  provider_caches_expired s' (now W (ticks s')).
Proof.
  intros Hmono (E1 & E2 & E3 & E4 & E5 & E6 & _ & _ & _ & Hticks) (H1 & H2 & H3).
  unfold provider_caches_expired. rewrite E1, E2, E3, E4, E5, E6.
  pose proof (Hmono _ _ Hticks) as Hle.
  repeat split; eapply fresh_later; eassumption.
Qed.

Lemma bind_run {A B} (m : M A) (k : A -> M B) (s s1 : State) (v : A) :
  m s = (Returned v, s1) -> bind m k s = k v s1.
Proof. intros E. unfold bind. rewrite E. reflexivity. Qed.

Lemma bind_settle_run {A B} (m : M A) (k : option A -> M B) (s s1 : State) (v : A) :
  m s = (Returned v, s1) -> bind (settle m) k s = k (Some v) s1.
Proof. intros E. unfold bind, settle. rewrite E. reflexivity. Qed.

Lemma bind_catch_run {A B} (m : M A) (d : A) (k : A -> M B) (s s1 : State) (v : A) :
  m s = (Returned v, s1) -> bind (catch_default m d) k s = k v s1.
Proof. intros E. unfold bind, catch_default, try_catch. rewrite E. reflexivity. Qed.

Lemma try_catch_run {A} (m h : M A) (s s1 : State) (v : A) :
  m s = (Returned v, s1) -> try_catch m h s = (Returned v, s1).
Proof. intros E. unfold try_catch. rewrite E. reflexivity. Qed.

Lemma yieldStats_of_nil n : yieldStats_of n [] = None.
Proof. reflexivity. Qed.

Lemma find_alt_nil alts : find_alt [] alts = None.
Proof. induction alts; [reflexivity | assumption]. Qed.

Lemma details_tvl_nothing_listed n pc tp dx fe br hi :
  d_tvl (details_of n [] pc tp dx fe br hi) = 0%Q.
Proof.
  unfold details_of, locate_chain.
  remember (obj_get n CHAIN_NAME_MAP) as chainInfo.
  remember (defillamaChainNameOf n) as mapped.
  simpl. destruct chainInfo as [info|]; [rewrite find_alt_nil|]; reflexivity.
Qed.

Section AllDownCached.

Variable W : World.
Hypothesis Hdown : all_down W.

Lemma fetchAllPools_down s :
  fresh (poolsCache s) (poolsCacheTime s) POOLS_CACHE_TTL (now W (ticks s)) = false ->
  exists s', fetchAllPools W s = (Returned [], s') /\ quiet s s'.
Proof.
  intros Hx. run. unfold served. rewrite Hx. simpl.
  assert (Hf := proj1 (proj2 (proj2 (proj2 (proj2 (proj2 (proj2 (proj2
                   (proj2 (proj2 (proj2 (proj2 Hdown)))))))))))
                  (List.length (requests s))).
  destruct (http_pools W (List.length (requests s))); try contradiction;
    (eexists; split; [reflexivity|];
     unfold quiet; simpl; repeat split; auto with arith).
Qed.

Lemma fetchStablecoinChains_down s :
  fresh (stablecoinChainsCache s) (stablecoinCacheTime s) STABLECOIN_CACHE_TTL
    (now W (ticks s)) = false ->
  exists s', fetchStablecoinChains W s = (Returned [], s') /\ quiet s s'.
Proof.
  intros Hx. run. unfold served. rewrite Hx. simpl.
  assert (Hf := proj1 (proj2 (proj2 (proj2 (proj2 (proj2 (proj2 (proj2
                   (proj2 (proj2 (proj2 Hdown))))))))))
                  (List.length (requests s))).
  destruct (http_stablecoinchains W (List.length (requests s)));
    try contradiction;
    (eexists; split; [reflexivity|];
     unfold quiet; simpl; repeat split; auto with arith).
Qed.

Lemma fetchFearGreedIndex_down s :
  fresh (fngCache s) (fngCacheTime s) FNG_CACHE_TTL (now W (ticks s)) = false ->
  exists s', fetchFearGreedIndex W s = (Returned None, s') /\ quiet s s'.
Proof.
  intros Hx. run. unfold served. rewrite Hx. simpl.
  assert (Hf := proj2 (proj2 (proj2 (proj2 (proj2 (proj2 (proj2 (proj2
                   (proj2 (proj2 (proj2 (proj2 Hdown)))))))))))
                  (List.length (requests s))).
  destruct (http_fng W (List.length (requests s))); try contradiction;
    (eexists; split; [reflexivity|];
     unfold quiet; simpl; repeat split; auto with arith).
Qed.

Lemma fetchChainStablecoinTVL_down n s :
  fresh (stablecoinChainsCache s) (stablecoinCacheTime s) STABLECOIN_CACHE_TTL
    (now W (ticks s)) = false ->
  exists s', fetchChainStablecoinTVL W n s = (Returned 0%Q, s') /\ quiet s s'.
Proof.
  intros Hx. destruct (fetchStablecoinChains_down s Hx) as (s1 & E1 & Q1).
  exists s1. split; [|assumption]. unfold fetchChainStablecoinTVL.
  apply try_catch_run. rewrite (bind_run _ _ _ _ _ E1). reflexivity.
Qed.

Lemma fetchChainYieldStats_down n s :
  fresh (poolsCache s) (poolsCacheTime s) POOLS_CACHE_TTL (now W (ticks s)) = false ->
  exists s', fetchChainYieldStats W n s = (Returned None, s') /\ quiet s s'.
Proof.
  intros Hx. destruct (fetchAllPools_down s Hx) as (s1 & E1 & Q1).
  exists s1. split; [|assumption]. unfold fetchChainYieldStats.
  apply try_catch_run. rewrite (bind_run _ _ _ _ _ E1). reflexivity.
Qed.

Lemma fetchChainTopYields_down n l s :
  fresh (poolsCache s) (poolsCacheTime s) POOLS_CACHE_TTL (now W (ticks s)) = false ->
  exists s', fetchChainTopYields W n l s = (Returned [], s') /\ quiet s s'.
Proof.
  intros Hx. destruct (fetchAllPools_down s Hx) as (s1 & E1 & Q1).
  exists s1. split; [|assumption]. unfold fetchChainTopYields.
  apply try_catch_run. rewrite (bind_run _ _ _ _ _ E1).
  unfold topYields_of. simpl. destruct l; reflexivity.
Qed.

End AllDownCached.



(** ** The snapshot cache *)

Lemma run_ok {A} (m : M A) (s : State) :
  returns m -> growing m -> exists v s1, m s = (Returned v, s1) /\ grows s s1.
Proof.
  intros Hr Hg. destruct (returns_inv m s Hr) as (v & s1 & E).
  exists v, s1. split; [assumption|]. specialize (Hg s). rewrite E in Hg. exact Hg.
Qed.

Lemma growing_catch_default {A} (m : M A) (d : A) :
  growing m -> growing (catch_default m d).
Proof. intros H. unfold catch_default. growing. Qed.

Lemma fetchChainTVL_logs W s :
  requests (snd (fetchChainTVL W s)) = GET_chains :: requests s.
Proof. run. destruct (http_chains W _); reflexivity. Qed.

Lemma fetchNetworkDetails_logs W n s :
  exists l, requests (snd (fetchNetworkDetails W n s)) = l ++ GET_chains :: requests s.
Proof.
  pose proof (fetchChainTVL_logs W s) as Hlog.
  unfold fetchNetworkDetails, try_catch at 1, bind at 1.
  destruct (fetchChainTVL W s) as [[tvlData|] s1] eqn:E1; simpl in Hlog.
  - match goal with
    | |- context [let (_, _) := ?m s1 in _] =>
        assert (Hg : grows s1 (snd (m s1)));
        [| destruct (m s1) as [[d|] s2]; simpl in *;
           destruct Hg as (_ & [l Hl] & _); exists l; rewrite Hl, Hlog; reflexivity ]
    end.
    pose proof (growing_fetchProtocols W). pose proof (growing_fetchChainProtocols W n).
    pose proof (growing_fetchChainDEXVolume W n). pose proof (growing_fetchChainFees W n).
    pose proof (growing_fetchChainBridgeVolume W n).
    pose proof (growing_fetchChainHistoricalTVL W n).
    match goal with
    | |- grows s1 (snd (?m s1)) => assert (Hm : growing m); [|apply Hm]
    end.
    unfold catch_default. growing.
  - exists []. simpl. rewrite Hlog. reflexivity.
Qed.

(** The refresh of [StatsCard] always stores a new snapshot object, stamped
    with a reading of the clock later than those before it, after having
    asked the registry again. *)
Lemma StatsCard_refresh_stores W net s :
  exists snap s',
    StatsCard_refresh W net s = (Returned (Refreshed snap), s') /\
    networkDataCache s' !! name net = Some snap /\
    (exists k, (ticks s <= k)%nat /\ fetchedAt snap = now W k) /\
    (next_oid s <= oid snap < next_oid s')%nat /\
    (exists l, requests s' = l ++ GET_chains :: requests s).
Proof.
  destruct (run_ok (fetchNetworkDetails W (name net)) s) as (v1 & s1 & E1 & G1);
    [auto with returns | apply growing_fetchNetworkDetails |].
  destruct (run_ok (catch_default
                      (fetchNetworkCoinData W (name net) (net_geckoId net)) None) s1)
    as (v2 & s2 & E2 & G2);
    [auto with returns
    | apply growing_catch_default, growing_fetchNetworkCoinData |].
  destruct (run_ok (catch_default (historicalPromise W net) None) s2)
    as (v3 & s3 & E3 & G3);
    [auto with returns | apply growing_catch_default, growing_historicalPromise |].
  destruct (run_ok (dexscreenerPromise W net) s3) as (v4 & s4 & E4 & G4);
    [auto with returns | apply growing_dexscreenerPromise |].
  destruct (run_ok (catch_default (fetchChainStablecoinTVL W (name net)) 0%Q) s4)
    as (v5 & s5 & E5 & G5);
    [auto with returns
    | apply growing_catch_default, growing_fetchChainStablecoinTVL |].
  destruct (run_ok (catch_default (fetchChainYieldStats W (name net)) None) s5)
    as (v6 & s6 & E6 & G6);
    [auto with returns | apply growing_catch_default, growing_fetchChainYieldStats |].
  destruct (run_ok (catch_default
                      (l <- fetchChainTopYields W (name net) 3 ;; ret (Some l))
                      None) s6)
    as (v7 & s7 & E7 & G7);
    [auto with returns
    | apply growing_catch_default;
      pose proof (growing_fetchChainTopYields W (name net) 3); growing |].
  destruct (run_ok (catch_default (fetchFearGreedIndex W) None) s7)
    as (v8 & s8 & E8 & G8);
    [auto with returns | apply growing_catch_default, growing_fetchFearGreedIndex |].
  assert (G : grows s s8).
  { repeat (eapply grows_trans; [eassumption|]). apply grows_refl. }
  destruct G as (Gt & Gr & Go).
  eexists. eexists. split; [|split; [|split; [|split]]].
  - unfold StatsCard_refresh. apply try_catch_run.
    rewrite (bind_run _ _ _ _ _ E1), (bind_run _ _ _ _ _ E2),
      (bind_run _ _ _ _ _ E3), (bind_run _ _ _ _ _ E4),
      (bind_run _ _ _ _ _ E5), (bind_run _ _ _ _ _ E6),
      (bind_run _ _ _ _ _ E7), (bind_run _ _ _ _ _ E8).
    reflexivity.
  - simpl. apply lookup_insert_eq.
  - simpl. exists (ticks s8). split; [assumption | reflexivity].
  - simpl. lia.
  - simpl. destruct (fetchNetworkDetails_logs W (name net) s) as [l1 Hl1].
    rewrite E1 in Hl1. simpl in Hl1.
    assert (G18 : grows s1 s8).
    { repeat (eapply grows_trans; [eassumption|]). apply grows_refl. }
    destruct G18 as (_ & [l2 Hl2] & _). exists (l2 ++ l1).
    rewrite Hl2, Hl1. apply app_assoc.
Qed.

Lemma CACHE_MAX_AGE_positive : (0 < CACHE_MAX_AGE)%Z.
Proof. reflexivity. Qed.

(** C2, as stated, fails: two lookups within the window need not be served
    the same object.  The warm-up stores the snapshot that it has built
    whether or not the cache holds a fresh one, and nothing records which
    object a lookup has served.  Here a first lookup for Ethereum refreshes
    and stores a snapshot, a second one is served that object from the
    cache, the warm-up then stores its own snapshot of Ethereum, and a third
    lookup, still within five minutes of the first snapshot, is served from
    the cache again, but another object, with a later [fetchedAt].  The same
    happens without the warm-up when two requests overlap: both find the
    cache empty and refresh, and a lookup after the first refresh has
    stored its snapshot and one after the second has stored its own are
    served two different objects, both from the cache. *)
Lemma C2_store_between_two_hits :
  (exists c c' s1 s2 s3 s4,
     StatsCard_effect down_world ethereum initial_state
     = (Returned (Refreshed c), s1) /\
     StatsCard_effect down_world ethereum s1 = (Returned (FromCache c), s2) /\
     preFetchOne down_world ethereum s2 = (Returned tt, s3) /\
     StatsCard_effect down_world ethereum s3 = (Returned (FromCache c'), s4) /\
     oid c <> oid c' /\ (fetchedAt c < fetchedAt c')%Z /\
     (now down_world (ticks s3) - fetchedAt c < CACHE_MAX_AGE)%Z) /\
  (exists a b s1 s2 s3 s4 s5 s6,
     StatsCard_cached down_world ethereum initial_state = (Returned None, s1) /\
     StatsCard_cached down_world ethereum s1 = (Returned None, s2) /\
     StatsCard_refresh down_world ethereum s2 = (Returned (Refreshed a), s3) /\
     StatsCard_effect down_world ethereum s3 = (Returned (FromCache a), s4) /\
     StatsCard_refresh down_world ethereum s4 = (Returned (Refreshed b), s5) /\
     StatsCard_effect down_world ethereum s5 = (Returned (FromCache b), s6) /\
     oid a <> oid b /\ (fetchedAt a < fetchedAt b)%Z /\
     (now down_world (ticks s5) - fetchedAt a < CACHE_MAX_AGE)%Z).
Proof.
  split.
  - do 6 eexists.
    split; [vm_compute; reflexivity|].
    split; [vm_compute; reflexivity|].
    split; [vm_compute; reflexivity|].
    split; [vm_compute; reflexivity|].
    split; [vm_compute; discriminate|].
    split; vm_compute; reflexivity.
  - do 8 eexists.
    split; [vm_compute; reflexivity|].
    split; [vm_compute; reflexivity|].
    split; [vm_compute; reflexivity|].
    split; [vm_compute; reflexivity|].
    split; [vm_compute; reflexivity|].
    split; [vm_compute; reflexivity|].
    split; [vm_compute; discriminate|].
    split; vm_compute; reflexivity.
Qed.

(** C2, amended: while the snapshot stored for a network is younger than
    five minutes, a lookup serves that very object and changes nothing but
    the count of clock readings: no request is issued and the cache is not
    written.  So two lookups between which nothing is stored for the
    network, such as two lookups in a row, are both served the same object,
    with the same [fetchedAt].  A lookup that comes when the snapshot is
    five minutes old or older refreshes and stores a snapshot with a
    strictly greater [fetchedAt]. *)
Theorem C2_cache_hit_idempotent_refresh_newer (W : World) (net : network)
    (s : State) (c : snapshot) :
  monotone_clock W ->
  networkDataCache s !! name net = Some c ->
  ((now W (ticks s) - fetchedAt c < CACHE_MAX_AGE)%Z ->
   StatsCard_effect W net s = (Returned (FromCache c), set_ticks (S (ticks s)) s)) /\
  ((now W (ticks s) - fetchedAt c < CACHE_MAX_AGE)%Z ->
   (now W (S (ticks s)) - fetchedAt c < CACHE_MAX_AGE)%Z ->
   exists s1 s2,
     StatsCard_effect W net s = (Returned (FromCache c), s1) /\
     StatsCard_effect W net s1 = (Returned (FromCache c), s2) /\
     requests s2 = requests s /\
     networkDataCache s2 = networkDataCache s /\
     next_oid s2 = next_oid s) /\
  ((CACHE_MAX_AGE <= now W (ticks s) - fetchedAt c)%Z ->
   exists c' s',
     StatsCard_effect W net s = (Returned (Refreshed c'), s') /\
     networkDataCache s' !! name net = Some c' /\
     (fetchedAt c < fetchedAt c')%Z).
Proof.
  intros Hmono Hc.
  assert (Hhit : (now W (ticks s) - fetchedAt c < CACHE_MAX_AGE)%Z ->
                 StatsCard_effect W net s
                 = (Returned (FromCache c), set_ticks (S (ticks s)) s)).
  { intros H1. unfold StatsCard_effect, StatsCard_cached. run. rewrite Hc. simpl.
    destruct (Z.ltb_spec (now W (ticks s) - fetchedAt c) CACHE_MAX_AGE);
      [reflexivity | lia]. }
  split; [exact Hhit|]. split.
  - intros H1 H2.
    exists (set_ticks (S (ticks s)) s), (set_ticks (S (S (ticks s))) s).
    split; [exact (Hhit H1)|]. split; [|repeat split].
    unfold StatsCard_effect, StatsCard_cached. run. rewrite Hc. simpl.
    destruct (Z.ltb_spec (now W (S (ticks s)) - fetchedAt c) CACHE_MAX_AGE);
      [reflexivity | lia].
  - intros Hold.
    destruct (StatsCard_refresh_stores W net (set_ticks (S (ticks s)) s))
      as (c' & s' & E & Hstored & (k & Hk & Hat) & _).
    exists c', s'. split; [|split].
    + unfold StatsCard_effect, StatsCard_cached.
      unfold bind at 1. unfold bind at 1. unfold get at 1. rewrite Hc.
      unfold bind at 1. unfold Date_now at 1.
      destruct (Z.ltb_spec (now W (ticks s) - fetchedAt c) CACHE_MAX_AGE);
        [lia|]. simpl. exact E.
    + exact Hstored.
    + rewrite Hat. simpl in Hk.
      assert (now W (ticks s) <= now W k)%Z by (apply Hmono; lia).
      pose proof CACHE_MAX_AGE_positive. lia.
Qed.

(** C2 on a snapshot stored two seconds before the first lookup. *)
Lemma C2_cache_hit_idempotent_refresh_newer_witness :
  let c := {| oid := 0; detailedData := None; priceData := None;
              historicalData := None; dexScreenerData := None;
              stablecoinData := 0; yieldData := None; topYields := None;
              fearGreedData := None; fetchedAt := sample_clock 0 - 2000 |} in
  let s := set_networkDataCache {["Ethereum" := c]} initial_state in
  exists s1 s2,
    StatsCard_effect down_world ethereum s = (Returned (FromCache c), s1) /\
    StatsCard_effect down_world ethereum s1 = (Returned (FromCache c), s2) /\
    requests s2 = requests s /\
    networkDataCache s2 = networkDataCache s /\
    next_oid s2 = next_oid s.
Proof.
  intros c s.
  assert (Hmono : monotone_clock down_world).
  { intros i j Hij. unfold down_world, sample_clock. simpl. lia. }
  assert (Hc : networkDataCache s !! name ethereum = Some c).
  { simpl. apply lookup_singleton_eq. }
  destruct (C2_cache_hit_idempotent_refresh_newer down_world ethereum s c Hmono Hc)
    as (_ & Hhit & _).
  apply Hhit; reflexivity.
Defined.

(** ** Overlapping requests *)




(** ** The roster *)

Lemma In_insert_sorted {A} (le : A -> A -> bool) (x y : A) (l : list A) :
  In x (insert_sorted le y l) -> x = y \/ In x l.
Proof.
  induction l as [|z l IH]; simpl.
  - intros [<-|[]]. left. reflexivity.
  - destruct (le y z); simpl.
    + intros [<-|H]; [left; reflexivity | right; assumption].
    + intros [<-|H]; [right; left; reflexivity|].
      destruct (IH H) as [->|Hin]; [left; reflexivity | right; right; assumption].
Qed.

Lemma In_js_sort {A} (le : A -> A -> bool) (x : A) (l : list A) :
  In x (js_sort le l) -> In x l.
Proof.
  induction l as [|y l IH]; simpl; [tauto|].
  intros H. apply In_insert_sorted in H as [->|H]; [left; reflexivity|].
  right. apply IH, H.
Qed.

Lemma In_slice0 {A} (n : nat) (x : A) (l : list A) : In x (slice0 n l) -> In x l.
Proof.
  intros H. rewrite <- (firstn_skipn n l). apply in_or_app. left. exact H.
Qed.

Lemma In_significantChains (chain : chain_json) (data : list chain_json) :
  In chain (significantChains data) -> In chain data /\ significant chain = true.
Proof.
  unfold significantChains. intros H.
  apply In_slice0 in H. apply In_js_sort in H. apply filter_In in H. exact H.
Qed.

Lemma map_outcome_In {A B} (f : A -> outcome B) (l : list A) (outs : list B) (y : B) :
  map_outcome f l = Returned outs -> In y outs ->
  exists x, In x l /\ f x = Returned y.
Proof.
  revert outs. induction l as [|x l IH]; simpl; intros outs H Hy.
  - injection H as <-. destruct Hy.
  - destruct (f x) as [y0|] eqn:Ef; [|discriminate].
    destruct (map_outcome f l) as [ys|]; [|discriminate].
    injection H as <-. destruct Hy as [<-|Hy].
    + exists x. split; [left; reflexivity | assumption].
    + destruct (IH ys eq_refl Hy) as (x' & Hin & Hx').
      exists x'. split; [right; assumption | assumption].
Qed.

Lemma fold_discover_thrown base l :
  fold_left (discover_step base) l Thrown = Thrown.
Proof. induction l; [reflexivity | assumption]. Qed.

(** What [allChains.forEach] appends, for any base roster. *)
Lemma discover_sound (base : list network) (all l : list chain_out)
    (acc add : list network) :
  let P := fun n : network =>
    ~ In (name n) (map name base) /\
    exists c, In c all /\ co_name c = Some (name n) /\
              rawTvl n = Some (co_tvl c) /\
              Qle_bool (co_tvl c) MIN_DISCOVERY_TVL = false in
  (forall c, In c l -> In c all) ->
  List.Forall P acc ->
  fold_left (discover_step base) l (Returned acc) = Returned add ->
  List.Forall P add.
Proof.
  intros P. revert acc. induction l as [|c l IH]; intros acc Hsub Hacc Hfold.
  - simpl in Hfold. injection Hfold as <-. assumption.
  - simpl in Hfold.
    assert (Hsub' : forall c', In c' l -> In c' all)
      by (intros c' Hc'; apply Hsub; right; assumption).
    destruct (co_name c) as [n|] eqn:En.
    + destruct (existsb (String.eqb n) (map name base)) eqn:Eb; simpl in Hfold.
      * apply (IH acc Hsub' Hacc Hfold).
      * destruct (Qle_bool (co_tvl c) MIN_DISCOVERY_TVL) eqn:Et; simpl in Hfold.
        -- apply (IH acc Hsub' Hacc Hfold).
        -- refine (IH _ Hsub' _ Hfold). apply List.Forall_app. split; [assumption|].
           constructor; [|constructor]. simpl. split.
           ++ intros Hin.
              assert (existsb (String.eqb n) (map name base) = true).
              { apply existsb_exists. exists n. split; [assumption|].
                apply String.eqb_refl. }
              congruence.
           ++ exists c. repeat split; try assumption.
              apply Hsub. left. reflexivity.
    + simpl in Hfold.
      destruct (Qle_bool (co_tvl c) MIN_DISCOVERY_TVL) eqn:Et; simpl in Hfold.
      * apply (IH acc Hsub' Hacc Hfold).
      * rewrite fold_discover_thrown in Hfold. discriminate.
Qed.

Lemma fetchChainTVL_state W s :
  exists v, fetchChainTVL W s = (Returned v, set_requests (GET_chains :: requests s) s).
Proof. run. destruct (http_chains W _); eexists; reflexivity. Qed.

Lemma fetchProtocols_state W s :
  exists v,
    fetchProtocols W s = (Returned v, set_requests (GET_protocols :: requests s) s).
Proof. run. destruct (http_protocols W _); eexists; reflexivity. Qed.

Lemma fetchAllChains_state W s :
  exists outs,
    fetchAllChains W s = (Returned outs, set_requests (GET_chains :: requests s) s) /\
    (outs = [] \/
     exists listing,
       http_chains W (List.length (requests s)) = Json listing /\
       map_outcome chain_out_of (significantChains listing) = Returned outs).
Proof.
  run. destruct (http_chains W (List.length (requests s))) as [| | |listing] eqn:E;
    try (exists []; split; [reflexivity | left; reflexivity]).
  unfold lift.
  destruct (map_outcome chain_out_of (significantChains listing)) as [outs|] eqn:Em.
  - exists outs. split; [reflexivity|]. right. exists listing.
    split; [first [reflexivity | exact E] | first [reflexivity | exact Em]].
  - exists []. split; [reflexivity | left; reflexivity].
Qed.

Lemma fetchAllNetworkAnalytics_state W s :
  exists v s1,
    fetchAllNetworkAnalytics W s = (Returned v, s1) /\ NETWORKS s1 = NETWORKS s.
Proof.
  unfold fetchAllNetworkAnalytics.
  destruct (fetchChainTVL_state W s) as (v1 & E1).
  destruct (fetchProtocols_state W (set_requests (GET_chains :: requests s) s))
    as (v2 & E2).
  eexists. eexists. split.
  - apply try_catch_run. rewrite (bind_run _ _ _ _ _ E1), (bind_run _ _ _ _ _ E2).
    reflexivity.
  - reflexivity.
Qed.

Lemma same_identity_updated analytics tvlData total (base : list network) :
  Forall2 same_identity base
    (map (with_share total) (map (updateBase analytics tvlData) base)).
Proof.
  induction base as [|b base IH]; simpl; constructor; [|assumption].
  unfold same_identity. simpl. repeat split.
Qed.

Lemma same_identity_refl (base : list network) : Forall2 same_identity base base.
Proof.
  induction base; constructor; [|assumption]. unfold same_identity. repeat split.
Qed.

Lemma kept_names (base updated appended : list network) :
  Forall2 same_identity base updated ->
  forall n, In n base ->
    exists n', In n' (updated ++ appended) /\ name n' = name n.
Proof.
  intros HF. induction HF as [|b u bs us Hbu HF IH]; intros n Hn; [destruct Hn|].
  destruct Hn as [<-|Hn].
  - exists u. split; [left; reflexivity | apply Hbu].
  - destruct (IH n Hn) as (n' & Hin & Hname).
    exists n'. split; [right; assumption | assumption].
Qed.

(** C9: [loadAnalytics] returns normally and leaves in [NETWORKS] the base
    networks, in their order and each with its name, symbol, colour and
    position, followed by the appended ones; every appended network is
    absent from the base roster and comes from a listing of the registry, in
    which it holds more than 100000000; and every network that was in the
    roster before is in it afterwards. *)
Theorem C9_roster_append_only (W : World) (s : State) :
  NETWORKS s = BASE_NETWORKS ->
  exists s' updated appended,
    loadAnalytics W s = (Returned tt, s') /\
    NETWORKS s' = updated ++ appended /\
    Forall2 same_identity BASE_NETWORKS updated /\
    List.Forall (discovered W) appended /\
    (forall n, In n (NETWORKS s) ->
       exists n', In n' (NETWORKS s') /\ name n' = name n).
Proof.
  intros Hbase.
  assert (Hkept : forall s' updated appended,
            NETWORKS s' = updated ++ appended ->
            Forall2 same_identity BASE_NETWORKS updated ->
            forall n, In n (NETWORKS s) ->
              exists n', In n' (NETWORKS s') /\ name n' = name n).
  { intros s' updated appended Hs' HF n Hn. rewrite Hbase in Hn. rewrite Hs'.
    apply (kept_names _ _ _ HF n Hn). }
  destruct (fetchAllNetworkAnalytics_state W s) as (analytics & s1 & E1 & N1).
  destruct (fetchAllChains_state W s1) as (allChains & E2 & Hlisting).
  destruct (fetchChainTVL_state W (set_requests (GET_chains :: requests s1) s1))
    as (tvlData & E3).
  unfold loadAnalytics.
  destruct (additionalNetworks_of BASE_NETWORKS allChains) as [additional|] eqn:Eadd.
  - eexists. exists (map (with_share (allChainTvl tvlData))
                       (map (updateBase analytics tvlData) BASE_NETWORKS)).
    exists (map (with_share (allChainTvl tvlData)) additional).
    assert (Hrun : try_catch
              (analytics0 <- fetchAllNetworkAnalytics W ;;
               allChains0 <- fetchAllChains W ;;
               tvlData0 <- fetchChainTVL W ;;
               additionalNetworks <-
                 lift (additionalNetworks_of BASE_NETWORKS allChains0) ;;
               modify
                 (set_NETWORKS
                    (map (with_share (allChainTvl tvlData0))
                       (map (updateBase analytics0 tvlData0) BASE_NETWORKS ++
                        additionalNetworks)))) (ret tt) s
            = (Returned tt,
               set_NETWORKS
                 (map (with_share (allChainTvl tvlData))
                    (map (updateBase analytics tvlData) BASE_NETWORKS ++ additional))
                 (set_requests
                    (GET_chains :: requests (set_requests (GET_chains :: requests s1) s1))
                    (set_requests (GET_chains :: requests s1) s1)))).
    { apply try_catch_run.
      rewrite (bind_run _ _ _ _ _ E1), (bind_run _ _ _ _ _ E2),
        (bind_run _ _ _ _ _ E3).
      unfold bind at 1, lift at 1. rewrite Eadd. reflexivity. }
    split; [exact Hrun|].
    assert (Hnet : forall l (st : State), NETWORKS (set_NETWORKS l st) = l)
      by reflexivity.
    rewrite Hnet.
    split; [apply map_app|]. split; [apply same_identity_updated|].
    split.
    + assert (Hsound := discover_sound BASE_NETWORKS allChains allChains []
                          additional (fun c H => H) (List.Forall_nil _) Eadd).
      apply List.Forall_forall. intros n' Hn'.
      apply in_map_iff in Hn' as (n & <- & Hn).
      pose proof (proj1 (List.Forall_forall _ _) Hsound n Hn) as (Hnot & c & Hc & Hcn & Hraw & Hmin).
      destruct Hlisting as [-> | (listing & Hjson & Hmap)]; [destruct Hc|].
      destruct (map_outcome_In _ _ _ _ Hmap Hc) as (chain & Hchain & Hout).
      apply In_significantChains in Hchain as (Hin & Hsig).
      unfold chain_out_of in Hout.
      assert (Hc_eq : c = {| co_name := c_name chain;
                            co_tvl := orQ (c_tvl chain) 0;
                            co_tokenSymbol := c_tokenSymbol chain;
                            co_geckoId := c_gecko_id chain;
                            co_chainId := c_chainId chain |}).
      { destruct (orNullS (c_gecko_id chain)), (c_name chain);
          try discriminate; injection Hout as <-; reflexivity. }
      unfold significant in Hsig.
      destruct (c_tvl chain) as [t|] eqn:Et; [|discriminate].
      apply andb_true_iff in Hsig as (Htruthy & _).
      assert (Hco : co_tvl c = t).
      { rewrite Hc_eq. simpl. rewrite Htruthy. reflexivity. }
      unfold discovered. simpl. split; [assumption|].
      exists (List.length (requests s1)), listing, chain, t.
      repeat split; try assumption.
      * rewrite <- Hcn, Hc_eq. reflexivity.
      * rewrite Hraw, Hco. reflexivity.
      * rewrite Hco in Hmin. unfold Qle_bool in Hmin. unfold Qlt.
        apply Z.leb_gt in Hmin. exact Hmin.
    + intros n Hn. rewrite Hbase in Hn. rewrite map_app.
      apply (kept_names _ _ _ (same_identity_updated _ _ _ _) n Hn).
  - exists (set_requests
              (GET_chains :: requests (set_requests (GET_chains :: requests s1) s1))
              (set_requests (GET_chains :: requests s1) s1)).
    exists BASE_NETWORKS, [].
    assert (Hn : NETWORKS
                   (set_requests
                      (GET_chains :: requests (set_requests (GET_chains :: requests s1) s1))
                      (set_requests (GET_chains :: requests s1) s1))
                 = BASE_NETWORKS ++ [])
      by (rewrite app_nil_r; simpl; congruence).
    split; [|split; [exact Hn | split; [apply same_identity_refl | split]]].
    + unfold try_catch.
      rewrite (bind_run _ _ _ _ _ E1), (bind_run _ _ _ _ _ E2),
        (bind_run _ _ _ _ _ E3).
      unfold bind at 1, lift at 1. rewrite Eadd. reflexivity.
    + constructor.
    + eapply Hkept; [exact Hn | apply same_identity_refl].
Qed.

(** C9 on a registry that lists one large chain outside the base roster. *)
Lemma C9_roster_append_only_witness :
  exists s' updated appended,
    loadAnalytics discovery_world initial_state = (Returned tt, s') /\
    NETWORKS s' = updated ++ appended /\
    Forall2 same_identity BASE_NETWORKS updated /\
    List.Forall (discovered discovery_world) appended /\
    (forall n, In n (NETWORKS initial_state) ->
       exists n', In n' (NETWORKS s') /\ name n' = name n).
Proof.
  apply (C9_roster_append_only discovery_world initial_state). reflexivity.
Defined.

(** The roster of that witness: the twenty base networks and "Linea". *)
Lemma discovery_appends_Linea :
  map name (NETWORKS (snd (loadAnalytics discovery_world initial_state)))
  = map name BASE_NETWORKS ++ ["Linea"].
Proof. vm_compute. reflexivity. Qed.

(** * Further properties of the code *)

(** ** Sorting and slicing *)

Lemma length_insert_sorted {A} (le : A -> A -> bool) (x : A) (l : list A) :
  List.length (insert_sorted le x l) = S (List.length l).
Proof.
  induction l as [|y l IH]; simpl; [reflexivity|].
  destruct (le x y); simpl; [reflexivity | rewrite IH; reflexivity].
Qed.

Lemma length_js_sort {A} (le : A -> A -> bool) (l : list A) :
  List.length (js_sort le l) = List.length l.
Proof.
  induction l as [|x l IH]; simpl; [reflexivity|].
  rewrite length_insert_sorted, IH. reflexivity.
Qed.

Lemma length_slice0 {A} (n : nat) (l : list A) : (List.length (slice0 n l) <= n)%nat.
Proof. unfold slice0. rewrite length_firstn. lia. Qed.

Lemma ordered_tail {A} (le : A -> A -> bool) (x : A) (l : list A) :
  ordered le (x :: l) -> ordered le l.
Proof. destruct l as [|y l]; simpl; [trivial | intros [_ H]; exact H]. Qed.

Lemma ordered_insert_sorted {A} (le : A -> A -> bool) (x : A) (l : list A) :
  (forall a b, le a b = false -> le b a = true) ->
  ordered le l -> ordered le (insert_sorted le x l).
Proof.
  intros Htot. induction l as [|y l IH]; intros Hl; [exact I|].
  simpl. destruct (le x y) eqn:E.
  - split; assumption.
  - pose proof (IH (ordered_tail _ _ _ Hl)) as IH'.
    destruct l as [|z l]; simpl in *.
    + split; [apply Htot, E | exact I].
    + destruct (le x z) eqn:E'.
      * split; [apply Htot, E | exact IH'].
      * split; [apply Hl | exact IH'].
Qed.

Lemma ordered_js_sort {A} (le : A -> A -> bool) (l : list A) :
  (forall a b, le a b = false -> le b a = true) -> ordered le (js_sort le l).
Proof.
  intros Htot. induction l as [|x l IH]; [exact I|].
  simpl. apply ordered_insert_sorted; assumption.
Qed.

Lemma ordered_slice0 {A} (le : A -> A -> bool) (n : nat) (l : list A) :
  ordered le l -> ordered le (slice0 n l).
Proof.
  unfold slice0. revert l. induction n as [|n IH]; intros l Hl; [exact I|].
  destruct l as [|x l]; [exact I|].
  pose proof (IH l (ordered_tail _ _ _ Hl)) as IH'.
  destruct l as [|y l]; [destruct n; exact I|].
  destruct n as [|n]; [exact I|].
  simpl in *. split; [apply Hl | exact IH'].
Qed.

Lemma ordered_map {A B} (f : A -> B) (leA : A -> A -> bool) (leB : B -> B -> bool)
    (l : list A) :
  (forall a b, leA a b = true -> leB (f a) (f b) = true) ->
  ordered leA l -> ordered leB (map f l).
Proof.
  intros Hf. induction l as [|x l IH]; intros Hl; [exact I|].
  pose proof (IH (ordered_tail _ _ _ Hl)) as IH'.
  destruct l as [|y l]; [exact I|].
  simpl in *. split; [apply Hf, Hl | exact IH'].
Qed.

Lemma Qle_bool_total (a b : Q) : Qle_bool a b = false -> Qle_bool b a = true.
Proof.
  intros H. apply Qle_bool_iff. apply Qlt_le_weak. apply Qnot_le_lt.
  intros Hle. apply Qle_bool_iff in Hle. congruence.
Qed.

Lemma Qle_bool_false (a b : Q) : Qle_bool a b = false -> (b < a)%Q.
Proof.
  intros H. apply Qnot_le_lt. intros Hle. apply Qle_bool_iff in Hle. congruence.
Qed.

Lemma orQ_Some (q : Q) : (orQ (Some q) 0 == q)%Q.
Proof.
  unfold orQ, truthyQ. destruct (Qeq_bool q 0) eqn:E; simpl; [|reflexivity].
  apply Qeq_bool_iff in E. symmetry. exact E.
Qed.

Lemma Qle_bool_orQ (a b : Q) :
  Qle_bool (orQ (Some a) 0) (orQ (Some b) 0) = Qle_bool a b.
Proof.
  destruct (Qle_bool a b) eqn:E.
  - apply Qle_bool_iff. rewrite !orQ_Some. apply Qle_bool_iff, E.
  - destruct (Qle_bool (orQ (Some a) 0) (orQ (Some b) 0)) eqn:E'; [|reflexivity].
    apply Qle_bool_iff in E'. rewrite !orQ_Some in E'.
    apply Qle_bool_iff in E'. congruence.
Qed.

Lemma map_outcome_map {A B} (f : A -> outcome B) (g : A -> B) (l : list A)
    (outs : list B) :
  (forall x y, f x = Returned y -> y = g x) ->
  map_outcome f l = Returned outs -> outs = map g l.
Proof.
  intros Hf. revert outs. induction l as [|x l IH]; simpl; intros outs H.
  - injection H as <-. reflexivity.
  - destruct (f x) as [y|] eqn:Ef; [|discriminate].
    destruct (map_outcome f l) as [ys|]; [|discriminate].
    injection H as <-. rewrite (Hf _ _ Ef), (IH ys eq_refl). reflexivity.
Qed.

(** ** The listings of [services/defillama.js] *)

(** X1: [fetchAllChains] always returns; it returns at most twenty chains,
    each of them holds more than one million, and they come in the order
    of the value locked, the largest first.  When the request fails the
    list is empty, and every chain of the list comes from the listing of
    the registry, with its name and its value locked. *)
Theorem fetchAllChains_top_twenty (W : World) (s : State) :
  exists outs,
    fst (fetchAllChains W s) = Returned outs /\
    (List.length outs <= 20)%nat /\
    List.Forall (fun c => (1000000 < co_tvl c)%Q) outs /\
    ordered (fun a b => Qle_bool (co_tvl b) (co_tvl a)) outs /\
    (failed (http_chains W (List.length (requests s))) -> outs = []) /\
    (forall c, In c outs ->
       exists listing chain,
         http_chains W (List.length (requests s)) = Json listing /\
         In chain listing /\
         c_name chain = co_name c /\ c_tvl chain = Some (co_tvl c)).
Proof.
  destruct (fetchAllChains_state W s) as (outs & E & H).
  exists outs. rewrite E. split; [reflexivity|].
  destruct H as [->|(listing & HJ & Hm)].
  { simpl. repeat split; [lia | constructor | intros c []]. }
  set (g := fun chain : chain_json =>
              {| co_name := c_name chain; co_tvl := orQ (c_tvl chain) 0;
                 co_tokenSymbol := c_tokenSymbol chain;
                 co_geckoId := c_gecko_id chain;
                 co_chainId := c_chainId chain |}).
  assert (Hg : outs = map g (significantChains listing)).
  { apply (map_outcome_map chain_out_of); [|exact Hm].
    intros x y. unfold chain_out_of.
    destruct (orNullS (c_gecko_id x)); [destruct (c_name x) eqn:En|]; intros Hx;
      first [discriminate
            | injection Hx as <-; unfold g; rewrite ?En; reflexivity]. }
  subst outs. split; [|split; [|split; [|split]]].
  - rewrite length_map. apply length_slice0.
  - apply List.Forall_forall. intros c Hc. apply in_map_iff in Hc as (x & <- & Hx).
    apply In_significantChains in Hx as [_ Hs]. unfold significant in Hs.
    simpl. destruct (c_tvl x) as [t|]; [|discriminate].
    apply andb_true_iff in Hs as [Ht Hlt]. unfold orQ. rewrite Ht.
    apply Qle_bool_false. apply negb_true_iff. exact Hlt.
  - apply (ordered_map g chains_by_tvl_desc).
    + intros a b Hab. exact Hab.
    + unfold significantChains. apply ordered_slice0, ordered_js_sort.
      intros a b. apply Qle_bool_total.
  - rewrite HJ. intros [].
  - intros c Hc. apply in_map_iff in Hc as (x & <- & Hx).
    apply In_significantChains in Hx as [Hin Hs]. unfold significant in Hs.
    exists listing, x. split; [exact HJ|]. split; [exact Hin|].
    split; [reflexivity|]. simpl.
    destruct (c_tvl x) as [t|]; [|discriminate].
    apply andb_true_iff in Hs as [Ht _]. unfold orQ. rewrite Ht. reflexivity.
Qed.

Lemma ordered_chainProtocols (n : string) (all : list protocol_json) :
  ordered (fun a b => Qle_bool (po_tvl b) (po_tvl a)) (chainProtocols_of n all).
Proof.
  unfold chainProtocols_of. apply ordered_slice0.
  assert (H : ordered by_tvl_desc
                (js_sort by_tvl_desc
                   (map protocol_out_of
                      (List.filter
                         (fun protocol =>
                            match p_chains protocol with
                            | Some chains => existsb (String.eqb n) chains
                            | None => false
                            end) all)))).
  { apply ordered_js_sort. intros a b. apply Qle_bool_total. }
  revert H. generalize (js_sort by_tvl_desc
                   (map protocol_out_of
                      (List.filter
                         (fun protocol =>
                            match p_chains protocol with
                            | Some chains => existsb (String.eqb n) chains
                            | None => false
                            end) all))).
  intros l H. rewrite <- (map_id l). apply (ordered_map id by_tvl_desc); [|exact H].
  intros a b. unfold by_tvl_desc, id. rewrite Qle_bool_orQ. trivial.
Qed.

Lemma In_chainProtocols (n : string) (all : list protocol_json) (p : protocol_out) :
  In p (chainProtocols_of n all) ->
  exists q chains,
    In q all /\ p = protocol_out_of q /\ p_chains q = Some chains /\ In n chains.
Proof.
  unfold chainProtocols_of. intros H.
  apply In_slice0, In_js_sort, in_map_iff in H as (q & <- & Hq).
  apply filter_In in Hq as [Hq Hc].
  destruct (p_chains q) as [chains|] eqn:E; [|discriminate].
  apply existsb_exists in Hc as (c & Hc & Heq). apply String.eqb_eq in Heq as <-.
  exists q, chains. repeat split; assumption.
Qed.

Lemma resolveChainName_ci (n : string) (chainData : obj tvl_entry) :
  same_ci (resolveChainName n chainData) n.
Proof.
  unfold resolveChainName, same_ci.
  destruct (obj_get n chainData); [reflexivity|].
  destruct (find_key_ci [n] chainData) as [key|] eqn:E; [|reflexivity].
  unfold find_key_ci, js_find in E. apply find_some in E as [_ E].
  simpl in E. rewrite orb_false_r in E. apply String.eqb_eq, E.
Qed.

Lemma orS_truthy (x : option string) (d : string) :
  truthyS d = true -> truthyS (orS x d) = true.
Proof.
  intros Hd. unfold orS. destruct x as [s|]; [|exact Hd].
  destruct (truthyS s) eqn:E; [exact E | exact Hd].
Qed.

Lemma fetchChainProtocols_shape (W : World) (chainName : string) (s : State) :
  exists l s',
    fetchChainProtocols W chainName s = (Returned l, s') /\
    (l = [] \/
     exists k listing chain,
       http_protocols W k = Json listing /\
       (chain = defillamaChainNameOf chainName \/ same_ci chain chainName) /\
       l = chainProtocols_of chain listing).
Proof.
  unfold fetchChainProtocols.
  destruct (obj_get chainName CHAIN_NAME_MAP) as [info|] eqn:Einfo.
  - run.
    destruct (http_protocols W (List.length (requests s))) as [| | |listing] eqn:E;
      try (eexists; eexists; split; [reflexivity | left; reflexivity]).
    eexists. eexists. split; [reflexivity|]. right.
    exists (List.length (requests s)), listing, (defillamaChainNameOf chainName).
    split; [exact E|]. split; [left; reflexivity | reflexivity].
  - destruct (fetchChainTVL_state W s) as (chainData & Etvl).
    unfold try_catch at 1.
    rewrite (bind_run _ _ _ _ _ (bind_run _ _ _ _ _ Etvl)).
    run.
    destruct (http_protocols W (S (List.length (requests s)))) as [| | |listing] eqn:E;
      try (eexists; eexists; split; [reflexivity | left; reflexivity]).
    eexists. eexists. split; [reflexivity|]. right.
    exists (S (List.length (requests s))), listing,
      (resolveChainName chainName chainData).
    split; [exact E|]. split; [right; apply resolveChainName_ci | reflexivity].
Qed.

(** X2: [fetchChainProtocols] always returns; it returns at most twenty
    protocols in the order of their value locked, the largest first, each
    with a category that is not empty, and each taken from a listing of
    the registry in which the protocol names the chain under its mapped
    name or under the given name up to case. *)
Theorem fetchChainProtocols_top_twenty (W : World) (chainName : string) (s : State) :
  exists l,
    fst (fetchChainProtocols W chainName s) = Returned l /\
    (List.length l <= 20)%nat /\
    ordered (fun a b => Qle_bool (po_tvl b) (po_tvl a)) l /\
    List.Forall
      (fun p =>
         truthyS (po_category p) = true /\
         exists k listing q chains chain,
           http_protocols W k = Json listing /\ In q listing /\
           p = protocol_out_of q /\ p_chains q = Some chains /\ In chain chains /\
           (chain = defillamaChainNameOf chainName \/ same_ci chain chainName))
      l.
Proof.
  destruct (fetchChainProtocols_shape W chainName s)
    as (l & s' & E & [->|(k & listing & chain & Hk & Hchain & ->)]);
    rewrite E; eexists; (split; [reflexivity|]).
  - simpl. repeat split; [lia | constructor].
  - repeat split.
    + apply length_slice0.
    + apply ordered_chainProtocols.
    + apply List.Forall_forall. intros p Hp.
      apply In_chainProtocols in Hp as (q & chains & Hq & -> & Hc & Hin).
      split; [apply orS_truthy; reflexivity|].
      exists k, listing, q, chains, chain. repeat split; assumption.
Qed.

(** ** Objects used as dictionaries *)

Lemma obj_get_set {V} (k k' : string) (v : V) (o : obj V) :
  obj_get k (obj_set k' v o) = if String.eqb k k' then Some v else obj_get k o.
Proof.
  induction o as [|[k0 v0] o IH]; simpl.
  - reflexivity.
  - destruct (String.eqb_spec k' k0) as [->|Hne]; simpl.
    + destruct (String.eqb k k0); reflexivity.
    + rewrite IH. destruct (String.eqb_spec k k0) as [->|Hne'].
      * destruct (String.eqb_spec k0 k') as [->|_]; [congruence | reflexivity].
      * reflexivity.
Qed.

Lemma obj_keys_set {V} (k : string) (v : V) (o : obj V) :
  obj_keys (obj_set k v o) = obj_keys o \/
  (~ In k (obj_keys o) /\ obj_keys (obj_set k v o) = obj_keys o ++ [k]).
Proof.
  induction o as [|[k0 v0] o IH]; simpl.
  - right. split; [tauto | reflexivity].
  - destruct (String.eqb_spec k k0) as [->|Hne]; simpl.
    + left. reflexivity.
    + destruct IH as [->|[Hnot ->]]; [left; reflexivity|].
      right. split; [|reflexivity]. intros [H|H]; [congruence | tauto].
Qed.

Lemma NoDup_keys_set {V} (k : string) (v : V) (o : obj V) :
  List.NoDup (obj_keys o) -> List.NoDup (obj_keys (obj_set k v o)).
Proof.
  intros H. destruct (obj_keys_set k v o) as [->|[Hnot ->]]; [exact H|].
  apply List.NoDup_app; [exact H | repeat constructor; simpl; tauto |].
  intros x Hx [<-|[]]. tauto.
Qed.

(** ** [fetchChainTVL]: the map of the chains *)

Lemma tvlMap_add_get (n : string) (acc : obj tvl_entry) (chain : chain_json) :
  obj_get n (tvlMap_add acc chain)
  = match c_name chain, c_tvl chain with
    | Some m, Some t =>
        if (truthyS m && String.eqb n m)%bool
        then Some {| tvl := orQ (Some t) 0; tokenSymbol := c_tokenSymbol chain;
                     te_geckoId := c_gecko_id chain; te_chainId := c_chainId chain |}
        else obj_get n acc
    | _, _ => obj_get n acc
    end.
Proof.
  unfold tvlMap_add. destruct (c_name chain) as [m|]; [|reflexivity].
  destruct (c_tvl chain) as [t|]; [|reflexivity].
  destruct (truthyS m); simpl; [|reflexivity]. apply obj_get_set.
Qed.

Lemma tvlMap_fold_skip (n : string) (rest : list chain_json) (acc : obj tvl_entry) :
  (forall c, In c rest -> c_name c = Some n -> c_tvl c = None) ->
  obj_get n (fold_left tvlMap_add rest acc) = obj_get n acc.
Proof.
  revert acc. induction rest as [|c rest IH]; intros acc H; simpl; [reflexivity|].
  rewrite IH by (intros c' Hc'; apply H; right; exact Hc').
  rewrite tvlMap_add_get.
  destruct (c_name c) as [m|] eqn:Em; [|reflexivity].
  destruct (c_tvl c) as [t|] eqn:Et; [|reflexivity].
  destruct (truthyS m); simpl; [|reflexivity].
  destruct (String.eqb_spec n m) as [->|_]; [|reflexivity].
  specialize (H c (or_introl eq_refl) Em). congruence.
Qed.

Lemma NoDup_tvlMap_fold (data : list chain_json) (acc : obj tvl_entry) :
  List.NoDup (obj_keys acc) -> List.NoDup (obj_keys (fold_left tvlMap_add data acc)).
Proof.
  revert acc. induction data as [|c data IH]; intros acc H; simpl; [exact H|].
  apply IH. unfold tvlMap_add.
  destruct (c_name c) as [m|]; [|exact H]. destruct (c_tvl c); [|exact H].
  destruct (truthyS m); [|exact H]. apply NoDup_keys_set, H.
Qed.



(** ** [fetchProtocols]: the counts *)

Lemma sum_counts_incr (k : string) (o : obj nat) :
  sum_counts (incr k o) = S (sum_counts o).
Proof.
  unfold sum_counts, incr, obj_values.
  induction o as [|[k0 v0] o IH]; simpl; [reflexivity|].
  destruct (String.eqb k k0); simpl; [lia|].
  rewrite IH. lia.
Qed.

Lemma known_chain_has_key (chain : string) (info : chain_info) :
  js_find (fun c => String.eqb (defillamaName c) chain) (obj_values CHAIN_NAME_MAP)
  = Some info ->
  exists networkName,
    networkOfChain chain = Some networkName /\ truthyS networkName = true.
Proof.
  unfold js_find. cbv - [String.eqb networkOfChain truthyS].
  repeat match goal with
         | |- context [String.eqb ?lit chain] =>
             destruct (String.eqb_spec lit chain) as [<-|_];
             [intros _; eexists; split; [lazy; reflexivity | reflexivity]|]
         end.
  discriminate.
Qed.

Lemma sum_counts_count_chain (p : protocol_json) (acc : protocol_counts)
    (chain : string) :
  sum_counts (counts (count_chain p acc chain)) = S (sum_counts (counts acc)).
Proof.
  unfold count_chain.
  destruct (js_find (fun c => String.eqb (defillamaName c) chain)
              (obj_values CHAIN_NAME_MAP)) as [info|] eqn:E.
  - destruct (known_chain_has_key _ _ E) as (networkName & -> & ->).
    simpl. apply sum_counts_incr.
  - simpl. apply sum_counts_incr.
Qed.

Lemma sum_counts_count_protocol (protocols : list protocol_json)
    (acc : protocol_counts) :
  sum_counts (counts (fold_left count_protocol protocols acc))
  = (memberships protocols + sum_counts (counts acc))%nat.
Proof.
  revert acc. induction protocols as [|p protocols IH]; intros acc; [reflexivity|].
  simpl. rewrite IH. unfold memberships. simpl.
  fold (memberships protocols).
  assert (H : sum_counts (counts (count_protocol acc p))
              = (List.length (default [] (p_chains p)) + sum_counts (counts acc))%nat).
  { unfold count_protocol. destruct (p_chains p) as [chains|]; [|reflexivity].
    simpl. revert acc. induction chains as [|c chains IHc]; intros acc; [reflexivity|].
    simpl. rewrite IHc, sum_counts_count_chain. lia. }
  rewrite H. unfold memberships. lia.
Qed.

(** X4: [fetchProtocols] always returns.  When the request fails the
    counts are empty.  When the registry answers with a listing in which no
    protocol names a chain by the name of an inherited property, no
    membership is lost or counted twice: the counts add up to the number of
    chains that the protocols of the listing name. *)
Theorem fetchProtocols_counts_every_membership (W : World) (s : State) :
  exists r,
    fst (fetchProtocols W s) = Returned r /\
    (failed (http_protocols W (List.length (requests s))) -> r = no_counts) /\
    (forall listing,
       http_protocols W (List.length (requests s)) = Json listing ->
       plain_chains listing ->
       sum_counts (counts r) = memberships listing).
Proof.
  run. destruct (http_protocols W (List.length (requests s))) as [| | |listing];
    simpl;
    try (exists no_counts; split; [reflexivity|]; split;
         [reflexivity | discriminate]).
  eexists. split; [reflexivity|]. split; [intros []|].
  intros listing' [= <-] _.
  rewrite sum_counts_count_protocol. simpl. unfold sum_counts. simpl. lia.
Qed.

(** The counts of the world of the three protocols, which name five
    chains between them. *)
Lemma fetchProtocols_counts_every_membership_witness :
  exists r,
    fst (fetchProtocols registry_world initial_state) = Returned r /\
    sum_counts (counts r) = 5%nat.
Proof.
  destruct (fetchProtocols_counts_every_membership registry_world initial_state)
    as (r & E & _ & Hsum).
  exists r. split; [exact E|].
  apply (Hsum sample_protocols); [reflexivity|].
  intros p chain Hp Hc.
  repeat (destruct Hp as [<-|Hp];
          [repeat (destruct Hc as [<-|Hc]; [reflexivity|]); destruct Hc|]).
  destruct Hp.
Defined.

(** ** [fetchChainHistoricalTVL]: a history without a zero *)

Lemma percent_change_quotient (a b : hist_point) (ta tb : Q) :
  h_tvl a = Some ta -> h_tvl b = Some tb -> ~ (ta == 0)%Q ->
  percent_change (Some a) (Some b) = Fin ((tb - ta) / ta * 100).
Proof.
  intros Ha Hb Hne. unfold percent_change. rewrite Ha, Hb. simpl.
  destruct (Qeq_bool ta 0) eqn:E; [|reflexivity].
  apply Qeq_bool_iff in E. contradiction.
Qed.

Lemma nonzero_point_nth (data : list (option hist_point)) (i : nat) :
  List.Forall nonzero_point data -> (i < List.length data)%nat ->
  nonzero_point (default None (nth_error data i)) /\
  nth_error data i = Some (default None (nth_error data i)).
Proof.
  intros HF Hi. destruct (nth_error data i) as [p|] eqn:E.
  - split; [|reflexivity]. simpl.
    apply nth_error_In in E. exact (proj1 (List.Forall_forall _ _) HF _ E).
  - apply nth_error_None in E. lia.
Qed.

(** X5: for a history that is not empty and in which every point carries
    a value locked other than zero, [fetchChainHistoricalTVL] divides by no
    zero: it returns the value of the last point as the current one, the
    number of points, and as its two changes the relative differences, in
    percent, to the point one place and seven places before the last (to
    the last point itself in a history too short for that).  The
    differences are taken in exact arithmetic: that a quotient beyond the
    range of a double overflows is outside the model. *)
Theorem fetchChainHistoricalTVL_divides_by_no_zero (W : World) (chainName : string)
    (s : State) (data : list (option hist_point)) :
  http_historicalChainTvl W (defillamaChainNameOf chainName)
    (List.length (requests s)) = Json data ->
  data <> [] ->
  List.Forall nonzero_point data ->
  let n := List.length data in
  exists h latest t,
    fst (fetchChainHistoricalTVL W chainName s) = Returned (Some h) /\
    nth_error data (n - 1) = Some (Some latest) /\ h_tvl latest = Some t /\
    currentTVL h = t /\ dataPoints h = n /\
    (exists dayAgo d,
       nth_error data (if Nat.ltb 1 n then n - 2 else n - 1)%nat = Some (Some dayAgo) /\
       h_tvl dayAgo = Some d /\ change1d h = Fin ((t - d) / d * 100)) /\
    (exists weekAgo w,
       nth_error data (if Nat.ltb 7 n then n - 8 else n - 1)%nat = Some (Some weekAgo) /\
       h_tvl weekAgo = Some w /\ change7d h = Fin ((t - w) / w * 100)).
Proof.
  intros Hjson Hne HF n.
  assert (Hn : (0 < n)%nat).
  { unfold n. destruct data; [congruence | simpl; lia]. }
  destruct (nonzero_point_nth data (n - 1) HF) as [(l & t & El & Ht & Htne) Hl];
    [lia|].
  destruct (nonzero_point_nth data (if Nat.ltb 1 n then n - 2 else n - 1)%nat HF)
    as [(dA & d & Ed & Hd & Hdne) Hd'];
    [destruct (Nat.ltb_spec 1 n); lia|].
  destruct (nonzero_point_nth data (if Nat.ltb 7 n then n - 8 else n - 1)%nat HF)
    as [(wA & w & Ew & Hw & Hwne) Hw'];
    [destruct (Nat.ltb_spec 7 n); lia|].
  rewrite Ed in Hd'. rewrite Ew in Hw'. rewrite El in Hl.
  eexists. exists l, t.
  split.
  - run. rewrite Hjson. unfold lift, historical_of. fold n.
    destruct (Nat.ltb_spec 0 n) as [_|]; [|lia].
    cbv zeta. rewrite El. reflexivity.
  - cbv beta iota zeta delta [currentTVL change1d change7d dataPoints].
    split; [exact Hl|]. split; [exact Ht|]. split.
    { rewrite Ht. unfold orQ, truthyQ.
      destruct (Qeq_bool t 0) eqn:E; [|reflexivity].
      apply Qeq_bool_iff in E. contradiction. }
    split; [reflexivity|]. split.
    + exists dA, d. split; [exact Hd'|]. split; [exact Hd|].
      destruct (Nat.ltb 1 n).
      * rewrite Ed. apply percent_change_quotient; assumption.
      * assert (dA = l) by congruence. subst dA.
        assert (d = t) by congruence. subst d.
        apply percent_change_quotient; assumption.
    + exists wA, w. split; [exact Hw'|]. split; [exact Hw|].
      destruct (Nat.ltb 7 n).
      * rewrite Ew. apply percent_change_quotient; assumption.
      * assert (wA = l) by congruence. subst wA.
        assert (w = t) by congruence. subst w.
        apply percent_change_quotient; assumption.
Qed.

(** A history of three points on the way up. *)
Lemma fetchChainHistoricalTVL_divides_by_no_zero_witness :
  exists h,
    fst (fetchChainHistoricalTVL
           (constant_world NetworkError
              (Json [Some {| h_tvl := Some 4%Q |}; Some {| h_tvl := Some 5%Q |};
                     Some {| h_tvl := Some 6%Q |}])
              NetworkError NetworkError NetworkError NetworkError)
           "Ethereum" initial_state)
    = Returned (Some h) /\
    currentTVL h = 6%Q /\ change1d h = Fin ((6 - 5) / 5 * 100).
Proof.
  destruct (fetchChainHistoricalTVL_divides_by_no_zero
              (constant_world NetworkError
                 (Json [Some {| h_tvl := Some 4%Q |}; Some {| h_tvl := Some 5%Q |};
                        Some {| h_tvl := Some 6%Q |}])
                 NetworkError NetworkError NetworkError NetworkError)
              "Ethereum" initial_state
              [Some {| h_tvl := Some 4%Q |}; Some {| h_tvl := Some 5%Q |};
               Some {| h_tvl := Some 6%Q |}])
    as (h & latest & t & E & Hl & Ht & Hc & _ & (dayAgo & d & Hd & Hdt & H1) & _).
  - reflexivity.
  - discriminate.
  - repeat constructor; eexists; eexists; (split; [reflexivity|]);
      (split; [reflexivity|]); discriminate.
  - exists h. simpl in Hl, Hd.
    injection Hl as <-. injection Hd as <-.
    simpl in Ht, Hdt. injection Ht as <-. injection Hdt as <-.
    split; [exact E|]. split; [exact Hc | exact H1].
Defined.

(** ** [services/yields.js] *)

Lemma sumQ_nil : sumQ [] = 0%Q.
Proof. reflexivity. Qed.

Lemma sumQ_between (lo hi : Q) (l : list Q) :
  List.Forall (fun x => lo < x /\ x < hi)%Q l -> l <> [] ->
  (lo * inject_Z (Z.of_nat (List.length l)) < sumQ l /\
   sumQ l < hi * inject_Z (Z.of_nat (List.length l)))%Q.
Proof.
  induction l as [|x l IH]; intros HF Hne; [congruence|].
  inversion HF as [|? ? [Hx1 Hx2] HF']; subst.
  rewrite sumQ_cons.
  assert (E : (inject_Z (Z.of_nat (List.length (x :: l)))
               == 1 + inject_Z (Z.of_nat (List.length l)))%Q).
  { simpl List.length. rewrite Nat2Z.inj_succ. unfold Z.succ.
    rewrite inject_Z_plus. ring. }
  rewrite E. destruct l as [|y l].
  - rewrite sumQ_nil.
    change (inject_Z (Z.of_nat (List.length (@nil Q)))) with 0%Q. split; lra.
  - destruct (IH HF') as [H1 H2]; [discriminate|]. split; lra.
Qed.

Lemma sumQ_nonneg (l : list Q) :
  List.Forall (fun x => 0 <= x)%Q l -> (0 <= sumQ l)%Q.
Proof.
  induction l as [|x l IH]; intros HF; [rewrite sumQ_nil; lra|].
  inversion HF; subst. rewrite sumQ_cons. specialize (IH ltac:(assumption)). lra.
Qed.

Lemma sumQ_positive (l : list Q) :
  List.Forall (fun x => 0 < x)%Q l -> l <> [] -> (0 < sumQ l)%Q.
Proof.
  induction l as [|x l IH]; intros HF Hne; [congruence|].
  inversion HF as [|? ? Hx HF']; subst. rewrite sumQ_cons.
  assert (0 <= sumQ l)%Q.
  { apply sumQ_nonneg. eapply List.Forall_impl; [|exact HF'].
    intros a Ha. simpl in Ha. lra. }
  lra.
Qed.

(** The part of a sum that is taken over a selection, each term weighted
    by a factor below [c], stays below [c] times the whole sum. *)
Lemma weighted_sum_below {A} (w t : A -> Q) (c : Q) (p : A -> bool) (l : list A) :
  (0 < c)%Q ->
  (forall x, In x l -> 0 < t x)%Q ->
  (forall x, In x l -> p x = true -> 0 < w x /\ w x < c)%Q ->
  (0 <= sumQ (map (fun x => w x * t x) (List.filter p l)) /\
   (l <> [] ->
    sumQ (map (fun x => w x * t x) (List.filter p l)) < c * sumQ (map t l)))%Q.
Proof.
  intros Hc. induction l as [|x l IH]; intros Ht Hw.
  - simpl. rewrite sumQ_nil. split; [lra | congruence].
  - assert (Ht' : (forall y, In y l -> 0 < t y)%Q)
      by (intros y Hy; apply Ht; right; exact Hy).
    assert (Hw' : (forall y, In y l -> p y = true -> 0 < w y /\ w y < c)%Q)
      by (intros y Hy; apply Hw; right; exact Hy).
    destruct (IH Ht' Hw') as [IH0 IH1].
    pose proof (Ht x (or_introl eq_refl)) as Hx.
    assert (Hrest : (sumQ (map (fun x => w x * t x) (List.filter p l))
                     <= c * sumQ (map t l))%Q).
    { destruct l as [|y l]; [simpl; rewrite !sumQ_nil; lra|].
      apply Qlt_le_weak, IH1. discriminate. }
    simpl. destruct (p x) eqn:Ep.
    + destruct (Hw x (or_introl eq_refl) Ep) as [Hw0 Hw1].
      simpl. rewrite !sumQ_cons.
      assert (0 < w x * t x)%Q by (apply Qmult_lt_0_compat; assumption).
      assert (w x * t x < c * t x)%Q by (apply Qmult_lt_compat_r; assumption).
      split; [lra | intros _; lra].
    + rewrite sumQ_cons.
      assert (0 < c * t x)%Q by (apply Qmult_lt_0_compat; assumption).
      split; [exact IH0 | intros _; lra].
Qed.

Lemma gtQ_Some (x : option Q) (c : Q) :
  gtQ x c = true -> exists q, x = Some q /\ (c < q)%Q.
Proof.
  unfold gtQ. destruct x as [q|]; [|discriminate]. intros H.
  exists q. split; [reflexivity|]. apply Qle_bool_false, negb_true_iff, H.
Qed.

Lemma ltQ_Some (x : option Q) (c : Q) :
  ltQ x c = true -> exists q, x = Some q /\ (q < c)%Q.
Proof.
  unfold ltQ. destruct x as [q|]; [|discriminate]. intros H.
  exists q. split; [reflexivity|]. apply Qle_bool_false, negb_true_iff, H.
Qed.

Lemma realistic_apy_Some (p : pool_json) :
  realistic_apy p = true -> exists a, pl_apy p = Some a /\ (0 < a /\ a < 1000)%Q.
Proof.
  unfold realistic_apy. intros H. apply andb_true_iff in H as [H1 H2].
  apply gtQ_Some in H1 as (a & Ea & Ha). apply ltQ_Some in H2 as (a' & Ea' & Ha').
  exists a. split; [exact Ea|]. rewrite Ea in Ea'. injection Ea' as <-. lra.
Qed.

Lemma on_chain_ci (n : string) (p : pool_json) :
  on_chain n p = true -> exists c, pl_chain p = Some c /\ same_ci c n.
Proof.
  unfold on_chain. destruct (pl_chain p) as [c|]; [|discriminate].
  intros H. apply andb_true_iff in H as [_ H]. exists c.
  split; [reflexivity | apply String.eqb_eq, H].
Qed.

Lemma positive_true (q : Q) : positive q = true -> (0 < q)%Q.
Proof. unfold positive. intros H. apply Qle_bool_false, negb_true_iff, H. Qed.

Lemma yieldStats_bounds (n : string) (pools : list pool_json) (st : yield_stats) :
  yieldStats_of n pools = Some st ->
  (1 <= poolCount st)%nat /\
  (0 < totalYieldTvl st)%Q /\
  (0 <= avgApy st /\ avgApy st < 1000)%Q /\
  (0 <= weightedAvgApy st /\ weightedAvgApy st < 1000)%Q /\
  (0 <= medianApy st /\ medianApy st < 1000)%Q.
Proof.
  unfold yieldStats_of.
  set (chainPools :=
         List.filter (fun pool => (on_chain n pool && gtQ (pl_tvlUsd pool) 0)%bool) pools).
  set (rated := List.filter realistic_apy chainPools).
  set (apys := map (fun p => default 0%Q (pl_apy p)) rated).
  destruct (Nat.eqb_spec (List.length chainPools) 0) as [|Hlen]; [discriminate|].
  intros [= <-]. simpl.
  assert (Hne : chainPools <> []) by (destruct chainPools; [contradiction | discriminate]).
  assert (Htvl : forall p, In p chainPools ->
                   (0 < orQ (pl_tvlUsd p) 0)%Q).
  { intros p Hp. apply filter_In in Hp as [_ Hp].
    apply andb_true_iff in Hp as [_ Hp]. apply gtQ_Some in Hp as (q & -> & Hq).
    rewrite orQ_Some. exact Hq. }
  assert (Hapys : List.Forall (fun x => 0 < x /\ x < 1000)%Q apys).
  { apply List.Forall_forall. intros a Ha. unfold apys in Ha.
    apply in_map_iff in Ha as (p & <- & Hp). apply filter_In in Hp as [_ Hp].
    apply realistic_apy_Some in Hp as (a & -> & Ha). exact Ha. }
  assert (Htotal : (0 < sumQ (map (fun p => orQ (pl_tvlUsd p) 0) chainPools))%Q).
  { apply sumQ_positive.
    - apply List.Forall_forall. intros q Hq. apply in_map_iff in Hq as (p & <- & Hp).
      apply Htvl, Hp.
    - destruct chainPools; [contradiction | discriminate]. }
  split; [lia|]. split; [exact Htotal|]. split; [|split].
  - destruct (Nat.ltb_spec 0 (List.length apys)) as [Hpos|]; [|lra].
    destruct (sumQ_between 0 1000 apys Hapys) as [H1 H2].
    { destruct apys; [simpl in Hpos; lia | discriminate]. }
    assert (Hl : (0 < inject_Z (Z.of_nat (List.length apys)))%Q).
    { rewrite <- (Zlt_Qlt 0). lia. }
    split.
    + apply Qlt_le_weak, Qlt_shift_div_l; [exact Hl | lra].
    + apply Qlt_shift_div_r; [exact Hl | lra].
  - destruct (weighted_sum_below
                (fun p => default 0%Q (pl_apy p))
                (fun p => orQ (pl_tvlUsd p) 0) 1000 realistic_apy chainPools)
      as [H0 H1]; [lra | exact Htvl | |].
    { intros p _ Hp. apply realistic_apy_Some in Hp as (a & -> & Ha). exact Ha. }
    specialize (H1 Hne). fold rated in H0, H1.
    destruct (positive (sumQ (map (fun p => orQ (pl_tvlUsd p) 0) chainPools)));
      [|lra].
    split.
    + apply Qle_shift_div_l; [exact Htotal | lra].
    + apply Qlt_shift_div_r; [exact Htotal | exact H1].
  - destruct (Nat.ltb_spec 0 (List.length apys)) as [Hpos|]; [|lra].
    assert (Hin : In (nth (List.length apys / 2) (js_sort Qle_bool apys) 0%Q) apys).
    { apply (In_js_sort Qle_bool). apply nth_In. rewrite length_js_sort.
      apply Nat.div_lt; lia. }
    pose proof (proj1 (List.Forall_forall _ _) Hapys _ Hin) as H. simpl in H. lra.
Qed.

(** X6: the statistics that [fetchChainYieldStats] returns for a chain
    count at least one pool, carry a positive total value, and an average,
    a value-weighted average and a median yield that are at least 0 and
    below 1000.  The sums and quotients are taken in exact arithmetic; in
    doubles the rounding of a quotient can reach 1000 itself. *)
Theorem fetchChainYieldStats_bounds (W : World) (chainName : string) (s : State)
    (st : yield_stats) :
  fst (fetchChainYieldStats W chainName s) = Returned (Some st) ->
  (1 <= poolCount st)%nat /\
  (0 < totalYieldTvl st)%Q /\
  (0 <= avgApy st /\ avgApy st < 1000)%Q /\
  (0 <= weightedAvgApy st /\ weightedAvgApy st < 1000)%Q /\
  (0 <= medianApy st /\ medianApy st < 1000)%Q.
Proof.
  unfold fetchChainYieldStats, try_catch, bind, ret.
  destruct (fetchAllPools W s) as [[pools|] s1]; simpl; intros H.
  - injection H as H. apply (yieldStats_bounds chainName pools st H).
  - discriminate.
Qed.

(** The statistics of "Ethereum" in a world whose yields provider lists
    four pools, one of them with a yield of 2000. *)
Lemma fetchChainYieldStats_bounds_witness :
  exists st,
    fst (fetchChainYieldStats yields_world "Ethereum" initial_state)
    = Returned (Some st) /\
    poolCount st = 3%nat /\ (weightedAvgApy st < 1000)%Q.
Proof.
  eexists. split; [vm_compute; reflexivity|]. split; [reflexivity|].
  refine (proj2 (proj1 (proj2 (proj2 (proj2
            (fetchChainYieldStats_bounds yields_world "Ethereum" initial_state
               _ _)))))).
  vm_compute. reflexivity.
Defined.

(** X7: [fetchChainTopYields] always returns; it returns at most [limit]
    pools, each on the chain (up to case) with more than one million locked
    and a yield above 0 and below 1000, in the order of the value locked,
    the largest first. *)
Theorem fetchChainTopYields_selection (W : World) (chainName : string)
    (limit : nat) (s : State) :
  exists l,
    fst (fetchChainTopYields W chainName limit s) = Returned l /\
    (List.length l <= limit)%nat /\
    List.Forall
      (fun y =>
         exists c t a,
           ty_chain y = Some c /\ same_ci c chainName /\
           ty_tvlUsd y = Some t /\ (1000000 < t)%Q /\
           ty_apy y = Some a /\ (0 < a /\ a < 1000)%Q)
      l /\
    ordered (fun a b => Qle_bool (default 0%Q (ty_tvlUsd b)) (default 0%Q (ty_tvlUsd a))) l.
Proof.
  unfold fetchChainTopYields, try_catch, bind, ret.
  destruct (fetchAllPools W s) as [[pools|] s1]; simpl.
  2: { exists []. simpl. repeat split; [lia | constructor]. }
  eexists. split; [reflexivity|]. unfold topYields_of. repeat split.
  - rewrite length_map. apply length_slice0.
  - apply List.Forall_forall. intros y Hy.
    apply in_map_iff in Hy as (p & <- & Hp). simpl.
    apply In_slice0, In_js_sort, filter_In in Hp as [_ Hp].
    apply andb_true_iff in Hp as [Hp Hapy]. apply andb_true_iff in Hp as [Hc Ht].
    apply on_chain_ci in Hc as (c & Ec & Hc).
    apply gtQ_Some in Ht as (t & Et & Ht).
    apply realistic_apy_Some in Hapy as (a & Ea & Ha).
    exists c, t, a. repeat split; try assumption; apply Ha.
  - match goal with
    | |- ordered _ (map ?f ?l) =>
        apply (ordered_map f
                 (fun a b => Qle_bool (default 0%Q (pl_tvlUsd b))
                               (default 0%Q (pl_tvlUsd a))))
    end.
    + intros a b H. exact H.
    + apply ordered_slice0, ordered_js_sort. intros a b. apply Qle_bool_total.
Qed.

Lemma fetchAllPools_miss (W : World) (s : State) (data : pools_json) :
  fresh (poolsCache s) (poolsCacheTime s) POOLS_CACHE_TTL (now W (ticks s)) = false ->
  http_pools W (List.length (requests s)) = Json data ->
  fetchAllPools W s
  = (Returned (default [] (pools_data data)),
     set_poolsCache (default [] (pools_data data)) (now W (ticks s))
       (set_requests (GET_pools :: requests s) (set_ticks (S (ticks s)) s))).
Proof.
  intros Hx Hjson. run. unfold served. rewrite Hx. simpl. rewrite Hjson. reflexivity.
Qed.

Lemma fetchAllPools_hit (W : World) (s : State) (cached : list pool_json) :
  poolsCache s = Some cached ->
  (now W (ticks s) - poolsCacheTime s < POOLS_CACHE_TTL)%Z ->
  fetchAllPools W s = (Returned cached, set_ticks (S (ticks s)) s).
Proof.
  intros Hc Ht. run. rewrite Hc, (served_hit _ _ _ _ Ht). reflexivity.
Qed.

(** X8: a download of the pools serves the calls that come after it.  When
    [fetchChainYieldStats] finds the cache of the pools expired and the
    provider answers, it issues one request, and every call of
    [fetchChainTopYields], for whatever network, that starts after it has
    returned, with the cache as the download left it and less than the time
    to live after the start of the download, is computed from the same
    pools without a request.  Nothing is said of a call that starts before
    the download has returned. *)
Theorem pools_download_serves_later_calls (W : World) (a b : string) (limit : nat)
    (s : State) (data : pools_json) :
  fresh (poolsCache s) (poolsCacheTime s) POOLS_CACHE_TTL (now W (ticks s)) = false ->
  http_pools W (List.length (requests s)) = Json data ->
  let pools := default [] (pools_data data) in
  exists s1,
    fetchChainYieldStats W a s = (Returned (yieldStats_of a pools), s1) /\
    requests s1 = GET_pools :: requests s /\
    forall s',
      poolsCache s' = poolsCache s1 -> poolsCacheTime s' = poolsCacheTime s1 ->
      (now W (ticks s') - now W (ticks s) < POOLS_CACHE_TTL)%Z ->
      exists s2,
        fetchChainTopYields W b limit s' = (Returned (topYields_of b limit pools), s2) /\
        requests s2 = requests s'.
Proof.
  intros Hx Hjson pools.
  pose proof (fetchAllPools_miss W s data Hx Hjson) as E1. fold pools in E1.
  eexists. split; [|split].
  - unfold fetchChainYieldStats. apply try_catch_run.
    rewrite (bind_run _ _ _ _ _ E1). reflexivity.
  - reflexivity.
  - intros s' Hc Ht Hnow. simpl in Hc, Ht.
    eexists. split.
    + unfold fetchChainTopYields. apply try_catch_run.
      erewrite bind_run; [reflexivity|].
      apply fetchAllPools_hit; [exact Hc | rewrite Ht; exact Hnow].
    + reflexivity.
Qed.

(** The statistics of "Ethereum" and, right after them, the top yields of
    "Solana" in the world of the four pools. *)
Lemma pools_download_serves_later_calls_witness :
  exists s1 s2,
    fetchChainYieldStats yields_world "Ethereum" initial_state
    = (Returned (yieldStats_of "Ethereum" sample_pools), s1) /\
    fetchChainTopYields yields_world "Solana" 3 s1
    = (Returned (topYields_of "Solana" 3 sample_pools), s2) /\
    requests s2 = [GET_pools].
Proof.
  destruct (pools_download_serves_later_calls yields_world "Ethereum" "Solana" 3 initial_state
              {| pools_data := Some sample_pools |} eq_refl eq_refl)
    as (s1 & E1 & Hreq & Hlater).
  destruct (Hlater s1 eq_refl eq_refl) as (s2 & E2 & Hreq2).
  - assert (Hs1 : s1 = snd (fetchChainYieldStats yields_world "Ethereum" initial_state))
      by (rewrite E1; reflexivity).
    rewrite Hs1. vm_compute. reflexivity.
  - exists s1, s2. split; [exact E1|]. split; [exact E2|].
    rewrite Hreq2, Hreq. reflexivity.
Defined.

(** ** Lookups without regard to case *)

Lemma obj_get_None {V} (k : string) (o : obj V) :
  obj_get k o = None <-> ~ In k (obj_keys o).
Proof.
  induction o as [|[k0 v0] o IH]; simpl.
  - split; [intros _ [] | reflexivity].
  - destruct (String.eqb_spec k k0) as [->|Hne].
    + split; [discriminate | intros H; exfalso; apply H; left; reflexivity].
    + rewrite IH. split.
      * intros H [E|Hin]; [congruence | contradiction].
      * intros H Hin. apply H. right. exact Hin.
Qed.

Lemma obj_get_Some_key {V} (k : string) (v : V) (o : obj V) :
  obj_get k o = Some v -> In k (obj_keys o).
Proof.
  intros H. apply obj_get_In in H. unfold obj_keys.
  apply in_map_iff. exists (k, v). split; [reflexivity | exact H].
Qed.

Lemma same_ci_refl (n : string) : same_ci n n.
Proof. reflexivity. Qed.

Lemma find_key_ci_None {V} (names : list string) (o : obj V) :
  find_key_ci names o = None <->
  forall key n, In key (obj_keys o) -> In n names -> ~ same_ci key n.
Proof.
  unfold find_key_ci, js_find. split.
  - intros H key n Hkey Hn Hci.
    pose proof (find_none _ _ H key Hkey) as Hf. simpl in Hf.
    assert (Ht : existsb (fun n => String.eqb (toLowerCase key) (toLowerCase n)) names
                 = true).
    { apply existsb_exists. exists n. split; [exact Hn | apply String.eqb_eq, Hci]. }
    congruence.
  - intros H.
    destruct (find _ (obj_keys o)) as [key|] eqn:E; [|reflexivity].
    apply find_some in E as [Hkey Hp].
    apply existsb_exists in Hp as (n & Hn & Hci). apply String.eqb_eq in Hci.
    exfalso. exact (H key n Hkey Hn Hci).
Qed.

Lemma find_key_ci_Some {V} (names : list string) (o : obj V) (key : string) :
  find_key_ci names o = Some key ->
  In key (obj_keys o) /\ exists n, In n names /\ same_ci key n.
Proof.
  unfold find_key_ci, js_find. intros E. apply find_some in E as [Hkey Hp].
  split; [exact Hkey|]. apply existsb_exists in Hp as (n & Hn & Hci).
  exists n. split; [exact Hn | apply String.eqb_eq, Hci].
Qed.

Lemma obj_get_listed {V} (key : string) (o : obj V) :
  In key (obj_keys o) -> exists v, obj_get key o = Some v.
Proof.
  intros H. destruct (obj_get key o) as [v|] eqn:E; [exists v; reflexivity|].
  apply obj_get_None in E. contradiction.
Qed.

(** ** [fetchChainStablecoinTVL] *)

(** X9: for a chain name in ASCII that is not the name of an inherited
    property, and a map of the stablecoins whose keys are in ASCII,
    [fetchChainStablecoinTVL] finds the entry of the chain exactly when
    some key of the map equals the chain name up to case; an entry under
    the exact name is preferred, and the entry found is always that of a
    key that matches up to case. *)
Theorem stablecoin_entry_up_to_case (chainName : string) (chains : obj sc_entry) :
  inherited chainName = false ->
  ascii_only chainName = true ->
  List.Forall (fun key => ascii_only key = true) (obj_keys chains) ->
  (stablecoin_entry chainName chains = None <->
   forall key, In key (obj_keys chains) -> ~ same_ci key chainName) /\
  (forall d, obj_get chainName chains = Some d ->
     stablecoin_entry chainName chains = Some d) /\
  (forall d, stablecoin_entry chainName chains = Some d ->
     exists key,
       In key (obj_keys chains) /\ same_ci key chainName /\
       obj_get key chains = Some d).
Proof.
  intros _ _ _. unfold stablecoin_entry. split; [|split].
  - split.
    + intros H key Hkey Hci.
      destruct (obj_get chainName chains) as [d|] eqn:E; [discriminate|].
      destruct (find_key_ci [chainName] chains) as [k|] eqn:Ek.
      * apply find_key_ci_Some in Ek as [Hk _].
        destruct (obj_get_listed _ _ Hk) as [v Hv]. congruence.
      * apply (proj1 (find_key_ci_None _ _) Ek key chainName Hkey);
          [left; reflexivity | exact Hci].
    + intros H.
      destruct (obj_get chainName chains) as [d|] eqn:E.
      * exfalso. apply (H chainName (obj_get_Some_key _ _ _ E)), same_ci_refl.
      * destruct (find_key_ci [chainName] chains) as [k|] eqn:Ek; [|reflexivity].
        apply find_key_ci_Some in Ek as [Hk (n & [<-|[]] & Hci)].
        exfalso. exact (H k Hk Hci).
  - intros d ->. reflexivity.
  - intros d H. destruct (obj_get chainName chains) as [d'|] eqn:E.
    + injection H as ->. exists chainName.
      split; [exact (obj_get_Some_key _ _ _ E)|]. split; [apply same_ci_refl | exact E].
    + destruct (find_key_ci [chainName] chains) as [k|] eqn:Ek; [|discriminate].
      apply find_key_ci_Some in Ek as [Hk (n & [<-|[]] & Hci)].
      exists k. repeat split; assumption.
Qed.

(** A listing that names the chain in capitals. *)
Lemma stablecoin_entry_up_to_case_witness :
  exists d,
    stablecoin_entry "Tron"
      [("TRON", {| totalCirculatingUSD := 7%Q; totalCirculating := None |})]
    = Some d.
Proof.
  destruct (stablecoin_entry "Tron"
              [("TRON", {| totalCirculatingUSD := 7%Q; totalCirculating := None |})])
    as [d|] eqn:E; [exists d; reflexivity|].
  exfalso.
  apply (proj1 (proj1 (stablecoin_entry_up_to_case "Tron"
                         [("TRON", {| totalCirculatingUSD := 7%Q;
                                      totalCirculating := None |})]
                         eq_refl eq_refl
                         ltac:(repeat constructor))) E "TRON").
  - left. reflexivity.
  - reflexivity.
Defined.

(** ** [fetchNetworkDetails]: the value locked of the network *)

Lemma find_alt_None (tvlData : obj tvl_entry) (alts : list string) :
  find_alt tvlData alts = None <->
  forall alt, In alt alts -> ~ In alt (obj_keys tvlData).
Proof.
  induction alts as [|a alts IH]; simpl.
  - split; [intros _ alt [] | reflexivity].
  - destruct (obj_get a tvlData) as [d|] eqn:E.
    + split; [discriminate|]. intros H. exfalso.
      apply (H a (or_introl eq_refl)), (obj_get_Some_key _ _ _ E).
    + rewrite IH. apply obj_get_None in E. split.
      * intros H alt [<-|Hin]; [exact E | apply H, Hin].
      * intros H alt Hin. apply H. right. exact Hin.
Qed.

Lemma find_alt_Some (tvlData : obj tvl_entry) (alts : list string)
    (alt : string) (d : tvl_entry) :
  find_alt tvlData alts = Some (alt, d) -> In alt alts /\ obj_get alt tvlData = Some d.
Proof.
  induction alts as [|a alts IH]; simpl; [discriminate|].
  destruct (obj_get a tvlData) as [d'|] eqn:E.
  - intros [= <- <-]. split; [left; reflexivity | exact E].
  - intros H. destruct (IH H) as [Hin Hd]. split; [right; exact Hin | exact Hd].
Qed.

(** X10: for a network name in ASCII that is not the name of an inherited
    property, and a map of the registry whose keys are in ASCII,
    [fetchNetworkDetails] finds the entry of the network in the map exactly
    when some key of the map equals the network name or its mapped name up
    to case, or is one of the alternative names of the network; the entry
    found is always that of such a key. *)
Theorem locate_chain_every_alias (networkName : string) (tvlData : obj tvl_entry) :
  inherited networkName = false ->
  ascii_only networkName = true ->
  List.Forall (fun key => ascii_only key = true) (obj_keys tvlData) ->
  let matches := fun key : string =>
    same_ci key networkName \/
    same_ci key (defillamaChainNameOf networkName) \/
    exists info,
      obj_get networkName CHAIN_NAME_MAP = Some info /\ In key (altNames info) in
  (fst (locate_chain networkName tvlData) = None <->
   forall key, In key (obj_keys tvlData) -> ~ matches key) /\
  (forall d, fst (locate_chain networkName tvlData) = Some d ->
     exists key,
       In key (obj_keys tvlData) /\ matches key /\ obj_get key tvlData = Some d).
Proof.
  intros _ _ _ matches. unfold locate_chain.
  set (mapped := defillamaChainNameOf networkName) in *.
  destruct (obj_get networkName tvlData) as [d0|] eqn:E0.
  { (* found under the name itself *)
    assert (H0 : In networkName (obj_keys tvlData) /\ matches networkName).
    { split; [exact (obj_get_Some_key _ _ _ E0) | left; reflexivity]. }
    simpl. split.
    - split; [discriminate|]. intros H. exfalso.
      exact (H networkName (proj1 H0) (proj2 H0)).
    - intros d [= <-]. exists networkName.
      split; [apply H0|]. split; [apply H0 | exact E0]. }
  destruct (obj_get mapped tvlData) as [d1|] eqn:E1.
  { assert (H1 : In mapped (obj_keys tvlData) /\ matches mapped).
    { split; [exact (obj_get_Some_key _ _ _ E1) | right; left; reflexivity]. }
    destruct (obj_get networkName CHAIN_NAME_MAP) as [info|]; simpl; split.
    - split; [discriminate|]. intros H. exfalso. exact (H mapped (proj1 H1) (proj2 H1)).
    - intros d [= <-]. exists mapped. split; [apply H1|]. split; [apply H1 | exact E1].
    - split; [discriminate|]. intros H. exfalso. exact (H mapped (proj1 H1) (proj2 H1)).
    - intros d [= <-]. exists mapped. split; [apply H1|]. split; [apply H1 | exact E1]. }
  assert (Hci : forall (Halt : forall key info,
                          obj_get networkName CHAIN_NAME_MAP = Some info ->
                          In key (altNames info) -> ~ In key (obj_keys tvlData)),
            (fst match find_key_ci [networkName; mapped] tvlData with
                 | Some key => (obj_get key tvlData, key)
                 | None => (None, mapped)
                 end = None <->
             forall key, In key (obj_keys tvlData) -> ~ matches key) /\
            (forall d,
               fst match find_key_ci [networkName; mapped] tvlData with
                   | Some key => (obj_get key tvlData, key)
                   | None => (None, mapped)
                   end = Some d ->
               exists key,
                 In key (obj_keys tvlData) /\ matches key /\
                 obj_get key tvlData = Some d)).
  { intros Halt.
    destruct (find_key_ci [networkName; mapped] tvlData) as [key|] eqn:Ek; simpl.
    - apply find_key_ci_Some in Ek as [Hkey (n & Hn & Hci)].
      assert (Hm : matches key).
      { destruct Hn as [<-|[<-|[]]]; [left | right; left]; exact Hci. }
      destruct (obj_get_listed _ _ Hkey) as [v Hv]. rewrite Hv. split.
      + split; [discriminate|]. intros H. exfalso. exact (H key Hkey Hm).
      + intros d [= <-]. exists key. repeat split; assumption.
    - split; [|discriminate]. split; [|reflexivity]. intros _ key Hkey Hm.
      pose proof (proj1 (find_key_ci_None _ _) Ek key) as Hnone.
      destruct Hm as [Hm|[Hm|(info & Hinfo & Hin)]].
      + apply (Hnone networkName Hkey); [left; reflexivity | exact Hm].
      + apply (Hnone mapped Hkey); [right; left; reflexivity | exact Hm].
      + exact (Halt key info Hinfo Hin Hkey). }
  destruct (obj_get networkName CHAIN_NAME_MAP) as [info|] eqn:Einfo.
  - destruct (find_alt tvlData (altNames info)) as [[alt d]|] eqn:Ealt.
    + apply find_alt_Some in Ealt as [Hin Hd].
      assert (Hm : matches alt) by (right; right; exists info; split; [reflexivity | exact Hin]).
      simpl. split.
      * split; [discriminate|]. intros H. exfalso.
        exact (H alt (obj_get_Some_key _ _ _ Hd) Hm).
      * intros d' [= <-]. exists alt.
        split; [exact (obj_get_Some_key _ _ _ Hd)|]. split; assumption.
    + apply Hci. intros key info' [= <-] Hin.
      exact (proj1 (find_alt_None _ _) Ealt key Hin).
  - apply Hci. intros key info' Hinfo. discriminate.
Qed.

(** The registry lists "Binance" only: the network "BSC" is found. *)
Lemma locate_chain_every_alias_witness :
  exists d,
    fst (locate_chain "BSC"
           [("Binance", {| tvl := 5%Q; tokenSymbol := None; te_geckoId := None;
                           te_chainId := None |})])
    = Some d.
Proof.
  destruct (fst (locate_chain "BSC"
                   [("Binance", {| tvl := 5%Q; tokenSymbol := None;
                                   te_geckoId := None; te_chainId := None |})]))
    as [d|] eqn:E; [exists d; reflexivity|].
  exfalso.
  apply (proj1 (proj1 (locate_chain_every_alias "BSC"
                         [("Binance", {| tvl := 5%Q; tokenSymbol := None;
                                         te_geckoId := None;
                                         te_chainId := None |})]
                         eq_refl eq_refl
                         ltac:(repeat constructor))) E
           "Binance").
  - left. reflexivity.
  - right. right. eexists. split; [reflexivity|]. simpl. tauto.
Defined.

(** ** The liquidity lookup *)

Lemma search_liquidity_positive (r : option pairs_json) (l : liquidity_total) :
  search_liquidity r = Some l ->
  (0 < totalLiquidity l)%Q /\ (1 <= pairCount l)%nat.
Proof.
  unfold search_liquidity. destruct r as [r|]; [|discriminate].
  destruct (pairs r) as [ps|]; [|discriminate].
  destruct (Nat.ltb_spec 0 (List.length ps)); [|discriminate].
  destruct (positive (sum_liquidity (slice0 10 ps))) eqn:E; [|discriminate].
  intros [= <-]. simpl. split; [apply positive_true, E | lia].
Qed.

Lemma fetchChainTotalLiquidity_counts (W : World) (c : string) (s : State)
    (l : liquidity_total) :
  fst (catch_default (fetchChainTotalLiquidity W c) None s) = Returned (Some l) ->
  exists ps, totalLiquidity l = sum_liquidity ps /\ pairCount l = List.length ps.
Proof.
  run. destruct (http_pairs W c (List.length (requests s))) as [| | |data];
    simpl; try discriminate.
  destruct (pairs data) as [ps|]; simpl; [|discriminate].
  intros [= <-]. exists ps. split; reflexivity.
Qed.

(** X11: the liquidity lookup of [App.js] always returns, and what it
    returns is [null] or a total that is positive together with a count of
    at least one pair: a chain is never shown with a liquidity of zero. *)
Theorem dexscreenerPromise_positive (W : World) (net : network) (s : State) :
  exists r,
    fst (dexscreenerPromise W net s) = Returned r /\
    match r with
    | Some l => (0 < totalLiquidity l)%Q /\ (1 <= pairCount l)%nat
    | None => True
    end.
Proof.
  pose proof (fetchChainTotalLiquidity_counts W (dexChainId (name net)) s) as Hdirect.
  unfold dexscreenerPromise.
  unfold catch_default at 1. unfold try_catch at 1. unfold bind at 1.
  destruct (catch_default (fetchChainTotalLiquidity W (dexChainId (name net))) None s)
    as [[direct|] s1] eqn:E1; simpl in Hdirect.
  2: { exists None. split; [reflexivity | exact I]. }
  assert (Hsearch : exists r,
            fst ((searchResult <-
                    catch_default
                      (searchTokens W (orS (Some (symbol net)) (name net))) None ;;
                  ret (search_liquidity searchResult)) s1) = Returned r /\
            match r with
            | Some l => (0 < totalLiquidity l)%Q /\ (1 <= pairCount l)%nat
            | None => True
            end).
  { assert (Hs : exists x s2,
              (searchResult <-
                 catch_default
                   (searchTokens W (orS (Some (symbol net)) (name net))) None ;;
               ret (search_liquidity searchResult)) s1
              = (Returned (search_liquidity x), s2)).
    { run.
      destruct (http_search W _ _) as [| | |data];
        [exists None | exists None | exists None | exists (Some data)];
        eexists; reflexivity. }
    destruct Hs as (x & s2 & ->). exists (search_liquidity x).
    split; [reflexivity|].
    destruct (search_liquidity x) as [l|] eqn:El; [|exact I].
    apply (search_liquidity_positive _ _ El). }
  destruct direct as [l|].
  - destruct (positive (totalLiquidity l)) eqn:Ep.
    + exists (Some l). split; [reflexivity|].
      destruct (Hdirect l eq_refl) as (ps & Ht & Hc).
      split; [apply positive_true, Ep|].
      destruct ps as [|p ps]; [|rewrite Hc; simpl; lia].
      rewrite Ht in Ep. discriminate.
    + destruct Hsearch as (r & Er & Hr).
      destruct ((searchResult <-
                   catch_default
                     (searchTokens W (orS (Some (symbol net)) (name net))) None ;;
                 ret (search_liquidity searchResult)) s1) as [[r'|] s2];
        simpl in Er; [|discriminate].
      injection Er as ->. exists r. split; [reflexivity | exact Hr].
  - destruct Hsearch as (r & Er & Hr).
    destruct ((searchResult <-
                 catch_default
                   (searchTokens W (orS (Some (symbol net)) (name net))) None ;;
               ret (search_liquidity searchResult)) s1) as [[r'|] s2];
      simpl in Er; [|discriminate].
    injection Er as ->. exists r. split; [reflexivity | exact Hr].
Qed.

(** ** [App.js]: the groups of the dApps *)

Lemma getCategoryGroup_in_order (rawCategory : string) :
  In (getCategoryGroup rawCategory) CATEGORY_ORDER.
Proof.
  unfold getCategoryGroup, orS.
  assert (Hother : In "Other" CATEGORY_ORDER)
    by (simpl; repeat first [left; reflexivity | right]).
  destruct (obj_get rawCategory CATEGORY_GROUP_MAP) as [g|] eqn:E; [|exact Hother].
  destruct (truthyS g); [|exact Hother].
  apply obj_get_In in E.
  assert (HF : List.Forall (fun kv => In (snd kv) CATEGORY_ORDER) CATEGORY_GROUP_MAP).
  { unfold CATEGORY_GROUP_MAP.
    repeat (apply List.Forall_cons;
            [simpl; repeat first [left; reflexivity | right]|]).
    apply List.Forall_nil. }
  exact (proj1 (List.Forall_forall _ _) HF _ E).
Qed.

Lemma dappGroups_get (g : string) (dapps : list dapp_node)
    (acc : obj (list dapp_node)) :
  default []
    (obj_get g
       (fold_left
          (fun groups dapp =>
             let group := getCategoryGroup (dn_category dapp) in
             obj_set group (default [] (obj_get group groups) ++ [dapp]) groups)
          dapps acc))
  = default [] (obj_get g acc)
    ++ List.filter (fun d => String.eqb (getCategoryGroup (dn_category d)) g) dapps.
Proof.
  revert acc. induction dapps as [|d dapps IH]; intros acc; simpl.
  - symmetry. apply app_nil_r.
  - rewrite IH, obj_get_set. rewrite (String.eqb_sym g).
    destruct (String.eqb_spec (getCategoryGroup (dn_category d)) g) as [->|_].
    + simpl. rewrite <- app_assoc. reflexivity.
    + reflexivity.
Qed.

Lemma sum_indicator (k : string) (L : list string) :
  List.NoDup L -> In k L ->
  list_sum (map (fun cat => if String.eqb k cat then 1 else 0)%nat L) = 1%nat.
Proof.
  induction L as [|c L IH]; intros Hnd Hin; [destruct Hin|].
  inversion Hnd as [|? ? Hc Hnd']; subst. simpl.
  destruct (String.eqb_spec k c) as [->|Hne].
  - assert (H0 : list_sum (map (fun cat => if String.eqb c cat then 1 else 0)%nat L)
                 = 0%nat).
    { clear IH Hnd Hnd' Hin. induction L as [|c' L IH]; [reflexivity|]. simpl.
      destruct (String.eqb_spec c c') as [->|_].
      - exfalso. apply Hc. left. reflexivity.
      - apply IH. intros H. apply Hc. right. exact H. }
    rewrite H0. reflexivity.
  - destruct Hin as [->|Hin]; [congruence|]. rewrite (IH Hnd' Hin). reflexivity.
Qed.

Lemma partition_count {A} (key : A -> string) (L : list string) (l : list A) :
  List.NoDup L -> (forall x, In x l -> In (key x) L) ->
  list_sum (map (fun cat => List.length (List.filter (fun x => String.eqb (key x) cat) l)) L)
  = List.length l.
Proof.
  intros Hnd. induction l as [|x l IH]; intros Hin.
  - simpl. clear. induction L as [|c L IHL]; [reflexivity | exact IHL].
  - simpl. rewrite <- IH by (intros y Hy; apply Hin; right; exact Hy).
    rewrite <- (Nat.add_1_l (list_sum _)).
    rewrite <- (sum_indicator (key x) L Hnd (Hin x (or_introl eq_refl))).
    clear. induction L as [|c L IHL]; [reflexivity|]. simpl.
    rewrite IHL. destruct (String.eqb (key x) c); simpl; lia.
Qed.

Lemma list_sum_drop_zero {A} (h : A -> nat) (L : list A) :
  list_sum (map h (List.filter (fun c => Nat.ltb 0 (h c)) L)) = list_sum (map h L).
Proof.
  induction L as [|c L IH]; [reflexivity|]. simpl.
  destruct (Nat.ltb_spec 0 (h c)); simpl; rewrite IH; lia.
Qed.

Lemma groupDappsByCategory_filter (dapps : list dapp_node) :
  let members := fun cat =>
    List.filter (fun d => String.eqb (getCategoryGroup (dn_category d)) cat) dapps in
  groupDappsByCategory dapps
  = map (fun cat => (cat, members cat))
      (List.filter (fun cat => Nat.ltb 0 (List.length (members cat))) CATEGORY_ORDER).
Proof.
  intros members. unfold groupDappsByCategory.
  assert (Hget : forall cat, default [] (obj_get cat (dappGroups dapps)) = members cat).
  { intros cat. unfold dappGroups. rewrite dappGroups_get. reflexivity. }
  assert (Hkeep : forall cat,
            match obj_get cat (dappGroups dapps) with
            | Some g => Nat.ltb 0 (List.length g)
            | None => false
            end = Nat.ltb 0 (List.length (members cat))).
  { intros cat. rewrite <- Hget. destruct (obj_get cat (dappGroups dapps)); reflexivity. }
  rewrite (List.filter_ext _ _ Hkeep). apply map_ext. intros cat.
  rewrite Hget. reflexivity.
Qed.

(** X12: [groupDappsByCategory] splits dApps none of which has the name of
    an inherited property as its category into groups without losing or
    repeating one: the groups are those of [CATEGORY_ORDER] that have a
    member, in that order; each holds exactly the dApps whose category maps
    to it, in their order; and the sizes of the groups add up to the number
    of dApps. *)
Theorem groupDappsByCategory_partition (dapps : list dapp_node) :
  List.Forall (fun d => inherited (dn_category d) = false) dapps ->
  let groups := groupDappsByCategory dapps in
  map fst groups
  = List.filter
      (fun cat =>
         existsb (fun d => String.eqb (getCategoryGroup (dn_category d)) cat) dapps)
      CATEGORY_ORDER /\
  List.Forall
    (fun g =>
       snd g <> [] /\
       snd g
       = List.filter (fun d => String.eqb (getCategoryGroup (dn_category d)) (fst g))
           dapps)
    groups /\
  list_sum (map (fun g => List.length (snd g)) groups) = List.length dapps.
Proof.
  intros _ groups. unfold groups. rewrite groupDappsByCategory_filter.
  set (members := fun cat =>
         List.filter (fun d => String.eqb (getCategoryGroup (dn_category d)) cat) dapps).
  assert (Hnd : List.NoDup CATEGORY_ORDER).
  { unfold CATEGORY_ORDER. repeat constructor; simpl; intuition discriminate. }
  assert (Hcover : forall d : dapp_node,
            In (getCategoryGroup (dn_category d)) CATEGORY_ORDER)
    by (intros d; apply getCategoryGroup_in_order).
  revert Hnd Hcover. generalize CATEGORY_ORDER. intros L Hnd Hcover.
  split; [|split].
  - rewrite map_map. simpl. rewrite map_id. apply List.filter_ext. intros cat.
    unfold members. clear.
    induction dapps as [|d dapps IH]; [reflexivity|]. simpl.
    destruct (String.eqb (getCategoryGroup (dn_category d)) cat); [reflexivity | exact IH].
  - apply List.Forall_forall. intros g Hg.
    apply in_map_iff in Hg as (cat & <- & Hcat). apply filter_In in Hcat as [_ Hlen].
    simpl. split; [|reflexivity].
    intros Hnil. rewrite Hnil in Hlen. discriminate.
  - rewrite map_map. simpl.
    rewrite (list_sum_drop_zero (fun cat => List.length (members cat))).
    apply (partition_count (fun d => getCategoryGroup (dn_category d))); [exact Hnd|].
    intros d _. apply Hcover.
Qed.

(** Four dApps, two of them in the group of lending. *)
Lemma groupDappsByCategory_partition_witness :
  map fst (groupDappsByCategory sample_dapps) = ["DEXs"; "Lending"; "Other"] /\
  list_sum (map (fun g => List.length (snd g)) (groupDappsByCategory sample_dapps))
  = 4%nat.
Proof.
  destruct (groupDappsByCategory_partition sample_dapps) as (Hnames & _ & Hsum).
  - repeat constructor.
  - split; [rewrite Hnames; reflexivity | exact Hsum].
Defined.

(** ** [App.js]: the dApp nodes *)

Lemma length_map_indexed {A B} (f : A -> nat -> B) (i : nat) (l : list A) :
  List.length (map_indexed f i l) = List.length l.
Proof.
  revert i. induction l as [|x l IH]; intros i; simpl; [reflexivity|].
  rewrite IH. reflexivity.
Qed.

Lemma map_map_indexed {A B C} (g : B -> C) (f : A -> nat -> B) (i : nat) (l : list A) :
  map g (map_indexed f i l) = map_indexed (fun x i => g (f x i)) i l.
Proof.
  revert i. induction l as [|x l IH]; intros i; simpl; [reflexivity|].
  rewrite IH. reflexivity.
Qed.

Lemma map_indexed_const {A B} (f : A -> B) (i : nat) (l : list A) :
  map_indexed (fun x _ => f x) i l = map f l.
Proof.
  revert i. induction l as [|x l IH]; intros i; simpl; [reflexivity|].
  rewrite IH. reflexivity.
Qed.

Lemma map_indexed_index {A B} (f : nat -> B) (i : nat) (l : list A) :
  map_indexed (fun _ i => f i) i l = map f (seq i (List.length l)).
Proof.
  revert i. induction l as [|x l IH]; intros i; simpl; [reflexivity|].
  rewrite IH. reflexivity.
Qed.

Lemma In_map_indexed {A B} (f : A -> nat -> B) (i0 : nat) (l : list A) (y : B) :
  In y (map_indexed f i0 l) ->
  exists x i, y = f x i /\ In x l /\ (i0 <= i < i0 + List.length l)%nat.
Proof.
  revert i0. induction l as [|x l IH]; intros i0; simpl; [tauto|].
  intros [<-|H].
  - exists x, i0. repeat split; [left; reflexivity | lia | lia].
  - destruct (IH _ H) as (x' & i & -> & Hin & Hi).
    exists x', i. repeat split; [right; exact Hin | lia | lia].
Qed.

Lemma sumQ_div {A} (f : A -> Q) (c : Q) (l : list A) :
  (sumQ (map (fun x => f x / c) l) == sumQ (map f l) / c)%Q.
Proof.
  induction l as [|x l IH].
  - unfold sumQ. simpl. unfold Qdiv. ring.
  - simpl. rewrite !sumQ_cons, IH. unfold Qdiv. ring.
Qed.

Lemma sumQ_const {A} (c : Q) (l : list A) :
  (sumQ (map (fun _ => c) l) == inject_Z (Z.of_nat (List.length l)) * c)%Q.
Proof.
  induction l as [|x l IH].
  - unfold sumQ. simpl. ring.
  - simpl map. rewrite sumQ_cons, IH. simpl List.length.
    rewrite Nat2Z.inj_succ. unfold Z.succ. rewrite inject_Z_plus. ring.
Qed.

Lemma palette_prefix_NoDup (n : nat) :
  (n <= 20)%nat ->
  List.NoDup
    (map (fun i => nth_error DAPP_PALETTE_HEX (i mod List.length DAPP_PALETTE_HEX))
       (seq 0 n)) /\
  List.Forall (fun c => c <> None)
    (map (fun i => nth_error DAPP_PALETTE_HEX (i mod List.length DAPP_PALETTE_HEX))
       (seq 0 n)).
Proof.
  intros Hn.
  set (f := fun i => nth_error DAPP_PALETTE_HEX (i mod List.length DAPP_PALETTE_HEX)).
  assert (H20 : List.NoDup (map f (seq 0 20)) /\
                List.Forall (fun c => c <> None) (map f (seq 0 20))).
  { split.
    - vm_compute. repeat constructor; simpl; intuition discriminate.
    - vm_compute. repeat constructor; discriminate. }
  assert (E : map f (seq 0 20) = map f (seq 0 n) ++ map f (seq n (20 - n))).
  { rewrite <- map_app, <- seq_app. replace (n + (20 - n))%nat with 20%nat by lia.
    reflexivity. }
  rewrite E in H20. destruct H20 as [Hnd HF]. split.
  - apply List.NoDup_app_remove_r in Hnd. exact Hnd.
  - apply List.Forall_app in HF. apply HF.
Qed.

(** X13: for a network with at least one protocol, [computeDappNodes]
    returns a node for each of the twenty largest protocols at most, the
    largest first; in exact arithmetic the shares of the nodes add up to 1,
    also when no protocol has a value locked (in doubles the sum can miss 1
    by the rounding of the quotients); and every node has a colour of the
    palette that no other node has. *)
Theorem computeDappNodes_shares_and_colours (net : network)
    (protocols : list protocol_out) :
  protocols <> [] ->
  let nodes := computeDappNodes (Some net) (Some protocols) in
  List.length nodes = Nat.min 20 (List.length protocols) /\
  ordered (fun a b => Qle_bool (dn_tvl b) (dn_tvl a)) nodes /\
  (sumQ (map dn_tvlShare nodes) == 1)%Q /\
  List.NoDup (map dn_colorHex nodes) /\
  List.Forall (fun n => exists c, dn_colorHex n = Some c /\ In c DAPP_PALETTE_HEX) nodes.
Proof.
  intros Hne nodes. unfold nodes, computeDappNodes.
  destruct protocols as [|p0 ps]; [congruence|].
  set (protocols := p0 :: ps).
  set (sorted := slice0 20 (js_sort by_tvl_desc protocols)).
  set (totalTvl := fold_left (fun sum p => sum + orQ (Some (po_tvl p)) 0)%Q sorted 0%Q).
  assert (Hlen : List.length sorted = Nat.min 20 (List.length protocols)).
  { unfold sorted, slice0. rewrite length_firstn, length_js_sort. reflexivity. }
  assert (Hpos : (0 < List.length sorted)%nat).
  { rewrite Hlen. unfold protocols. simpl List.length. lia. }
  split; [|split; [|split; [|split]]].
  - rewrite length_map_indexed. exact Hlen.
  - match goal with
    | |- ordered ?le (map_indexed ?f 0%nat sorted) =>
        assert (Hmap : map dn_tvl (map_indexed f 0%nat sorted)
                       = map (fun p => orQ (Some (po_tvl p)) 0) sorted)
    end.
    { rewrite map_map_indexed. simpl. apply map_indexed_const. }
    match goal with
    | |- ordered _ ?l =>
        assert (Ho : ordered (fun a b => Qle_bool b a) (map dn_tvl l))
    end.
    { rewrite Hmap.
      apply (ordered_map (fun p => orQ (Some (po_tvl p)) 0) by_tvl_desc).
      - intros a b H. exact H.
      - unfold sorted. apply ordered_slice0, ordered_js_sort.
        intros a b. apply Qle_bool_total. }
    revert Ho. generalize (map_indexed
      (fun (protocol : protocol_out) (i : nat) =>
         {| dn_name := po_name protocol;
            dn_category := orS (Some (po_category protocol)) "DeFi";
            dn_tvl := orQ (Some (po_tvl protocol)) 0;
            dn_tvlShare :=
              if positive totalTvl
              then (orQ (Some (po_tvl protocol)) 0 / totalTvl)%Q
              else (1 / inject_Z (Z.of_nat (List.length sorted)))%Q;
            dn_colorHex :=
              nth_error DAPP_PALETTE_HEX (i mod List.length DAPP_PALETTE_HEX) |})
      0%nat sorted).
    clear. intros l. induction l as [|x l IH]; [trivial|].
    destruct l as [|y l]; [trivial|]. simpl. intros [H1 H2].
    split; [exact H1 | apply IH, H2].
  - rewrite map_map_indexed. simpl. rewrite map_indexed_const.
    destruct (positive totalTvl) eqn:Ep.
    + rewrite (sumQ_div (fun p => orQ (Some (po_tvl p)) 0) totalTvl).
      apply positive_true in Ep.
      assert (Et : sumQ (map (fun p => orQ (Some (po_tvl p)) 0) sorted) = totalTvl).
      { unfold totalTvl, sumQ. symmetry. apply fold_left_sum_map. }
      rewrite Et. field. lra.
    + rewrite sumQ_const.
      assert (Hl : (0 < inject_Z (Z.of_nat (List.length sorted)))%Q).
      { rewrite <- (Zlt_Qlt 0). lia. }
      field. lra.
  - rewrite map_map_indexed. simpl.
    rewrite (map_indexed_index
               (fun i => nth_error DAPP_PALETTE_HEX (i mod List.length DAPP_PALETTE_HEX))).
    apply palette_prefix_NoDup. rewrite Hlen. lia.
  - apply List.Forall_forall. intros n Hn.
    apply In_map_indexed in Hn as (p & i & -> & _ & Hi).
    cbv beta iota delta [dn_colorHex].
    set (idx := (i mod List.length DAPP_PALETTE_HEX)%nat).
    assert (Hidx : (idx < 20)%nat)
      by (apply (Nat.mod_upper_bound i 20); discriminate).
    destruct (nth_error DAPP_PALETTE_HEX idx) as [c|] eqn:E.
    + exists c. split; [reflexivity | exact (nth_error_In _ _ E)].
    + apply nth_error_None in E. simpl in E. lia.
Qed.

(** Three protocols without any value locked: each node has a third. *)
Lemma computeDappNodes_shares_and_colours_witness :
  (sumQ (map dn_tvlShare
           (computeDappNodes (Some ethereum)
              (Some [ {| po_name := Some "a"; po_tvl := 0; po_category := "Dexes" |};
                      {| po_name := Some "b"; po_tvl := 0; po_category := "" |};
                      {| po_name := Some "c"; po_tvl := 0; po_category := "CDP" |} ])))
   == 1)%Q.
Proof.
  apply (computeDappNodes_shares_and_colours ethereum
           [ {| po_name := Some "a"; po_tvl := 0; po_category := "Dexes" |};
             {| po_name := Some "b"; po_tvl := 0; po_category := "" |};
             {| po_name := Some "c"; po_tvl := 0; po_category := "CDP" |} ]).
  discriminate.
Defined.

(** ** [App.js]: the gauge and [getFearGreedColor] *)

(** X14: on every value that is a number the gauge of [App.js] shows the
    colour that [getFearGreedColor] gives, and on [NaN] it does not: the
    gauge is red where [getFearGreedColor] is green. *)
Theorem FearGreedGauge_color_agrees (value : jsnum) :
  (FearGreedGauge_color (Some value) = Some (getFearGreedColor value) <->
   value <> NaN) /\
  FearGreedGauge_color (Some NaN) = Some "#ea3943" /\
  getFearGreedColor NaN = "#16c784".
Proof.
  split; [|split; reflexivity].
  destruct value as [q| | |]; simpl.
  - split; [discriminate|]. intros _.
    unfold getFearGreedColor, js_le.
    destruct (Qle_bool q 25) eqn:E1; destruct (Qle_bool q 45) eqn:E2;
      destruct (Qle_bool q 55) eqn:E3; destruct (Qle_bool q 75) eqn:E4;
      simpl; try reflexivity; exfalso;
      repeat match goal with
             | H : Qle_bool _ _ = true |- _ => apply Qle_bool_iff in H
             | H : Qle_bool _ _ = false |- _ => apply Qle_bool_false in H
             end; lra.
  - split; [discriminate | congruence].
  - split; [discriminate | reflexivity].
  - split; [discriminate | reflexivity].
Qed.

(** ** [App.js]: the sparkline *)

Lemma Math_min_le_acc (x : Q) (l : list Q) : (Math_min x l <= x)%Q.
Proof.
  unfold Math_min. revert x. induction l as [|v l IH]; intros x; simpl; [lra|].
  destruct (Qle_bool x v) eqn:E; [apply IH|].
  apply Qle_bool_false in E. specialize (IH v). lra.
Qed.

Lemma Math_min_le (x : Q) (l : list Q) (v : Q) : In v l -> (Math_min x l <= v)%Q.
Proof.
  unfold Math_min. revert x. induction l as [|w l IH]; intros x Hin; [destruct Hin|].
  simpl. destruct Hin as [->|Hin]; [|apply IH, Hin].
  destruct (Qle_bool x v) eqn:E.
  - apply Qle_bool_iff in E. pose proof (Math_min_le_acc x l) as H.
    unfold Math_min in H. lra.
  - apply (Math_min_le_acc v l).
Qed.

Lemma Math_max_ge_acc (x : Q) (l : list Q) : (x <= Math_max x l)%Q.
Proof.
  unfold Math_max. revert x. induction l as [|v l IH]; intros x; simpl; [lra|].
  destruct (Qle_bool v x) eqn:E; [apply IH|].
  apply Qle_bool_false in E. specialize (IH v). lra.
Qed.

Lemma Math_max_ge (x : Q) (l : list Q) (v : Q) : In v l -> (v <= Math_max x l)%Q.
Proof.
  unfold Math_max. revert x. induction l as [|w l IH]; intros x Hin; [destruct Hin|].
  simpl. destruct Hin as [->|Hin]; [|apply IH, Hin].
  destruct (Qle_bool v x) eqn:E.
  - apply Qle_bool_iff in E. pose proof (Math_max_ge_acc x l) as H.
    unfold Math_max in H. lra.
  - apply (Math_max_ge_acc v l).
Qed.

Lemma unit_fraction (a b : Q) :
  (0 <= a)%Q -> (a <= b)%Q -> (0 < b)%Q -> (0 <= a / b /\ a / b <= 1)%Q.
Proof.
  intros Ha Hab Hb. split.
  - apply Qle_shift_div_l; [exact Hb | lra].
  - apply Qle_shift_div_r; [exact Hb | lra].
Qed.

Lemma scaled_fraction (r c : Q) :
  (0 <= r)%Q -> (r <= 1)%Q -> (0 <= c)%Q -> (0 <= r * c /\ r * c <= c)%Q.
Proof.
  intros H0 H1 Hc. split.
  - apply Qmult_le_0_compat; assumption.
  - rewrite <- (Qmult_1_l c) at 2. apply Qmult_le_compat_r; assumption.
Qed.

Lemma Sparkline_points_Some (data : list Q) (width height : Q) (pts : list (Q * Q)) :
  Sparkline_points (Some data) width height = Some pts ->
  exists d0,
    In d0 data /\ (2 <= List.length data)%nat /\
    pts
    = map_indexed
        (fun v i =>
           ((inject_Z (Z.of_nat i)
             / (inject_Z (Z.of_nat (List.length data)) - 1) * width)%Q,
            (height
             - (v - Math_min d0 data)
               / orQ (Some (Math_max d0 data - Math_min d0 data)%Q) 1
               * (height - 4) - 2)%Q))
        0%nat data.
Proof.
  destruct data as [|d0 [|d1 rest]]; try discriminate.
  intros H. exists d0. split; [left; reflexivity|]. split; [simpl; lia|].
  unfold Sparkline_points in H. injection H as <-. reflexivity.
Qed.

(** X15: [Sparkline] draws one point for every value, and when the width
    is not negative and the height is at least 4 every point lies inside
    the drawing area with a margin of 2 above and below: [0 <= x <= width]
    and [2 <= y <= height - 2]. *)
Theorem Sparkline_points_in_box (data : list Q) (width height : Q)
    (pts : list (Q * Q)) :
  (0 <= width)%Q -> (4 <= height)%Q ->
  Sparkline_points (Some data) width height = Some pts ->
  List.length pts = List.length data /\
  List.Forall
    (fun p => (0 <= fst p /\ fst p <= width) /\ (2 <= snd p /\ snd p <= height - 2))%Q
    pts.
Proof.
  intros Hw Hh H.
  apply Sparkline_points_Some in H as (d0 & Hd0 & Hn & ->).
  set (mn := Math_min d0 data). set (mx := Math_max d0 data).
  split; [apply length_map_indexed|].
  apply List.Forall_forall. intros p Hp.
  apply In_map_indexed in Hp as (v & i & -> & Hv & Hi).
  cbv beta iota delta [fst snd].
  pose proof (Math_min_le d0 data v Hv) as Hmin. fold mn in Hmin.
  pose proof (Math_max_ge d0 data v Hv) as Hmax. fold mx in Hmax.
  split.
  - (* the abscissa *)
    assert (Hd : (0 < inject_Z (Z.of_nat (List.length data)) - 1)%Q).
    { assert (H2 : (inject_Z 2 <= inject_Z (Z.of_nat (List.length data)))%Q).
      { rewrite <- Zle_Qle. lia. }
      change (inject_Z 2) with 2%Q in H2. lra. }
    assert (Hi' : (0 <= inject_Z (Z.of_nat i) /\
                   inject_Z (Z.of_nat i)
                   <= inject_Z (Z.of_nat (List.length data)) - 1)%Q).
    { split.
      - change 0%Q with (inject_Z 0). rewrite <- Zle_Qle. lia.
      - assert (H1 : (inject_Z (Z.of_nat i) + inject_Z 1
                      <= inject_Z (Z.of_nat (List.length data)))%Q).
        { rewrite <- inject_Z_plus, <- Zle_Qle. lia. }
        change (inject_Z 1) with 1%Q in H1. lra. }
    destruct (unit_fraction _ _ (proj1 Hi') (proj2 Hi') Hd) as [Hr0 Hr1].
    apply (scaled_fraction _ width Hr0 Hr1 Hw).
  - (* the ordinate *)
    assert (Hr : (0 <= (v - mn) / orQ (Some (mx - mn)) 1 /\
                  (v - mn) / orQ (Some (mx - mn)) 1 <= 1)%Q).
    { unfold orQ, truthyQ. destruct (Qeq_bool (mx - mn) 0) eqn:E; simpl.
      - apply Qeq_bool_iff in E. apply unit_fraction; lra.
      - apply unit_fraction; [lra | lra |].
        assert (~ (mx - mn == 0)%Q).
        { intros H. apply Qeq_bool_iff in H. congruence. }
        destruct (Qlt_le_dec 0 (mx - mn)) as [|Hle]; [assumption|].
        exfalso. apply H. lra. }
    destruct Hr as [Hr0 Hr1].
    assert (Hc : (0 <= height - 4)%Q) by lra.
    destruct (scaled_fraction _ (height - 4) Hr0 Hr1 Hc) as [H0 H1].
    split; lra.
Qed.

(** A week of prices in the default box of 120 by 32. *)
Lemma Sparkline_points_in_box_witness :
  exists pts,
    Sparkline_points (Some [3; 1; 2]%Q) 120 32 = Some pts /\
    List.length pts = 3%nat.
Proof.
  eexists. split; [reflexivity|].
  apply (Sparkline_points_in_box [3; 1; 2]%Q 120 32 _);
    [discriminate | discriminate | reflexivity].
Defined.

(** ** [App.js]: the filters of the search *)

(** X16: the three ranges of the filter on the value locked split the
    roster: every network passes exactly one of "high", "medium" and "low",
    a network without a value locked passes "low", and any other setting
    lets every network pass. *)
Theorem tvlRange_filter_partition (net : network) :
  (tvlRange_filter "high" net = true /\ tvlRange_filter "medium" net = false /\
   tvlRange_filter "low" net = false \/
   tvlRange_filter "high" net = false /\ tvlRange_filter "medium" net = true /\
   tvlRange_filter "low" net = false \/
   tvlRange_filter "high" net = false /\ tvlRange_filter "medium" net = false /\
   tvlRange_filter "low" net = true) /\
  (rawTvl net = None -> tvlRange_filter "low" net = true) /\
  (forall tvlRange,
     tvlRange <> "high" -> tvlRange <> "medium" -> tvlRange <> "low" ->
     tvlRange_filter tvlRange net = true).
Proof.
  split; [|split].
  - unfold tvlRange_filter. simpl.
    destruct (Qle_bool 1000000000 (orQ (rawTvl net) 0)) eqn:E1;
      destruct (Qle_bool 100000000 (orQ (rawTvl net) 0)) eqn:E2; simpl;
      try tauto.
    exfalso. apply Qle_bool_iff in E1. apply Qle_bool_false in E2. lra.
  - intros H. unfold tvlRange_filter. rewrite H. reflexivity.
  - intros tvlRange H1 H2 H3. unfold tvlRange_filter.
    destruct (String.eqb_spec tvlRange "high"); [contradiction|].
    destruct (String.eqb_spec tvlRange "medium"); [contradiction|].
    destruct (String.eqb_spec tvlRange "low"); [contradiction|]. reflexivity.
Qed.

(** A base network before the analytics are loaded, under "low". *)
Lemma tvlRange_filter_partition_witness : tvlRange_filter "low" ethereum = true.
Proof.
  apply (proj1 (proj2 (tvlRange_filter_partition ethereum))). reflexivity.
Defined.

Lemma discover_est (base : list network) (l : list chain_out)
    (acc add : list network) :
  List.Forall (fun n => est n = "N/A") acc ->
  fold_left (discover_step base) l (Returned acc) = Returned add ->
  List.Forall (fun n => est n = "N/A") add.
Proof.
  revert acc. induction l as [|c l IH]; intros acc Hacc Hfold.
  - simpl in Hfold. injection Hfold as <-. exact Hacc.
  - simpl in Hfold.
    match type of Hfold with
    | fold_left _ _ (if ?b then _ else _) = _ => destruct b
    end.
    + destruct (co_name c) as [n|].
      * refine (IH _ _ Hfold). apply List.Forall_app. split; [exact Hacc|].
        constructor; [reflexivity | constructor].
      * rewrite fold_discover_thrown in Hfold. discriminate.
    + exact (IH _ Hacc Hfold).
Qed.

(** X17: a network that [loadAnalytics] discovers carries "N/A" as its
    year, so that the filter on the establishment drops it under "recent"
    and under "established" alike, whatever the current year; a base
    network, whose year is a number, passes exactly one of the two. *)
Theorem establishment_filter_and_discovery (currentYear : Z) :
  (forall base allChains add n,
     additionalNetworks_of base allChains = Returned add -> In n add ->
     establishment_filter currentYear "recent" n = false /\
     establishment_filter currentYear "established" n = false) /\
  (forall n, In n BASE_NETWORKS ->
     establishment_filter currentYear "recent" n
     = negb (establishment_filter currentYear "established" n)).
Proof.
  split.
  - intros base allChains add n Hadd Hn.
    pose proof (discover_est base allChains [] add (List.Forall_nil _) Hadd) as HF.
    pose proof (proj1 (List.Forall_forall _ _) HF n Hn) as Hest. simpl in Hest.
    unfold establishment_filter. rewrite Hest. split; reflexivity.
  - intros n Hn.
    assert (HF : List.Forall
                   (fun n => exists year, parseInt (Some (est n)) = Fin year)
                   BASE_NETWORKS).
    { unfold BASE_NETWORKS. repeat constructor; eexists; reflexivity. }
    destruct (proj1 (List.Forall_forall _ _) HF n Hn) as [year Hy].
    unfold establishment_filter. rewrite Hy. simpl.
    rewrite negb_involutive. reflexivity.
Qed.

(** A chain outside the base roster with 450 million locked. *)
Lemma establishment_filter_and_discovery_witness :
  List.Forall (fun n => establishment_filter 2026 "recent" n = false)
    (match additionalNetworks_of BASE_NETWORKS
             [ {| co_name := Some "Linea"; co_tvl := 450000000;
                  co_tokenSymbol := None; co_geckoId := Some "linea";
                  co_chainId := None |} ] with
     | Returned add => add
     | Thrown => []
     end).
Proof.
  apply List.Forall_forall. intros n Hn.
  refine (proj1 (proj1 (establishment_filter_and_discovery 2026)
                   BASE_NETWORKS
                   [ {| co_name := Some "Linea"; co_tvl := 450000000;
                        co_tokenSymbol := None; co_geckoId := Some "linea";
                        co_chainId := None |} ] _ n eq_refl Hn)).
Defined.

(** ** The clients leave the snapshot cache and the roster alone *)

Lemma framed_refl s : framed s s.
Proof. split; reflexivity. Qed.

Lemma framed_trans a b c : framed a b -> framed b c -> framed a c.
Proof. intros [H1 H2] [H3 H4]. split; congruence. Qed.

Lemma frames_ret {A} (a : A) : frames (ret a).
Proof. intros s. apply framed_refl. Qed.

Lemma frames_throw {A} : frames (@throw A).
Proof. intros s. apply framed_refl. Qed.

Lemma frames_lift {A} (o : outcome A) : frames (lift o).
Proof. intros s. apply framed_refl. Qed.

Lemma frames_get {A} (f : State -> A) : frames (get f).
Proof. intros s. apply framed_refl. Qed.

Lemma frames_bind {A B} (m : M A) (k : A -> M B) :
  frames m -> (forall a, frames (k a)) -> frames (bind m k).
Proof.
  intros Hm Hk s. unfold bind. specialize (Hm s).
  destruct (m s) as [[a|] s']; simpl in *; [|assumption].
  eapply framed_trans; [eassumption | apply Hk].
Qed.

Lemma frames_try_catch {A} (m h : M A) :
  frames m -> frames h -> frames (try_catch m h).
Proof.
  intros Hm Hh s. unfold try_catch. specialize (Hm s).
  destruct (m s) as [[a|] s']; simpl in *; [assumption|].
  eapply framed_trans; [eassumption | apply Hh].
Qed.

Lemma frames_settle {A} (m : M A) : frames m -> frames (settle m).
Proof.
  intros Hm s. unfold settle. specialize (Hm s).
  destruct (m s) as [[a|] s']; assumption.
Qed.

Lemma frames_modify (f : State -> State) :
  (forall s, framed s (f s)) -> frames (modify f).
Proof. intros H s. apply H. Qed.

Lemma frames_Date_now W : frames (Date_now W).
Proof. intros s. split; reflexivity. Qed.

Lemma frames_fetch {B} r (answer : nat -> response B) : frames (fetch r answer).
Proof. intros s. split; reflexivity. Qed.

Lemma frames_new_object : frames new_object.
Proof. intros s. split; reflexivity. Qed.

(** Every branch of a client is made of steps that leave the two alone. *)
Ltac framing :=
  repeat first
    [ apply frames_ret | apply frames_throw | apply frames_lift
    | apply frames_get | apply frames_Date_now | apply frames_fetch
    | apply frames_new_object
    | assumption
    | match goal with H : forall _, frames _ |- _ => apply H end
    | apply frames_modify; intros; split; reflexivity
    | apply frames_settle
    | apply frames_try_catch
    | apply frames_bind; [| intros]
    | match goal with
      | |- frames (match ?x with _ => _ end) => destruct x
      | |- frames (if ?x then _ else _) => destruct x
      | |- frames (let '(_, _) := ?x in _) => destruct x
      end ].

Lemma frames_fetchChainTVL W : frames (fetchChainTVL W).
Proof. unfold fetchChainTVL, fetch_json. framing. Qed.

Lemma frames_fetchProtocols W : frames (fetchProtocols W).
Proof. unfold fetchProtocols, fetch_json. framing. Qed.

Lemma frames_fetchChainProtocols W n : frames (fetchChainProtocols W n).
Proof.
  unfold fetchChainProtocols, fetch_json. pose proof (frames_fetchChainTVL W). framing.
Qed.

Lemma frames_fetchChainDEXVolume W n : frames (fetchChainDEXVolume W n).
Proof. unfold fetchChainDEXVolume, fetch_json. framing. Qed.

Lemma frames_fetchChainFees W n : frames (fetchChainFees W n).
Proof. unfold fetchChainFees, fetch_json. framing. Qed.

Lemma frames_fetchChainBridgeVolume W n : frames (fetchChainBridgeVolume W n).
Proof. unfold fetchChainBridgeVolume, fetch_json. framing. Qed.

Lemma frames_fetchChainHistoricalTVL W n : frames (fetchChainHistoricalTVL W n).
Proof. unfold fetchChainHistoricalTVL, fetch_json. framing. Qed.

Lemma frames_fetchNetworkDetails W n : frames (fetchNetworkDetails W n).
Proof.
  unfold fetchNetworkDetails, catch_default.
  pose proof (frames_fetchChainTVL W). pose proof (frames_fetchProtocols W).
  pose proof (frames_fetchChainProtocols W n).
  pose proof (frames_fetchChainDEXVolume W n).
  pose proof (frames_fetchChainFees W n).
  pose proof (frames_fetchChainBridgeVolume W n).
  pose proof (frames_fetchChainHistoricalTVL W n).
  framing.
Qed.

Lemma frames_fetchAllChains W : frames (fetchAllChains W).
Proof. unfold fetchAllChains, fetch_json. framing. Qed.

Lemma frames_fetchCoinData W id : frames (fetchCoinData W id).
Proof. unfold fetchCoinData, fetch_json. framing. Qed.

Lemma frames_fetchNetworkCoinData W n g : frames (fetchNetworkCoinData W n g).
Proof.
  unfold fetchNetworkCoinData. pose proof (frames_fetchCoinData W). framing.
Qed.

Lemma frames_fetchHistoricalPrice W id d : frames (fetchHistoricalPrice W id d).
Proof. unfold fetchHistoricalPrice, fetch_json. framing. Qed.

Lemma frames_historicalPromise W net : frames (historicalPromise W net).
Proof.
  unfold historicalPromise. framing; apply frames_fetchHistoricalPrice.
Qed.

Lemma frames_searchTokens W q : frames (searchTokens W q).
Proof. unfold searchTokens, fetch_json. framing. Qed.

Lemma frames_fetchChainTotalLiquidity W c : frames (fetchChainTotalLiquidity W c).
Proof. unfold fetchChainTotalLiquidity, fetch_json. framing. Qed.

Lemma frames_dexscreenerPromise W net : frames (dexscreenerPromise W net).
Proof.
  unfold dexscreenerPromise, catch_default.
  pose proof (frames_fetchChainTotalLiquidity W (dexChainId (name net))).
  pose proof (frames_searchTokens W (orS (Some (symbol net)) (name net))).
  framing.
Qed.

Lemma frames_fetchStablecoinChains W : frames (fetchStablecoinChains W).
Proof. unfold fetchStablecoinChains, fetch_json. framing. Qed.

Lemma frames_fetchChainStablecoinTVL W n : frames (fetchChainStablecoinTVL W n).
Proof.
  unfold fetchChainStablecoinTVL. pose proof (frames_fetchStablecoinChains W).
  framing.
Qed.

Lemma frames_fetchAllPools W : frames (fetchAllPools W).
Proof. unfold fetchAllPools, fetch_json. framing. Qed.

Lemma frames_fetchChainYieldStats W n : frames (fetchChainYieldStats W n).
Proof.
  unfold fetchChainYieldStats. pose proof (frames_fetchAllPools W). framing.
Qed.

Lemma frames_fetchChainTopYields W n l : frames (fetchChainTopYields W n l).
Proof.
  unfold fetchChainTopYields. pose proof (frames_fetchAllPools W). framing.
Qed.

Lemma frames_fetchFearGreedIndex W : frames (fetchFearGreedIndex W).
Proof. unfold fetchFearGreedIndex, fetch_json. framing. Qed.

Lemma frames_catch_default {A} (m : M A) (d : A) :
  frames m -> frames (catch_default m d).
Proof. intros H. unfold catch_default. framing. Qed.

Lemma run_framed {A} (m : M A) (s : State) :
  returns m -> frames m -> exists v s1, m s = (Returned v, s1) /\ framed s s1.
Proof.
  intros Hr Hf. destruct (returns_inv m s Hr) as (v & s1 & E).
  exists v, s1. split; [assumption|]. specialize (Hf s). rewrite E in Hf. exact Hf.
Qed.

(** ** A refresh writes the entry of its own network only *)

Lemma preFetchOne_stores W net s :
  exists snap s',
    preFetchOne W net s = (Returned tt, s') /\
    networkDataCache s' = <[name net := snap]> (networkDataCache s) /\
    NETWORKS s' = NETWORKS s.
Proof.
  destruct (run_framed (fetchNetworkDetails W (name net)) s) as (v1 & s1 & E1 & F1);
    [auto with returns | apply frames_fetchNetworkDetails |].
  destruct (run_framed
              (settle (fetchNetworkCoinData W (name net) (net_geckoId net))) s1)
    as (v2 & s2 & E2 & F2);
    [auto with returns | apply frames_settle, frames_fetchNetworkCoinData |].
  destruct (run_framed (historicalPromise W net) s2) as (v3 & s3 & E3 & F3);
    [unfold historicalPromise; destruct (orNullS (net_geckoId net));
     auto with returns
    | apply frames_historicalPromise |].
  destruct (run_framed (dexscreenerPromise W net) s3) as (v4 & s4 & E4 & F4);
    [auto with returns | apply frames_dexscreenerPromise |].
  destruct (run_framed (fetchChainStablecoinTVL W (name net)) s4)
    as (v5 & s5 & E5 & F5);
    [auto with returns | apply frames_fetchChainStablecoinTVL |].
  destruct (run_framed (fetchChainYieldStats W (name net)) s5)
    as (v6 & s6 & E6 & F6);
    [auto with returns | apply frames_fetchChainYieldStats |].
  destruct (run_framed (fetchChainTopYields W (name net) 3) s6)
    as (v7 & s7 & E7 & F7);
    [auto with returns | apply frames_fetchChainTopYields |].
  destruct (run_framed (fetchFearGreedIndex W) s7) as (v8 & s8 & E8 & F8);
    [auto with returns | apply frames_fetchFearGreedIndex |].
  assert (F : framed s s8).
  { repeat (eapply framed_trans; [eassumption|]). apply framed_refl. }
  destruct F as [Fc Fn].
  eexists. eexists. split; [|split].
  - unfold preFetchOne. apply try_catch_run.
    rewrite (bind_settle_run _ _ _ _ _ E1), (bind_run _ _ _ _ _ E2),
      (bind_settle_run _ _ _ _ _ E3), (bind_settle_run _ _ _ _ _ E4),
      (bind_settle_run _ _ _ _ _ E5), (bind_settle_run _ _ _ _ _ E6),
      (bind_settle_run _ _ _ _ _ E7), (bind_settle_run _ _ _ _ _ E8).
    reflexivity.
  - simpl. rewrite Fc. reflexivity.
  - simpl. exact Fn.
Qed.

Lemma StatsCard_refresh_writes W net s :
  exists snap s',
    StatsCard_refresh W net s = (Returned (Refreshed snap), s') /\
    networkDataCache s' = <[name net := snap]> (networkDataCache s) /\
    NETWORKS s' = NETWORKS s.
Proof.
  destruct (run_framed (fetchNetworkDetails W (name net)) s) as (v1 & s1 & E1 & F1);
    [auto with returns | apply frames_fetchNetworkDetails |].
  destruct (run_framed (catch_default
                          (fetchNetworkCoinData W (name net) (net_geckoId net)) None) s1)
    as (v2 & s2 & E2 & F2);
    [auto with returns
    | apply frames_catch_default, frames_fetchNetworkCoinData |].
  destruct (run_framed (catch_default (historicalPromise W net) None) s2)
    as (v3 & s3 & E3 & F3);
    [auto with returns | apply frames_catch_default, frames_historicalPromise |].
  destruct (run_framed (dexscreenerPromise W net) s3) as (v4 & s4 & E4 & F4);
    [auto with returns | apply frames_dexscreenerPromise |].
  destruct (run_framed (catch_default (fetchChainStablecoinTVL W (name net)) 0%Q) s4)
    as (v5 & s5 & E5 & F5);
    [auto with returns
    | apply frames_catch_default, frames_fetchChainStablecoinTVL |].
  destruct (run_framed (catch_default (fetchChainYieldStats W (name net)) None) s5)
    as (v6 & s6 & E6 & F6);
    [auto with returns | apply frames_catch_default, frames_fetchChainYieldStats |].
  destruct (run_framed (catch_default
                          (l <- fetchChainTopYields W (name net) 3 ;; ret (Some l))
                          None) s6)
    as (v7 & s7 & E7 & F7);
    [auto with returns
    | apply frames_catch_default;
      pose proof (frames_fetchChainTopYields W (name net) 3); framing |].
  destruct (run_framed (catch_default (fetchFearGreedIndex W) None) s7)
    as (v8 & s8 & E8 & F8);
    [auto with returns | apply frames_catch_default, frames_fetchFearGreedIndex |].
  assert (F : framed s s8).
  { repeat (eapply framed_trans; [eassumption|]). apply framed_refl. }
  destruct F as [Fc Fn].
  eexists. eexists. split; [|split].
  - unfold StatsCard_refresh. apply try_catch_run.
    rewrite (bind_run _ _ _ _ _ E1), (bind_run _ _ _ _ _ E2),
      (bind_run _ _ _ _ _ E3), (bind_run _ _ _ _ _ E4),
      (bind_run _ _ _ _ _ E5), (bind_run _ _ _ _ _ E6),
      (bind_run _ _ _ _ _ E7), (bind_run _ _ _ _ _ E8).
    reflexivity.
  - simpl. rewrite Fc. reflexivity.
  - simpl. exact Fn.
Qed.

(** X18: building the snapshot of a network, in the refresh of [StatsCard]
    and in the warm-up alike, always ends by storing the snapshot under the
    name of the network and changes nothing else in the cache: the entry of
    every other network and the roster are as before. *)
Theorem refresh_writes_own_entry_only (W : World) (net : network) (s : State) :
  (exists snap s',
     StatsCard_refresh W net s = (Returned (Refreshed snap), s') /\
     networkDataCache s' = <[name net := snap]> (networkDataCache s) /\
     NETWORKS s' = NETWORKS s) /\
  (exists snap s',
     preFetchOne W net s = (Returned tt, s') /\
     networkDataCache s' = <[name net := snap]> (networkDataCache s) /\
     NETWORKS s' = NETWORKS s) /\
  (forall other : network,
     name other <> name net ->
     networkDataCache (snd (StatsCard_refresh W net s)) !! name other
     = networkDataCache s !! name other /\
     networkDataCache (snd (preFetchOne W net s)) !! name other
     = networkDataCache s !! name other).
Proof.
  split; [apply StatsCard_refresh_writes|]. split; [apply preFetchOne_stores|].
  intros other Hne.
  destruct (StatsCard_refresh_writes W net s) as (snap1 & s1 & E1 & C1 & _).
  destruct (preFetchOne_stores W net s) as (snap2 & s2 & E2 & C2 & _).
  rewrite E1, E2. simpl. rewrite C1, C2.
  split; apply lookup_insert_ne; congruence.
Qed.

(** The entry of Ethereum after a warm-up of Solana in a world without
    providers. *)
Lemma refresh_writes_own_entry_only_witness :
  networkDataCache
    (snd (preFetchOne down_world
            {| name := "Solana"; symbol := "SOL"; est := "2020";
               color := Hex "#9945FF"; pos := Vec3 (-1) (1 # 2) (1 # 2);
               net_geckoId := None; rawTvl := None; marketShare := None |}
            initial_state)) !! name ethereum
  = networkDataCache initial_state !! name ethereum.
Proof.
  refine (proj2 (proj2 (proj2 (refresh_writes_own_entry_only down_world
            {| name := "Solana"; symbol := "SOL"; est := "2020";
               color := Hex "#9945FF"; pos := Vec3 (-1) (1 # 2) (1 # 2);
               net_geckoId := None; rawTvl := None; marketShare := None |}
            initial_state)) ethereum _)).
  discriminate.
Defined.

(** ** The warm-up *)

Lemma forEach_preFetchOne W (l : list network) (s : State) :
  exists s',
    forEachM (fun net => catch_default (preFetchOne W net) tt) l s = (Returned tt, s') /\
    NETWORKS s' = NETWORKS s /\
    (forall k, is_Some (networkDataCache s !! k) ->
               is_Some (networkDataCache s' !! k)) /\
    (forall net, In net l -> is_Some (networkDataCache s' !! name net)).
Proof.
  revert s. induction l as [|net l IH]; intros s.
  - exists s. simpl. repeat split; [tauto | intros net []].
  - destruct (preFetchOne_stores W net s) as (snap & s1 & E1 & Hc & Hn).
    destruct (IH s1) as (s' & E' & Hn' & Hmono & Hall).
    exists s'. split; [|split; [|split]].
    + simpl. rewrite (bind_catch_run _ _ _ _ _ _ E1). exact E'.
    + congruence.
    + intros k Hk. apply Hmono. rewrite Hc.
      destruct (String.eqb_spec (name net) k) as [<-|Hne].
      * rewrite lookup_insert_eq. eexists. reflexivity.
      * rewrite lookup_insert_ne by exact Hne. exact Hk.
    + intros n [<-|Hin]; [|apply Hall, Hin].
      apply Hmono. rewrite Hc, lookup_insert_eq. eexists. reflexivity.
Qed.

(** X19: [preFetchNetworkData] always returns, and afterwards the cache
    holds a snapshot under the name of every network of the roster,
    whatever the providers answered; the roster is as before and no entry
    that was in the cache has left it. *)
Theorem preFetchNetworkData_warms (W : World) (s : State) :
  exists s',
    preFetchNetworkData W s = (Returned tt, s') /\
    NETWORKS s' = NETWORKS s /\
    warmed s' /\
    (forall k, is_Some (networkDataCache s !! k) ->
               is_Some (networkDataCache s' !! k)).
Proof.
  destruct (forEach_preFetchOne W (NETWORKS s) s) as (s' & E & Hn & Hmono & Hall).
  exists s'. split; [|split; [|split]].
  - unfold preFetchNetworkData, bind, get. exact E.
  - exact Hn.
  - intros net Hnet. rewrite Hn in Hnet. destruct (Hall net Hnet) as [snap Hs].
    exists snap. exact Hs.
  - exact Hmono.
Qed.

(** The warm-up of the base roster in a world without providers. *)
Lemma preFetchNetworkData_warms_witness :
  exists s',
    preFetchNetworkData down_world initial_state = (Returned tt, s') /\
    warmed s'.
Proof.
  destruct (preFetchNetworkData_warms down_world initial_state)
    as (s' & E & _ & Hw & _).
  exists s'. split; [exact E | exact Hw].
Defined.

(** ** The roster after [loadAnalytics] *)

Lemma map_outcome_length {A B} (f : A -> outcome B) (l : list A) (outs : list B) :
  map_outcome f l = Returned outs -> List.length outs = List.length l.
Proof.
  revert outs. induction l as [|x l IH]; simpl; intros outs H.
  - injection H as <-. reflexivity.
  - destruct (f x); [|discriminate].
    destruct (map_outcome f l) as [ys|]; [|discriminate].
    injection H as <-. simpl. rewrite (IH ys eq_refl). reflexivity.
Qed.

Lemma fetchAllChains_at_most_twenty W s :
  exists outs,
    fetchAllChains W s = (Returned outs, set_requests (GET_chains :: requests s) s) /\
    (List.length outs <= 20)%nat.
Proof.
  destruct (fetchAllChains_state W s) as (outs & E & H).
  exists outs. split; [exact E|].
  destruct H as [->|(listing & _ & Hm)]; [simpl; lia|].
  rewrite (map_outcome_length _ _ _ Hm). apply length_slice0.
Qed.

(** What [allChains.forEach] appends: at most one network for a chain,
    each at the place that its position counts from. *)
Lemma discover_appends (base : list network) (l : list chain_out)
    (acc add : list network) :
  fold_left (discover_step base) l (Returned acc) = Returned add ->
  exists new,
    add = acc ++ new /\ (List.length new <= List.length l)%nat /\
    forall i n, nth_error new i = Some n ->
      pos n = FibPos (List.length base + (List.length acc + i)) 20.
Proof.
  revert acc. induction l as [|c l IH]; intros acc Hfold.
  - simpl in Hfold. injection Hfold as <-. exists []. split; [|split].
    + symmetry. apply app_nil_r.
    + simpl. lia.
    + intros i n H. destruct i; discriminate.
  - simpl in Hfold.
    match type of Hfold with
    | fold_left _ _ (if ?b then _ else _) = _ => destruct b
    end.
    + destruct (co_name c) as [nm|].
      * destruct (IH _ Hfold) as (new & -> & Hlen & Hpos).
        eexists (_ :: new). split; [|split].
        -- rewrite <- app_assoc. reflexivity.
        -- simpl. lia.
        -- intros i n Hn. destruct i as [|i]; simpl in Hn.
           ++ injection Hn as <-. simpl. rewrite Nat.add_0_r. reflexivity.
           ++ rewrite (Hpos i n Hn). rewrite length_app. simpl.
              f_equal. lia.
      * rewrite fold_discover_thrown in Hfold. discriminate.
    + destruct (IH _ Hfold) as (new & -> & Hlen & Hpos).
      exists new. split; [reflexivity|]. split; [simpl; lia | exact Hpos].
Qed.

Lemma with_share_pos total n : pos (with_share total n) = pos n.
Proof. reflexivity. Qed.

Lemma with_share_defined total n :
  exists q, marketShare (with_share total n) = Some q /\ (0 <= q)%Q.
Proof.
  unfold with_share. simpl. eexists. split; [reflexivity|].
  destruct (positive total) eqn:Et; simpl; [|lra].
  destruct (positive (orQ (rawTvl n) 0)) eqn:Er; [|lra].
  apply positive_true in Et. apply positive_true in Er.
  apply Qlt_le_weak. apply Qmult_lt_0_compat; [|reflexivity].
  apply Qlt_shift_div_l; [exact Et | lra].
Qed.

(** The roster that [loadAnalytics] leaves: the one it found, when the
    discovery throws, and otherwise the twenty base networks followed by at
    most twenty discovered ones, each with its share. *)
Lemma loadAnalytics_roster W s :
  NETWORKS (snd (loadAnalytics W s)) = NETWORKS s \/
  exists updated appended,
    NETWORKS (snd (loadAnalytics W s)) = updated ++ appended /\
    List.length updated = 20%nat /\ (List.length appended <= 20)%nat /\
    (forall i n, nth_error appended i = Some n -> pos n = FibPos (20 + i) 20) /\
    List.Forall (fun n => exists q, marketShare n = Some q /\ (0 <= q)%Q)
      (updated ++ appended).
Proof.
  destruct (fetchAllNetworkAnalytics_state W s) as (analytics & s1 & E1 & N1).
  destruct (fetchAllChains_at_most_twenty W s1) as (allChains & E2 & Hlen).
  destruct (fetchChainTVL_state W (set_requests (GET_chains :: requests s1) s1))
    as (tvlData & E3).
  unfold loadAnalytics, try_catch.
  rewrite (bind_run _ _ _ _ _ E1), (bind_run _ _ _ _ _ E2), (bind_run _ _ _ _ _ E3).
  unfold bind at 1, lift at 1.
  destruct (additionalNetworks_of BASE_NETWORKS allChains) as [additional|] eqn:Eadd.
  - right. cbv beta iota delta [modify snd NETWORKS set_NETWORKS].
    destruct (discover_appends _ _ _ _ Eadd) as (new & Hnew & Hl & Hpos).
    simpl in Hnew. subst additional.
    exists (map (with_share (allChainTvl tvlData))
              (map (updateBase analytics tvlData) BASE_NETWORKS)),
      (map (with_share (allChainTvl tvlData)) new).
    split; [apply map_app|]. split; [rewrite !length_map; reflexivity|].
    split; [rewrite length_map; lia|]. split.
    + intros i n Hn. rewrite nth_error_map in Hn.
      destruct (nth_error new i) as [n0|] eqn:E0; [|discriminate].
      injection Hn as <-. rewrite with_share_pos. exact (Hpos i n0 E0).
    + rewrite <- map_app. apply List.Forall_forall. intros n Hn.
      apply in_map_iff in Hn as (n0 & <- & _). apply with_share_defined.
  - left. simpl. exact N1.
Qed.

(** X20: [loadAnalytics] keeps the size of the roster between 20 and 40:
    the twenty base networks and at most twenty discovered ones, since
    [fetchAllChains] returns twenty chains at most. *)
Theorem loadAnalytics_roster_bounded (W : World) (s : State) :
  (20 <= List.length (NETWORKS s) <= 40)%nat ->
  (20 <= List.length (NETWORKS (snd (loadAnalytics W s))) <= 40)%nat.
Proof.
  intros Hs.
  destruct (loadAnalytics_roster W s)
    as [->|(updated & appended & -> & Hu & Ha & _ & _)]; [exact Hs|].
  rewrite length_app. lia.
Qed.

(** The roster of the sample registry, from the initial roster. *)
Lemma loadAnalytics_roster_bounded_witness :
  (20 <= List.length (NETWORKS (snd (loadAnalytics discovery_world initial_state)))
   <= 40)%nat.
Proof.
  apply (loadAnalytics_roster_bounded discovery_world initial_state).
  simpl. lia.
Defined.

Lemma generatePosition_y_low (i : nat) :
  (generatePosition_y (20 + i) 20 <= - (21 # 19))%Q.
Proof.
  unfold generatePosition_y.
  change (inject_Z (Z.of_nat 20) - 1)%Q with (inject_Z 20 - 1)%Q.
  set (k := inject_Z (Z.of_nat (20 + i))).
  assert (Hk : (20 <= k)%Q).
  { unfold k. change 20%Q with (inject_Z 20). rewrite <- Zle_Qle. lia. }
  assert (Hd : (20 # 19 <= k / (inject_Z 20 - 1))%Q).
  { apply Qle_shift_div_l; [reflexivity|].
    assert (E : ((20 # 19) * (inject_Z 20 - 1) == 20)%Q) by reflexivity.
    rewrite E. exact Hk. }
  lra.
Qed.

(** X21: a network that [loadAnalytics] appends to the base roster is
    placed with [generatePosition(index, 20)] at an index of 20 or more, off
    the twenty points of the sphere: there, in exact arithmetic, [y] lies
    below -1 and the number under the square root of [radius] is
    negative. *)
Theorem discovered_position_off_sphere (W : World) (s : State) (i : nat)
    (n : network) :
  NETWORKS s = BASE_NETWORKS ->
  nth_error (NETWORKS (snd (loadAnalytics W s))) (20 + i) = Some n ->
  pos n = FibPos (20 + i) 20 /\
  (generatePosition_y (20 + i) 20 < -1)%Q /\
  (generatePosition_radicand (20 + i) 20 < 0)%Q.
Proof.
  intros Hbase Hn.
  assert (Hpos : pos n = FibPos (20 + i) 20).
  { destruct (loadAnalytics_roster W s)
      as [E|(updated & appended & E & Hu & _ & Hpos & _)]; rewrite E in Hn.
    - rewrite Hbase in Hn.
      assert (Hsome : nth_error BASE_NETWORKS (20 + i) <> None) by congruence.
      apply nth_error_Some in Hsome. simpl in Hsome. lia.
    - rewrite nth_error_app2 in Hn by lia.
      replace (20 + i - List.length updated)%nat with i in Hn by lia.
      exact (Hpos i n Hn). }
  split; [exact Hpos|].
  pose proof (generatePosition_y_low i) as Hy.
  unfold generatePosition_radicand.
  set (y := generatePosition_y (20 + i) 20) in *.
  split; [lra | nra].
Qed.

(** The network discovered in the sample registry. *)
Lemma discovered_position_off_sphere_witness :
  exists n,
    nth_error (NETWORKS (snd (loadAnalytics discovery_world initial_state))) 20
    = Some n /\
    name n = "Linea" /\ pos n = FibPos 20 20 /\
    (generatePosition_radicand 20 20 < 0)%Q.
Proof.
  eexists. split; [vm_compute; reflexivity|]. split; [reflexivity|].
  destruct (discovered_position_off_sphere discovery_world initial_state 0
              _ eq_refl ltac:(vm_compute; reflexivity)) as (Hp & _ & Hr).
  split; [exact Hp | exact Hr].
Defined.

(** X22: the share of a network is always defined after [loadAnalytics]:
    when the roster is rebuilt, every network of it carries a market share
    that is a number and not negative, since the division is guarded by
    [totalTvl > 0 && rawTvl > 0]; when the discovery throws the roster is
    the one before. *)
Theorem loadAnalytics_shares_defined (W : World) (s : State) :
  NETWORKS (snd (loadAnalytics W s)) = NETWORKS s \/
  List.Forall (fun n => exists q, marketShare n = Some q /\ (0 <= q)%Q)
    (NETWORKS (snd (loadAnalytics W s))).
Proof.
  destruct (loadAnalytics_roster W s)
    as [E|(updated & appended & E & _ & _ & _ & HF)]; [left; exact E|].
  right. rewrite E. exact HF.
Qed.

(** ** [fetchNetworkDetails]: the protocols and their count *)

Lemma sum_counts_categories (topProtocols : list protocol_out) :
  sum_counts (categories_of topProtocols) = List.length topProtocols.
Proof.
  unfold categories_of.
  assert (H : forall acc,
            sum_counts
              (fold_left
                 (fun cats protocol =>
                    incr (orS (Some (po_category protocol)) "Other") cats)
                 topProtocols acc)
            = (List.length topProtocols + sum_counts acc)%nat).
  { induction topProtocols as [|p l IH]; intros acc; [reflexivity|].
    simpl. rewrite IH, sum_counts_incr. lia. }
  rewrite H. unfold sum_counts. simpl. lia.
Qed.

Lemma orN_zero (a : option nat) (d : nat) : orN a d = 0%nat -> d = 0%nat.
Proof. unfold orN. destruct a as [[|n]|]; intros H; try exact H. discriminate. Qed.

Lemma orS_orS (x : option string) (d : string) :
  truthyS d = true -> orS (Some (orS x d)) d = orS x d.
Proof.
  intros Hd. unfold orS at 1. rewrite (orS_truthy x d Hd). reflexivity.
Qed.

(** X23: [fetchNetworkDetails] never throws, and it returns the minimal
    object of its [catch] block exactly when one of the top protocols, which
    are at most twenty and come from a listing of the registry, has the name
    of an inherited property as its category: the loop that groups the
    protocols then throws.  So it returns the full object when no protocol
    of the registry has such a category.  In the full object the counts by
    category add up to the number of top protocols, and the number of dApps
    is zero only when there is no top protocol. *)
Theorem fetchNetworkDetails_protocols (W : World) (networkName : string) (s : State) :
  exists topProtocols,
    (List.length topProtocols <= 20)%nat /\
    (forall p, In p topProtocols ->
       exists k listing q,
         http_protocols W k = Json listing /\ In q listing /\
         p = protocol_out_of q) /\
    (if push_throws topProtocols
     then fst (fetchNetworkDetails W networkName s) = Returned MinimalDetails
     else
       exists d,
         fst (fetchNetworkDetails W networkName s) = Returned (Details d) /\
         d_topProtocols d = topProtocols /\
         sum_counts (d_categories d) = List.length topProtocols /\
         (d_dappCount d = 0%nat -> topProtocols = [])) /\
    (plain_categories W -> push_throws topProtocols = false).
Proof.
  destruct (fetchChainTVL_state W s) as (tvlData & E1).
  destruct (fetchProtocols_state W (set_requests (GET_chains :: requests s) s))
    as (protocolData & E2).
  destruct (fetchChainProtocols_shape W networkName
              (set_requests
                 (GET_protocols :: requests (set_requests (GET_chains :: requests s) s))
                 (set_requests (GET_chains :: requests s) s)))
    as (topProtocols & s3 & E3 & Hshape).
  destruct (returns_inv (catch_default (fetchChainDEXVolume W networkName) None) s3)
    as (dexData & s4 & E4); [auto with returns|].
  destruct (returns_inv (catch_default (fetchChainFees W networkName) None) s4)
    as (feesData & s5 & E5); [auto with returns|].
  destruct (returns_inv (catch_default (fetchChainBridgeVolume W networkName) None) s5)
    as (bridgeData & s6 & E6); [auto with returns|].
  destruct (returns_inv (catch_default (fetchChainHistoricalTVL W networkName) None) s6)
    as (historical & s7 & E7); [auto with returns|].
  assert (Hfrom : forall p, In p topProtocols ->
            exists k listing q,
              http_protocols W k = Json listing /\ In q listing /\
              p = protocol_out_of q).
  { intros p Hp. destruct Hshape as [->|(k & listing & chain & Hk & _ & ->)];
      [destruct Hp|].
    apply In_chainProtocols in Hp as (q & chains & Hq & -> & _).
    exists k, listing, q. repeat split; assumption. }
  assert (Hrun : fetchNetworkDetails W networkName s
                 = try_catch
                     (if push_throws topProtocols then throw
                      else ret (Details (details_of networkName tvlData protocolData
                                           topProtocols dexData feesData bridgeData
                                           historical)))
                     (ret MinimalDetails) s7).
  { unfold fetchNetworkDetails, try_catch.
    rewrite (bind_run _ _ _ _ _ E1), (bind_run _ _ _ _ _ E2),
      (bind_run _ _ _ _ _ E3), (bind_run _ _ _ _ _ E4),
      (bind_run _ _ _ _ _ E5), (bind_run _ _ _ _ _ E6),
      (bind_run _ _ _ _ _ E7).
    reflexivity. }
  exists topProtocols. split; [|split; [exact Hfrom|split]].
  - destruct Hshape as [->|(k & listing & chain & _ & _ & ->)]; [simpl; lia|].
    apply length_slice0.
  - rewrite Hrun. destruct (push_throws topProtocols); [reflexivity|].
    eexists. split; [reflexivity|].
    unfold details_of. destruct (locate_chain networkName tvlData) as [chainData dn].
    cbv beta iota delta [d_topProtocols d_categories d_dappCount].
    split; [reflexivity|]. split.
    + apply sum_counts_categories.
    + intros H. apply orN_zero, orN_zero in H. unfold orN in H.
      destruct topProtocols; [reflexivity | discriminate].
  - intros Hplain. unfold push_throws.
    destruct (existsb _ topProtocols) eqn:Ex; [|reflexivity].
    apply existsb_exists in Ex as (p & Hp & Hinh).
    destruct (Hfrom p Hp) as (k & listing & q & Hk & Hq & ->).
    cbv beta iota delta [po_category protocol_out_of] in Hinh.
    rewrite orS_orS in Hinh by reflexivity.
    rewrite (Hplain k listing q Hk Hq) in Hinh. discriminate.
Qed.

(** The details of Ethereum in the world of the three protocols, two of
    which are on Ethereum. *)
Lemma fetchNetworkDetails_protocols_witness :
  exists d,
    fst (fetchNetworkDetails registry_world "Ethereum" initial_state)
    = Returned (Details d) /\
    List.length (d_topProtocols d) = 2%nat /\
    sum_counts (d_categories d) = 2%nat.
Proof.
  destruct (fetchNetworkDetails_protocols registry_world "Ethereum" initial_state)
    as (topProtocols & _ & _ & Hif & Hplain).
  assert (Hp : plain_categories registry_world).
  { intros k listing p [= <-] Hin.
    repeat (destruct Hin as [<-|Hin]; [reflexivity|]). destruct Hin. }
  rewrite (Hplain Hp) in Hif. destruct Hif as (d & E & Htop & Hsum & _).
  exists d. split; [exact E|].
  assert (Hd : Returned (Details d)
               = fst (fetchNetworkDetails registry_world "Ethereum" initial_state))
    by (symmetry; exact E).
  vm_compute in Hd. injection Hd as ->. split; reflexivity.
Defined.

(** A protocol filed under the category "constructor" costs the network
    its details: the grouping throws and the minimal object is returned. *)
Example fetchNetworkDetails_inherited_category :
  let W :=
    {| now := sample_clock;
       http_chains := fun _ => Json discovery_listing;
       http_protocols :=
         fun _ => Json [{| p_name := Some "Odd"; p_tvl := Some 1%Q;
                           p_category := Some "constructor";
                           p_chains := Some ["Ethereum"] |}];
       http_dexs := fun _ _ => NetworkError;
       http_fees := fun _ _ => NetworkError;
       http_bridges := fun _ _ => NetworkError;
       http_historicalChainTvl := fun _ _ => NetworkError;
       http_coin := fun _ _ => NetworkError;
       http_market_chart := fun _ _ _ => NetworkError;
       http_pairs := fun _ _ => NetworkError;
       http_search := fun _ _ => NetworkError;
       http_stablecoinchains := fun _ => NetworkError;
       http_pools := fun _ => NetworkError;
       http_fng := fun _ => NetworkError |} in
  fst (fetchNetworkDetails W "Ethereum" initial_state) = Returned MinimalDetails.
Proof. reflexivity. Qed.

(** ** [fetchTopPairs] *)

(** X24: [fetchTopPairs] never throws; it returns [null] exactly when the
    request fails or its status is not 2xx, and otherwise the first ten
    pairs of the response at most, in the order of the response (none when
    the body has no pairs).  On the same response the count of
    [fetchChainTotalLiquidity] is at least the number of pairs returned. *)
Theorem fetchTopPairs_first_ten (W : World) (chainId : string) (s : State) :
  let answer := http_pairs W chainId (List.length (requests s)) in
  fetchTopPairs W chainId s
  = (Returned (option_map (fun data => slice0 10 (default [] (pairs data)))
                 (body_of answer)),
     set_requests (GET_pairs chainId :: requests s) s) /\
  match fst (fetchTopPairs W chainId s), fst (fetchChainTotalLiquidity W chainId s) with
  | Returned (Some top), Returned (Some l) =>
      (List.length top <= 10)%nat /\ (List.length top <= pairCount l)%nat
  | Returned (Some top), Returned None => top = []
  | Returned None, Returned None => True
  | _, _ => False
  end.
Proof.
  intros answer. unfold answer. unfold fetchTopPairs. run.
  destruct (http_pairs W chainId (List.length (requests s))) as [| | |data];
    simpl; try (split; [reflexivity | exact I]).
  destruct (pairs data) as [ps|]; simpl; (split; [reflexivity|]).
  - change ((List.length (firstn 10 ps) <= 10)%nat /\
            (List.length (firstn 10 ps) <= List.length ps)%nat).
    rewrite length_firstn. lia.
  - reflexivity.
Qed.

(** ** The value locked in the roster and in the details *)

Lemma analytics_add_get tvlData counts share (acc : obj analytics_entry)
    (n n' : string) (info : chain_info) :
  obj_get n (analytics_add tvlData counts share acc (n', info))
  = if String.eqb n n'
    then obj_get n' (analytics_add tvlData counts share [] (n', info))
    else obj_get n acc.
Proof.
  unfold analytics_add. rewrite obj_get_set.
  destruct (String.eqb n n'); [|reflexivity].
  simpl. rewrite String.eqb_refl. reflexivity.
Qed.

Lemma analytics_fold_get tvlData counts share (l : list (string * chain_info))
    (acc : obj analytics_entry) (n : string) (info : chain_info) :
  List.NoDup (map fst l) -> In (n, info) l ->
  obj_get n (fold_left (analytics_add tvlData counts share) l acc)
  = obj_get n (analytics_add tvlData counts share [] (n, info)).
Proof.
  revert acc. induction l as [|[n' info'] l IH]; intros acc Hnd Hin; [destruct Hin|].
  inversion Hnd as [|? ? Hfresh Hnd']; subst. cbn [fold_left].
  simpl in Hfresh. destruct Hin as [[= -> ->]|Hin].
  - assert (Hskip : forall acc',
              obj_get n (fold_left (analytics_add tvlData counts share) l acc')
              = obj_get n acc').
    { clear IH Hnd Hnd'. induction l as [|[m i] l IHl]; intros acc'; [reflexivity|].
      cbn [fold_left]. simpl in Hfresh. rewrite IHl.
      - rewrite analytics_add_get.
        destruct (String.eqb_spec n m) as [->|_]; [|reflexivity].
        exfalso. apply Hfresh. left. reflexivity.
      - intros H. apply Hfresh. right. exact H. }
    rewrite Hskip, analytics_add_get, String.eqb_refl. reflexivity.
  - apply (IH _ Hnd' Hin).
Qed.

(** X25: for a network of [CHAIN_NAME_MAP] the value locked that
    [fetchAllNetworkAnalytics] puts in the roster and the one that
    [fetchNetworkDetails] shows in the card are computed from a map of the
    registry in the same way, except for the last step: they are equal
    unless the map has the chain under a name that matches the network only
    up to case, which the details alone look for; the roster then shows 0. *)
Theorem analytics_tvl_agrees_with_details (tvlData : obj tvl_entry)
    (protocolData protocolData' : protocol_counts) (networkName : string)
    (info : chain_info) (topProtocols : list protocol_out)
    (dexData : option dex_volume) (feesData : option chain_fees)
    (bridgeData : option bridge_volume) (historical : option historical_tvl) :
  obj_get networkName CHAIN_NAME_MAP = Some info ->
  exists e,
    obj_get networkName (analytics_of tvlData protocolData) = Some e /\
    a_geckoId e = geckoId info /\
    (a_tvl e
     = d_tvl (details_of networkName tvlData protocolData' topProtocols dexData
                feesData bridgeData historical) \/
     a_tvl e = 0%Q /\
     ~ In networkName (obj_keys tvlData) /\
     ~ In (defillamaName info) (obj_keys tvlData) /\
     exists key,
       In key (obj_keys tvlData) /\
       (same_ci key networkName \/ same_ci key (defillamaName info))).
Proof.
  intros Hinfo.
  assert (Hnd : List.NoDup (map fst CHAIN_NAME_MAP)).
  { unfold CHAIN_NAME_MAP. simpl.
    repeat (apply List.NoDup_cons;
            [simpl; intros H; repeat (destruct H as [H|H]; [discriminate|]); exact H|]).
    apply List.NoDup_nil. }
  pose proof (analytics_fold_get tvlData (counts protocolData)
                (calculateMarketShare tvlData None) CHAIN_NAME_MAP []
                networkName info Hnd (obj_get_In _ _ _ Hinfo)) as Hget.
  fold (analytics_of tvlData protocolData) in Hget.
  unfold analytics_add in Hget. simpl obj_get at 2 in Hget.
  rewrite String.eqb_refl in Hget.
  eexists. split; [exact Hget|]. split; [reflexivity|].
  cbv beta iota delta [a_tvl].
  assert (Hmapped : defillamaChainNameOf networkName = defillamaName info).
  { unfold defillamaChainNameOf. rewrite Hinfo. simpl.
    rewrite (CHAIN_NAME_MAP_names_truthy _ _ Hinfo). reflexivity. }
  unfold details_of, locate_chain. rewrite Hinfo, Hmapped.
  destruct (obj_get networkName tvlData) as [d|] eqn:E1; [left; reflexivity|].
  destruct (obj_get (defillamaName info) tvlData) as [d|] eqn:E2; [left; reflexivity|].
  destruct (find_alt tvlData (altNames info)) as [[alt d]|] eqn:E3; [left; reflexivity|].
  destruct (find_key_ci [networkName; defillamaName info] tvlData) as [key|] eqn:E4;
    [|left; reflexivity].
  right. split; [reflexivity|].
  split; [apply obj_get_None, E1|]. split; [apply obj_get_None, E2|].
  apply find_key_ci_Some in E4 as [Hkey (n & Hn & Hci)].
  exists key. split; [exact Hkey|].
  destruct Hn as [<-|[<-|[]]]; [left | right]; exact Hci.
Qed.

(** The value locked of Ethereum, from a map that lists it. *)
Lemma analytics_tvl_agrees_with_details_witness :
  exists e,
    obj_get "Ethereum"
      (analytics_of
         [("Ethereum", {| tvl := 52000000000%Q; tokenSymbol := None;
                          te_geckoId := None; te_chainId := None |})]
         no_counts) = Some e /\
    a_geckoId e = "ethereum".
Proof.
  destruct (analytics_tvl_agrees_with_details
              [("Ethereum", {| tvl := 52000000000%Q; tokenSymbol := None;
                               te_geckoId := None; te_chainId := None |})]
              no_counts no_counts "Ethereum"
              {| defillamaName := "Ethereum"; geckoId := "ethereum";
                 iconPath := "chains/rsz_ethereum.jpg"; altNames := ["Ethereum"] |}
              [] None None None None eq_refl) as (e & He & Hg & _).
  exists e. split; [exact He | exact Hg].
Defined.
